(** * exchangelib/properties.py: schema container, entity engine,
      identity delegation and timezone reconciliation

    A shallow embedding of the parts of [exchangelib/properties.py] that the
    specification talks about, followed by the properties proved of them.

    Python objects are modelled as values of [pyval]; exceptions as the
    [Error] branch of [result]; in-place mutation as explicit state
    passing.  Dictionaries that the source only ever reads through
    [sorted(d.items())] or by key are [gmap]s, keyword arguments (whose order
    shows in an error message) are association lists. *)

From Stdlib Require Import ZArith String Ascii List Lia.
From stdpp Require Import base option list gmap strings sorting.

Set Warnings "-register-all".

Local Open Scope string_scope.
Local Open Scope list_scope.
Local Open Scope Z_scope.

(** ** Exceptions and results *)

(** Field descriptors.  The field classes themselves live in [fields.py];
    only what [properties.py] reads of a field is kept: its name, whether it
    holds a list, and its class (for the [isinstance] tests). *)
Inductive field_class :=
| TextField | SubField | IdField | IntegerField | TimeField | CharField
| BooleanField | DateTimeField | ChoiceField | MailboxField | Base64Field
| DictionaryField | EWSElementField | EWSElementListField | IdElementField
| EnumField
| ExtendedPropertyField.

Record Field := mkField {
  name : string;
  is_list : bool;
  field_cls : field_class;
}.

(** [ValueError] messages of the source, one constructor per raise site. *)
Inductive value_error :=
| DuplicateField (f : Field)        (* 'Field %r is a duplicate' % f *)
| UnknownFieldName (n : string)     (* 'Unknown field name %r' % field_name *)
| SliceStepZero                     (* list: 'slice step cannot be zero' *)
| ExpectedTransitions               (* 'Expected 0-2 transitions in transitionsgroup %s' *)
| NoStandardBias                    (* 'No standard bias found in periods %s' *)
| NoValidTransition (for_year : Z)  (* 'No valid transition for year %s: %s' *)
| InvalidTransitionOffset           (* 'offset' value %s must be be between 0 and 24 hours *)
| UnknownTransition                 (* 'Unknown transition: %s' % transition *)
| NoMatchingTimezone.               (* 'No server timezones match this timezone definition' *)

Inductive exn :=
| ValueError (why : value_error)
| AttributeError (msg : string)
| KeyError
| IndexError
| TypeError.

Inductive result (A : Type) :=
| OK (a : A)
| Error (e : exn).
Arguments OK {A} a.
Arguments Error {A} e.

Definition bind {A B} (r : result A) (k : A -> result B) : result B :=
  match r with
  | OK a => k a
  | Error e => Error e
  end.

Declare Scope result_scope.
Delimit Scope result_scope with result.
Notation "x <- c1 ;; c2" := (bind c1 (fun x => c2))
  (at level 100, c1 at next level, right associativity) : result_scope.
Local Open Scope result_scope.

Definition mapM {A B} (f : A -> result B) : list A -> result (list B) :=
  fix go l :=
    match l with
    | [] => OK []
    | x :: l' => y <- f x ;; ys <- go l' ;; OK (y :: ys)
    end.

Definition is_ok {A} (r : result A) : bool :=
  match r with OK _ => true | Error _ => false end.

(** ** Python list indexing and slicing *)

Module PyList.

(** [l[i]] for an [int] index: negative indices count from the end. *)
Definition getitem {A} (l : list A) (i : Z) : result A :=
  let n := Z.of_nat (length l) in
  let i' := if i <? 0 then i + n else i in
  if (i' <? 0) || (n <=? i') then Error IndexError
  else match l !! Z.to_nat i' with
       | Some x => OK x
       | None => Error IndexError
       end.

(** [list.insert(i, x)]: the index is clamped to [0 .. len]. *)
Definition insert_index (n i : Z) : Z :=
  let i := if i <? 0 then i + n else i in
  if i <? 0 then 0 else if n <? i then n else i.

Definition insert {A} (l : list A) (i : Z) (x : A) : list A :=
  let k := Z.to_nat (insert_index (Z.of_nat (length l)) i) in
  take k l ++ x :: drop k l.

(** A slice object [start:stop:step], each part possibly omitted. *)
Record slice := mkSlice {
  start : option Z;
  stop : option Z;
  step : option Z;
}.

(** Clamp of one bound, as in CPython's [PySlice_AdjustIndices]. *)
Definition adjust (n st : Z) (bound : Z) : Z :=
  if bound <? 0 then
    let b := bound + n in
    if b <? 0 then (if st <? 0 then -1 else 0) else b
  else if n <=? bound then (if st <? 0 then n - 1 else n)
  else bound.

(** The indices selected by a slice of a list of length [n]. *)
Definition indices (n : Z) (s : slice) : result (list Z) :=
  let st := default 1 (step s) in
  if st =? 0 then Error (ValueError SliceStepZero)
  else
    let lo := match start s with
              | Some b => adjust n st b
              | None => if st <? 0 then n - 1 else 0
              end in
    let hi := match stop s with
              | Some b => adjust n st b
              | None => if st <? 0 then -1 else n
              end in
    let len := if st <? 0
               then (if hi <? lo then (lo - hi - 1) / (- st) + 1 else 0)
               else (if lo <? hi then (hi - lo - 1) / st + 1 else 0) in
    OK (map (fun k => lo + Z.of_nat k * st) (seq 0 (Z.to_nat len))).

(** [l[start:stop:step]] *)
Definition getslice {A} (l : list A) (s : slice) : result (list A) :=
  idx <- indices (Z.of_nat (length l)) s ;;
  OK (omap (fun i => l !! Z.to_nat i) idx).

End PyList.

(** ** class Fields(list) *)

(** The list part ([items]) and the name index ([_dict]) of the container. *)
Record Fields := mkFields {
  items : list Field;
  _dict : gmap string Field;
}.

Module FieldsM.

(** The loop of [Fields.__init__]: index every field, refusing a name that is
    already indexed. *)
Fixpoint index_fields (fields : list Field) (d : gmap string Field)
  : result (gmap string Field) :=
  match fields with
  | [] => OK d
  | f :: rest =>
      match d !! name f with
      | Some _ => Error (ValueError (DuplicateField f))
      | None => index_fields rest (<[name f := f]> d)
      end
  end.

(** The constructor, called with the fields as positional arguments. *)
Definition __init__ (fields : list Field) : result Fields :=
  d <- index_fields fields ∅ ;;
  OK (mkFields fields d).

(** The three forms of [__getitem__]. *)
Definition getitem_str (self : Fields) (key : string) : result Field :=
  match _dict self !! key with
  | Some f => OK f
  | None => Error KeyError
  end.

Definition getitem_int (self : Fields) (i : Z) : result Field :=
  PyList.getitem (items self) i.

Definition getitem_slice (self : Fields) (s : PyList.slice) : result Fields :=
  res <- PyList.getslice (items self) s ;;
  __init__ res.

(** [self + other], [other] any list of fields (a [Fields] included). *)
Definition __add__ (self : Fields) (other : list Field) : result Fields :=
  __init__ (items self ++ other).

Definition copy (self : Fields) : result Fields :=
  __init__ (items self).

Definition index_by_name (self : Fields) (field_name : string) : result Z :=
  (fix go (l : list Field) (i : Z) : result Z :=
     match l with
     | [] => Error (ValueError (UnknownFieldName field_name))
     | f :: l' => if String.eqb (name f) field_name then OK i else go l' (i + 1)
     end) (items self) 0.

(** [self.insert(index, field)] mutates the container; the state after the
    call is returned next to the outcome. *)
Definition insert (self : Fields) (index : Z) (field : Field)
  : result unit * Fields :=
  match _dict self !! name field with
  | Some _ => (Error (ValueError (DuplicateField field)), self)
  | None =>
      (OK tt, mkFields (PyList.insert (items self) index field)
                       (<[name field := field]> (_dict self)))
  end.

(** The container invariant: names are unique, and the index holds exactly
    the fields of the list under their names. *)
Definition names (self : Fields) : list string := name <$> items self.

Definition wf (self : Fields) : Prop :=
  NoDup (names self) /\
  forall n f, _dict self !! n = Some f <-> (f ∈ items self /\ name f = n).

End FieldsM.

(** ** Python values and entity classes *)

(** Which of the overriding bases a class derives from: this decides the
    [__init__], [__hash__], [__eq__], [clean] and [from_xml] it resolves to.
    [Mailbox] and [AvailabilityMailbox], which hash by item id or e-mail
    address, are not among the classes described. *)
Inductive base :=
| EWSElementBase            (* a direct EWSElement subclass, nothing overridden *)
| ItemIdBase                (* ItemId and subclasses: positional __init__ *)
| TimeZoneTransitionBase    (* StandardTime, DaylightTime *)
| IdChangeKeyMixInBase      (* UserConfiguration, Attribution, ... *)
| MailboxHashBase.          (* Attendee, Member: hash(self.mailbox) *)

Inductive pyclass := mkClass {
  cls_name : string;                  (* __name__ *)
  FIELDS : Fields;
  slots_keys : list string;           (* _slots_keys() *)
  cls_base : base;
  ID_ELEMENT_CLS : option pyclass;
}.

Inductive pyval :=
| PyNone
| PyBool (b : bool)
| PyInt (z : Z)
| PyStr (s : string)
| PyTime (hour minute second microsecond : Z)     (* datetime.time *)
| PyTuple (elts : list pyval)
| PyList (elts : list pyval)
| PyObj (cls : pyclass) (attrs : list (string * pyval)).

(** An entity instance: its class and its attribute store. *)
Record entity := mkEntity {
  e_cls : pyclass;
  e_attrs : list (string * pyval);
}.

Definition obj (e : entity) : pyval := PyObj (e_cls e) (e_attrs e).

(** Truth value of an object ([if v:], [v or d]).  EWSElement defines neither
    [__bool__] nor [__len__], so instances are true. *)
Definition truthy (v : pyval) : bool :=
  match v with
  | PyNone => false
  | PyBool b => b
  | PyInt z => negb (z =? 0)
  | PyStr s => negb (String.eqb s "")
  | PyTime _ _ _ _ => true
  | PyTuple l | PyList l => match l with [] => false | _ => true end
  | PyObj _ _ => true
  end.

Definition py_or (v d : pyval) : pyval := if truthy v then v else d.

Definition chars (s : string) : list pyval :=
  (fun a => PyStr (String a EmptyString)) <$> list_ascii_of_string s.

(** The elements [tuple(v)] iterates over. *)
Definition py_iter (v : pyval) : result (list pyval) :=
  match v with
  | PyTuple l | PyList l => OK l
  | PyStr s => OK (chars s)
  | _ => Error TypeError
  end.

(** Attribute store: an association list from attribute name to value. *)
Definition attr_with {A} (h : pyval -> A) (key : string)
  : list (string * pyval) -> option A :=
  fix find l :=
    match l with
    | [] => None
    | (k, v) :: l' => if String.eqb k key then Some (h v) else find l'
    end.

Definition attr_lookup : string -> list (string * pyval) -> option pyval :=
  attr_with (fun v => v).

Fixpoint attr_store (key : string) (v : pyval) (l : list (string * pyval))
  : list (string * pyval) :=
  match l with
  | [] => [(key, v)]
  | (k, w) :: l' =>
      if String.eqb k key then (k, v) :: l' else (k, w) :: attr_store key v l'
  end.

Definition no_attribute (key : string) : exn :=
  AttributeError key.

(** [getattr(o, key)] for a plain (slot) attribute. *)
Definition getattr_in (attrs : list (string * pyval)) (key : string)
  : result pyval :=
  match attr_lookup key attrs with
  | Some v => OK v
  | None => Error (no_attribute key)
  end.

Definition getattr (self : entity) (key : string) : result pyval :=
  getattr_in (e_attrs self) key.

(** [v.key] for an arbitrary value: only entity instances carry attributes. *)
Definition getattr_val (v : pyval) (key : string) : result pyval :=
  match v with
  | PyObj _ attrs => getattr_in attrs key
  | _ => Error (no_attribute key)
  end.

Definition hasattr (self : entity) (key : string) : bool :=
  match attr_lookup key (e_attrs self) with Some _ => true | None => false end.

Definition field_names (c : pyclass) : list string := name <$> items (FIELDS c).

(** ** EWSElement: construction and guarded attribute writes *)

Module EWSElement.

(** [object.__setattr__] on an instance that has no [__dict__], every class
    of the module declaring [__slots__]: a value is stored in a slot of the
    class, and nowhere else.  An attribute the instance holds already sits
    in one. *)
Definition object_setattr (self : entity) (key : string) (value : pyval)
  : result entity :=
  if bool_decide (key ∈ slots_keys (e_cls self)) || hasattr self key then
    OK (mkEntity (e_cls self) (attr_store key value (e_attrs self)))
  else Error (no_attribute key).

(** [__setattr__]: the three tests, each followed by the inherited store.
    [key in self.FIELDS] compares the key with the field objects through
    [Field.__eq__] of [fields.py]; it is taken as membership among the
    declared field names, as the comment above the test says.  Whether a
    write succeeds does not depend on that reading, only which of the two
    errors a key without a slot gets.  The properties [id] and [changekey]
    of [IdChangeKeyMixIn] pass the third test in the source and are written
    through their setters: those are [set_id] and [set_changekey] below. *)
Definition __setattr__ (self : entity) (key : string) (value : pyval)
  : result entity :=
  if bool_decide (key ∈ field_names (e_cls self)) then
    object_setattr self key value
  else if bool_decide (key ∈ slots_keys (e_cls self)) then
    object_setattr self key value
  else if hasattr self key then
    object_setattr self key value
  else
    Error (AttributeError
             ("'" +:+ key +:+ "' is not a valid attribute. See " +:+
              cls_name (e_cls self) +:+ ".FIELDS for valid field names")).

(** Keyword arguments: an ordered dictionary. *)
Abbreviation kwargs_t := (list (string * pyval)).

Definition kw_get (key : string) (kw : kwargs_t) : option pyval :=
  attr_lookup key kw.

(** [kwargs.pop(key, None)]: the value and the remaining dictionary. *)
Definition kw_pop (key : string) (kw : kwargs_t) : pyval * kwargs_t :=
  (default PyNone (kw_get key kw),
   filter (fun p => p.1 <> key) kw).

(** [kwargs[key] = value]: in place for a key that is there, at the end for a
    new one. *)
Definition kw_set (key : string) (v : pyval) (kw : kwargs_t) : kwargs_t :=
  attr_store key v kw.

Fixpoint join (sep : string) (l : list string) : string :=
  match l with
  | [] => ""
  | [s] => s
  | s :: l' => s +:+ sep +:+ join sep l'
  end.

(** The message of the [AttributeError] raised for leftover keywords. *)
Definition invalid_kwargs (keys : list string) : string :=
  join ", " ((fun k => "'" +:+ k +:+ "'") <$> keys)
  +:+ " are invalid kwargs for this class".

(** The loop [for f in self.FIELDS: setattr(self, f.name, kwargs.pop(f.name, None))]. *)
Fixpoint init_fields (fs : list Field) (self : entity) (kw : kwargs_t)
  : result (entity * kwargs_t) :=
  match fs with
  | [] => OK (self, kw)
  | f :: fs' =>
      let (v, kw') := kw_pop (name f) kw in
      self' <- __setattr__ self (name f) v ;;
      init_fields fs' self' kw'
  end.

Definition __init__ (cls : pyclass) (kw : kwargs_t) : result entity :=
  r <- init_fields (items (FIELDS cls)) (mkEntity cls []) kw ;;
  match r.2 with
  | [] => OK r.1
  | _ => Error (AttributeError (invalid_kwargs (r.2.*1)))
  end.

End EWSElement.

(** ** Equality and hashing *)

(** The properties [id] and [changekey] of [IdChangeKeyMixIn]: read through
    the nested identity instance stored in [_id]. *)
Definition nested_id_attr (key : string) (attrs : list (string * pyval))
  : result pyval :=
  _id <- getattr_in attrs "_id" ;;
  match _id with
  | PyNone => OK PyNone
  | _ => getattr_val _id key
  end.

(** The tuple that [EWSElement.__hash__] builds:
    [tuple(tuple(getattr(self, f.name) or ()) if f.is_list
           else getattr(self, f.name) for f in self.FIELDS)]. *)
Definition hash_key (c : pyclass) (attrs : list (string * pyval))
  : result (list pyval) :=
  mapM (fun f =>
          v <- getattr_in attrs (name f) ;;
          if is_list f
          then t <- py_iter (py_or v (PyTuple [])) ;; OK (PyTuple t)
          else OK v)
       (items (FIELDS c)).

Section Hash.

(** The builtin [hash] on [None], integers, strings and times, and the way
    the tuple hash combines the hashes of the elements. *)
Variable hash_atom : pyval -> Z.
Variable hash_tuple : list Z -> Z.

(** Hashing an entity instance, given the hash [h] of its attribute values.
    Every attribute is hashed where it sits in the attribute store, once the
    key has been built; [py_hash_structural] and [py_hash_mixin] below give
    the result in the source's own form. *)
Section ObjectHash.

Variable h : pyval -> result Z.

Definition found {A} (o : option (result A)) : result A :=
  match o with Some r => r | None => Error TypeError end.

(** [hash(tuple(w or ()))] *)
Definition hash_folded (w : pyval) : result Z :=
  if truthy w then
    match w with
    | PyTuple l | PyList l => hs <- mapM h l ;; OK (hash_tuple hs)
    | PyStr s => hs <- mapM (fun a => OK (hash_atom a)) (chars s) ;; OK (hash_tuple hs)
    | _ => Error TypeError
    end
  else OK (hash_tuple []).

(** [EWSElement.__hash__] *)
Definition hash_structural (c : pyclass) (attrs : list (string * pyval))
  : result Z :=
  _ <- hash_key c attrs ;;
  hs <- mapM (fun f => found (attr_with (if is_list f then hash_folded else h)
                                        (name f) attrs))
             (items (FIELDS c)) ;;
  OK (hash_tuple hs).

Definition hash_nested (key : string) (attrs : list (string * pyval))
  : result Z :=
  found (attr_with (fun _id =>
           match _id with
           | PyObj _ attrs' => found (attr_with h key attrs')
           | _ => OK (hash_atom PyNone)
           end) "_id" attrs).

(** [IdChangeKeyMixIn.__hash__]:
    [if self.id: return hash((self.id, self.changekey))], else the
    inherited hash. *)
Definition hash_mixin (c : pyclass) (attrs : list (string * pyval))
  : result Z :=
  i <- nested_id_attr "id" attrs ;;
  if truthy i then
    _ <- nested_id_attr "id" attrs ;;
    _ <- nested_id_attr "changekey" attrs ;;
    hi <- hash_nested "id" attrs ;;
    hc <- hash_nested "changekey" attrs ;;
    OK (hash_tuple [hi; hc])
  else hash_structural c attrs.

(** [Attendee.__hash__], [Member.__hash__]: [hash(self.mailbox)] *)
Definition hash_mailbox (attrs : list (string * pyval)) : result Z :=
  _ <- getattr_in attrs "mailbox" ;;
  found (attr_with h "mailbox" attrs).

Definition hash_object (c : pyclass) (attrs : list (string * pyval))
  : result Z :=
  match cls_base c with
  | IdChangeKeyMixInBase => hash_mixin c attrs
  | MailboxHashBase => hash_mailbox attrs
  | _ => hash_structural c attrs
  end.

End ObjectHash.

(** [hash(v)].  Lists are unhashable; [True] and [False] hash as [1] and [0];
    an entity instance dispatches to the [__hash__] of its class. *)
Fixpoint py_hash (v : pyval) : result Z :=
  match v with
  | PyNone | PyInt _ | PyStr _ | PyTime _ _ _ _ => OK (hash_atom v)
  | PyBool b => OK (hash_atom (PyInt (Z.b2z b)))
  | PyList _ => Error TypeError
  | PyTuple elts => hs <- mapM py_hash elts ;; OK (hash_tuple hs)
  | PyObj c attrs => hash_object py_hash c attrs
  end.

(** [EWSElement.__eq__]: [hash(self) == hash(other)], for any [other]. *)
Definition __eq__ (self : entity) (other : pyval) : result bool :=
  h1 <- py_hash (obj self) ;;
  h2 <- py_hash other ;;
  OK (h1 =? h2).

(** [IdChangeKeyMixIn.__eq__] *)
Definition mixin__eq__ (self : entity) (other : pyval) : result bool :=
  match other with
  | PyTuple _ =>
      i <- nested_id_attr "id" (e_attrs self) ;;
      c <- nested_id_attr "changekey" (e_attrs self) ;;
      h1 <- py_hash (PyTuple [i; c]) ;;
      h2 <- py_hash other ;;
      OK (h1 =? h2)
  | _ => __eq__ self other
  end.

(** [o == other] for an entity instance [o], by the [__eq__] of its class. *)
Definition obj_eq (self : entity) (other : pyval) : result bool :=
  match cls_base (e_cls self) with
  | IdChangeKeyMixInBase => mixin__eq__ self other
  | _ => __eq__ self other
  end.

Definition as_int (v : pyval) : option Z :=
  match v with
  | PyInt z => Some z
  | PyBool b => Some (Z.b2z b)
  | _ => None
  end.

(** [a == b].  Integers and booleans compare by value; strings, times and
    [None] with their own kind; tuples and lists element by element; an
    entity instance on either side answers through its [__eq__].  (The
    interpreter also takes identical objects as equal without asking
    [__eq__]; object identity is not part of this model.) *)
Fixpoint py_eq (a b : pyval) : result bool :=
  let seq_eq :=
    fix go (l l' : list pyval) : result bool :=
      match l, l' with
      | [], [] => OK true
      | x :: t, y :: t' => r <- py_eq x y ;; if r : bool then go t t' else OK false
      | _, _ => OK false
      end in
  match a with
  | PyObj c attrs => obj_eq (mkEntity c attrs) b
  | _ =>
      match b with
      | PyObj c attrs => obj_eq (mkEntity c attrs) a
      | _ =>
          match a with
          | PyNone => OK (match b with PyNone => true | _ => false end)
          | PyInt _ | PyBool _ =>
              OK (match as_int a, as_int b with
                  | Some x, Some y => x =? y
                  | _, _ => false
                  end)
          | PyStr s => OK (match b with PyStr s' => String.eqb s s' | _ => false end)
          | PyTime h m sec us =>
              OK (match b with
                  | PyTime h' m' sec' us' =>
                      (h =? h') && (m =? m') && (sec =? sec') && (us =? us')
                  | _ => false
                  end)
          | PyTuple l =>
              match b with
              | PyTuple l' => seq_eq l l'
              | _ => OK false
              end
          | PyList l =>
              match b with
              | PyList l' =>
                  if (length l =? length l')%nat then seq_eq l l' else OK false
              | _ => OK false
              end
          | PyObj _ _ => OK false
          end
      end
  end.

(** [a != b] *)
Definition py_ne (a b : pyval) : result bool :=
  r <- py_eq a b ;; OK (negb r).

End Hash.

(** ** ItemId and IdChangeKeyMixIn *)

Module ItemId.

(** [ItemId.__init__(self, *args, **kwargs)]: positional values are paired
    with the slot names when no keyword is given. *)
Definition __init__ (cls : pyclass) (args : list pyval)
  (kw : EWSElement.kwargs_t) : result entity :=
  let kw := match kw with
            | [] => zip (slots_keys cls) args
            | _ => kw
            end in
  EWSElement.__init__ cls kw.

End ItemId.

Module IdChangeKeyMixIn.

Definition __init__ (cls : pyclass) (kw : EWSElement.kwargs_t)
  : result entity :=
  match ID_ELEMENT_CLS cls with
  | None => Error TypeError        (* ID_ELEMENT_CLS = None is not callable *)
  | Some id_cls =>
      let (i, kw1) := EWSElement.kw_pop "id" kw in
      let (c, kw2) := EWSElement.kw_pop "changekey" kw1 in
      _id <- ItemId.__init__ id_cls [i; c] [] ;;
      i' <- getattr _id "id" ;;
      has_id <- (if truthy i' then OK true
                 else c' <- getattr _id "changekey" ;; OK (truthy c')) ;;
      let kw3 := if has_id : bool
                 then EWSElement.kw_set "_id" (obj _id) kw2 else kw2 in
      EWSElement.__init__ cls kw3
  end.

(** The property getters. *)
Definition id (self : entity) : result pyval :=
  nested_id_attr "id" (e_attrs self).

Definition changekey (self : entity) : result pyval :=
  nested_id_attr "changekey" (e_attrs self).

(** The property setters: create the nested identity instance when there is
    none yet, then write the one attribute on it. *)
Definition set_nested (key : string) (self : entity) (value : pyval)
  : result entity :=
  _id <- getattr self "_id" ;;
  self1 <- match _id with
           | PyNone =>
               match ID_ELEMENT_CLS (e_cls self) with
               | None => Error TypeError
               | Some id_cls =>
                   fresh <- ItemId.__init__ id_cls [] [] ;;
                   EWSElement.__setattr__ self "_id" (obj fresh)
               end
           | _ => OK self
           end ;;
  _id1 <- getattr self1 "_id" ;;
  match _id1 with
  | PyObj c attrs =>
      nested <- EWSElement.__setattr__ (mkEntity c attrs) key value ;;
      (* the instance is the one the [_id] slot refers to: the write shows there *)
      OK (mkEntity (e_cls self1) (attr_store "_id" (obj nested) (e_attrs self1)))
  | _ => Error (no_attribute key)
  end.

Definition set_changekey : entity -> pyval -> result entity := set_nested "changekey".

End IdChangeKeyMixIn.

(** Calling the class with keyword arguments: the constructor it resolves to. *)
Definition construct (cls : pyclass) (kw : EWSElement.kwargs_t) : result entity :=
  match cls_base cls with
  | IdChangeKeyMixInBase => IdChangeKeyMixIn.__init__ cls kw
  | ItemIdBase => ItemId.__init__ cls [] kw
  | _ => EWSElement.__init__ cls kw
  end.

(** ** Validation and unmarshalling *)

Section Codec.

Variable hash_atom : pyval -> Z.
Variable hash_tuple : list Z -> Z.

(** What [fields.py] and [version.py] provide: the protocol version, each
    field's version gate, validator and extractor, and the XML element and
    account handed to the extractors. *)
Variable Version : Type.
Variable supports_version : Field -> Version -> bool.
Variable field_clean : Field -> pyval -> option Version -> result pyval.
Variable Elem Account : Type.
Variable field_from_xml : Field -> Elem -> Account -> result pyval.

(** A method that mutates [self]: the outcome and the state it leaves. *)
Definition method (A : Type) : Type := entity -> result A * entity.

Definition assign (key : string) (value : pyval) : method unit :=
  fun self =>
    match EWSElement.__setattr__ self key value with
    | OK self' => (OK tt, self')
    | Error e => (Error e, self)
    end.

Definition is_extended (f : Field) : bool :=
  match field_cls f with ExtendedPropertyField => true | _ => false end.

(** One round of the loop of [EWSElement.clean]. *)
Definition clean_field (version : option Version) (f : Field) : method unit :=
  fun self =>
    if match version with
       | Some v => negb (supports_version f v)
       | None => false
       end
    then (OK tt, self)
    else if is_extended f && negb (hasattr self (name f)) then
      match field_clean f PyNone version with
      | OK v => assign (name f) v self
      | Error e => (Error e, self)
      end
    else
      match getattr self (name f) with
      | Error e => (Error e, self)
      | OK val =>
          match field_clean f val version with
          | OK v => assign (name f) v self
          | Error e => (Error e, self)
          end
      end.

Fixpoint clean_fields (version : option Version) (fs : list Field) : method unit :=
  fun self =>
    match fs with
    | [] => (OK tt, self)
    | f :: fs' =>
        match clean_field version f self with
        | (OK _, self') => clean_fields version fs' self'
        | (Error e, self') => (Error e, self')
        end
    end.

(** [EWSElement.clean(self, version=None)] *)
Definition EWSElement_clean (version : option Version) : method unit :=
  fun self => clean_fields version (items (FIELDS (e_cls self))) self.

(** The closing test of [TimeZoneTransition.clean] and [.from_xml]:
    [if self.occurrence == -1: self.occurrence = 5]. *)
Definition settle_occurrence : method unit :=
  fun self =>
    match getattr self "occurrence" with
    | Error e => (Error e, self)
    | OK occ =>
        match py_eq hash_atom hash_tuple occ (PyInt (-1)) with
        | Error e => (Error e, self)
        | OK true => assign "occurrence" (PyInt 5) self
        | OK false => (OK tt, self)
        end
    end.

(** [TimeZoneTransition.clean] *)
Definition TimeZoneTransition_clean (version : option Version) : method unit :=
  fun self =>
    match EWSElement_clean version self with
    | (OK _, self') => settle_occurrence self'
    | (Error e, self') => (Error e, self')
    end.

(** [EWSElement.from_xml(cls, elem, account)].  [cls._clear(elem)] only
    releases the source element and leaves the extracted values alone. *)
Definition EWSElement_from_xml (cls : pyclass) (elem : Elem) (account : Account)
  : result entity :=
  kw <- (fix go (fs : list Field) (kw : EWSElement.kwargs_t) :=
           match fs with
           | [] => OK kw
           | f :: fs' =>
               v <- field_from_xml f elem account ;;
               go fs' (EWSElement.kw_set (name f) v kw)
           end) (items (FIELDS cls)) [] ;;
  construct cls kw.

(** [TimeZoneTransition.from_xml] *)
Definition TimeZoneTransition_from_xml (cls : pyclass) (elem : Elem)
  (account : Account) : result entity :=
  res <- EWSElement_from_xml cls elem account ;;
  match settle_occurrence res with
  | (OK _, res') => OK res'
  | (Error e, _) => Error e
  end.

End Codec.

(** ** Entity classes *)

(** A class body's [FIELDS = Fields(...)]. *)
Definition declare (fields : list Field) : Fields :=
  match FieldsM.__init__ fields with
  | OK F => F
  | Error _ => mkFields [] ∅
  end.

Definition ItemId_FIELDS : Fields :=
  declare [mkField "id" false IdField; mkField "changekey" false IdField].

Definition ItemId_cls : pyclass :=
  mkClass "ItemId" ItemId_FIELDS ["id"; "changekey"] ItemIdBase None.

Definition PhoneNumber_cls : pyclass :=
  mkClass "PhoneNumber"
    (declare [mkField "number" false CharField; mkField "type" false CharField])
    ["number"; "type"] EWSElementBase None.

Definition TimeZoneTransition_FIELDS : Fields :=
  declare [mkField "bias" false IntegerField;
           mkField "time" false TimeField;
           mkField "occurrence" false IntegerField;
           mkField "iso_month" false IntegerField;
           mkField "weekday" false EnumField].

Definition TimeZoneTransition_slots : list string :=
  ["bias"; "time"; "occurrence"; "iso_month"; "weekday"].

Definition StandardTime : pyclass :=
  mkClass "StandardTime" TimeZoneTransition_FIELDS TimeZoneTransition_slots
          TimeZoneTransitionBase None.

Definition DaylightTime : pyclass :=
  mkClass "DaylightTime" TimeZoneTransition_FIELDS TimeZoneTransition_slots
          TimeZoneTransitionBase None.

Definition TimeZone_cls : pyclass :=
  mkClass "TimeZone"
    (declare [mkField "bias" false IntegerField;
              mkField "standard_time" false EWSElementField;
              mkField "daylight_time" false EWSElementField])
    ["bias"; "standard_time"; "daylight_time"] EWSElementBase None.

Definition UserConfiguration : pyclass :=
  mkClass "UserConfiguration"
    (declare [mkField "_id" false IdElementField;
              mkField "user_configuration_name" false EWSElementField;
              mkField "dictionary" false DictionaryField;
              mkField "xml_data" false Base64Field;
              mkField "binary_data" false Base64Field])
    ["_id"; "user_configuration_name"; "dictionary"; "xml_data"; "binary_data"]
    IdChangeKeyMixInBase (Some ItemId_cls).

(** ** class TimeZone *)

Module TimeZone.

(** [datetime.timedelta], as its total number of microseconds. *)
Definition timedelta := Z.

(** The quotient [a / b] rounded to the nearest integer, a tie going to the
    even one, for [0 <= a] and [0 < b]. *)
Definition round_half_even (a b : Z) : Z :=
  let q := a / b in
  let r := a mod b in
  if 2 * r <? b then q
  else if b <? 2 * r then q + 1
  else if Z.even q then q else q + 1.

(** [int(d.total_seconds())].  [total_seconds()] is the quotient of the
    microseconds by [10**6] as a float: the nearest number with 53
    significant bits, [m * 2 ** -k] with [2 ** 52 <= m <= 2 ** 53], ties to
    even.  [int()] then drops the fraction.  A duration shorter than a
    second gives [0]. *)
Definition int_total_seconds (d : timedelta) : Z :=
  let a := Z.abs d in
  let s := a / 1000000 in
  if s =? 0 then 0
  else
    let k := 52 - Z.log2 s in
    Z.sgn d *
    (if 0 <=? k then round_half_even (a * 2 ^ k) 1000000 / 2 ^ k
     else round_half_even a (1000000 * 2 ^ (- k)) * 2 ^ (- k)).

(** [int(d.total_seconds()) // 60]: whole seconds, then floor division.
    The float step is exact for durations under 2^33 seconds
    ([exact_seconds] and [minutes_exact] below); beyond, the whole seconds
    can be one up, and the minutes with them. *)
Definition minutes (d : timedelta) : Z := int_total_seconds d / 60.

Record date := mkDate { year : Z; month : Z; day : Z }.

(** A period of the server table: [{'name': ..., 'bias': ...}]. *)
Record period := mkPeriod { p_name : string; p_bias : timedelta }.

(** A transition of a transition group: either just [{'to': ...}], or with
    the four keys of a recurring day transition as well. *)
Record recurrence := mkRecurrence {
  offset : timedelta;
  iso_month : Z;
  iso_weekday : Z;
  occurrence : Z;
}.

Record transition := mkTransition {
  to : Z * string;
  recurring : option recurrence;
}.

Abbreviation periods_t := (gmap (Z * string) period).
Abbreviation transitions_t := (gmap Z (option date)).
Abbreviation groups_t := (gmap Z (list transition)).

(** One entry of the server catalog:
    [(tz_id, tz_name, tz_periods, tz_transitions, tz_transitions_groups)]. *)
Record server_tz := mkServerTz {
  tz_id : string;
  tz_name : string;
  tz_periods : periods_t;
  tz_transitions : transitions_t;
  tz_transitions_groups : groups_t;
}.

(** Order of [sorted(periods.items())]: by year, then by period type. *)
Definition period_item_le (a b : (Z * string) * period) : Prop :=
  Is_true ((a.1.1 <? b.1.1) || ((a.1.1 =? b.1.1) && String.leb a.1.2 b.1.2)).

(** Order of [sorted(transitions.items())]: by transition group id. *)
Definition transition_item_le (a b : Z * option date) : Prop :=
  Is_true (a.1 <=? b.1).

Definition _get_bias (periods : periods_t) (for_year : Z) : result Z :=
  let valid_period :=
    (fix go (l : list ((Z * string) * period)) (valid : option period) :=
       match l with
       | [] => valid
       | ((y, period_type), p) :: l' =>
           if negb (String.eqb period_type "Standard") then go l' valid
           else if for_year <? y then valid
           else go l' (Some p)
       end) (merge_sort period_item_le (map_to_list periods)) None in
  match valid_period with
  | None => Error (ValueError NoStandardBias)
  | Some p => OK (minutes (p_bias p))
  end.

Definition _get_valid_transition_id (transitions : transitions_t) (for_year : Z)
  : result Z :=
  let valid_tg_id :=
    (fix go (l : list (Z * option date)) (valid : option Z) :=
       match l with
       | [] => valid
       | (tg_id, from_date) :: l' =>
           if match from_date with
              | Some d => for_year <? year d
              | None => false
              end
           then valid
           else go l' (Some tg_id)
       end) (merge_sort transition_item_le (map_to_list transitions)) None in
  match valid_tg_id with
  | None => Error (ValueError (NoValidTransition for_year))
  | Some i => OK i
  end.

(** [(datetime.datetime(2000, 1, 1) + offset).time()], for an offset within
    one day. *)
Definition time_of_offset (o : timedelta) : pyval :=
  PyTime (o / 3600000000) ((o / 60000000) mod 60) ((o / 1000000) mod 60)
         (o mod 1000000).

Definition dummy_standard_time : result entity :=
  construct StandardTime
    [("bias", PyInt 0); ("time", PyTime 0 0 0 0); ("occurrence", PyInt 1);
     ("iso_month", PyInt 1); ("weekday", PyInt 1)].

Definition dummy_daylight_time : result entity :=
  construct DaylightTime
    [("bias", PyInt 0); ("time", PyTime 0 0 0 0); ("occurrence", PyInt 5);
     ("iso_month", PyInt 12); ("weekday", PyInt 7)].

(** [_get_std_and_dst(transitiongroup, periods, bias)]; the pair of results
    starts as [(None, None)]. *)
Fixpoint std_and_dst_loop (transitiongroup : list transition)
  (periods : periods_t) (bias : Z) (standard_time daylight_time : pyval)
  : result (pyval * pyval) :=
  match transitiongroup with
  | [] => OK (standard_time, daylight_time)
  | tr :: rest =>
      match periods !! to tr with
      | None => Error KeyError
      | Some p =>
          match recurring tr with
          | None =>
              (* len(transition) == 1 *)
              std <- dummy_standard_time ;;
              dst <- dummy_daylight_time ;;
              std_and_dst_loop rest periods bias (obj std) (obj dst)
          | Some r =>
              if negb ((0 <=? offset r) && (offset r <? 86400000000))
              then Error (ValueError InvalidTransitionOffset)
              else
                let transition_kwargs :=
                  [("time", time_of_offset (offset r));
                   ("occurrence", PyInt (occurrence r));
                   ("iso_month", PyInt (iso_month r));
                   ("weekday", PyInt (iso_weekday r))] in
                if String.eqb (p_name p) "Standard" then
                  std <- construct StandardTime
                           (EWSElement.kw_set "bias" (PyInt 0) transition_kwargs) ;;
                  std_and_dst_loop rest periods bias (obj std) daylight_time
                else if String.eqb (p_name p) "Daylight" then
                  let dst_bias := minutes (p_bias p) in
                  dst <- construct DaylightTime
                           (EWSElement.kw_set "bias" (PyInt (dst_bias - bias))
                                                    transition_kwargs) ;;
                  std_and_dst_loop rest periods bias standard_time (obj dst)
                else Error (ValueError UnknownTransition)
          end
      end
  end.

Definition _get_std_and_dst (transitiongroup : list transition)
  (periods : periods_t) (bias : Z) : result (pyval * pyval) :=
  std_and_dst_loop transitiongroup periods bias PyNone PyNone.

Definition from_server_timezone (cls : pyclass) (periods : periods_t)
  (transitions : transitions_t) (transitionsgroups : groups_t) (for_year : Z)
  : result entity :=
  bias <- _get_bias periods for_year ;;
  valid_tg_id <- _get_valid_transition_id transitions for_year ;;
  match transitionsgroups !! valid_tg_id with
  | None => Error KeyError
  | Some transitiongroup =>
      if negb (length transitiongroup <=? 2)%nat
      then Error (ValueError ExpectedTransitions)
      else
        sd <- _get_std_and_dst transitiongroup periods bias ;;
        construct cls [("bias", PyInt bias); ("standard_time", sd.1);
                       ("daylight_time", sd.2)]
  end.

Section Matching.

Variable hash_atom : pyval -> Z.
Variable hash_tuple : list Z -> Z.

(** [set.pop()]: some element of a non-empty set; which one is up to the
    interpreter. *)
Variable set_pop : gset string -> string.

Definition is_none (v : pyval) : bool :=
  match v with PyNone => true | _ => false end.

(** The narrowing test on one of [standard_time] / [daylight_time]: [false]
    stands for [continue]. *)
Definition same_transition_bias (key : string) (candidate self : entity)
  : result bool :=
  c <- getattr candidate key ;;
  if is_none c then
    s <- getattr self key ;;
    OK (is_none s)
  else
    s <- getattr self key ;;
    if is_none s then OK false
    else
      cb <- getattr_val c "bias" ;;
      sb <- getattr_val s "bias" ;;
      ne <- py_ne hash_atom hash_tuple cb sb ;;
      OK (negb ne).

(** The narrowing on base bias and standard / daylight bias values. *)
Definition matching_biases (candidate self : entity) : result bool :=
  cb <- getattr candidate "bias" ;;
  sb <- getattr self "bias" ;;
  ne <- py_ne hash_atom hash_tuple cb sb ;;
  if ne : bool then OK false
  else
    std <- same_transition_bias "standard_time" candidate self ;;
    if negb std then OK false
    else same_transition_bias "daylight_time" candidate self.

(** The loop of [to_server_timezone]: either the id of an exact match, on
    which the method returns at once, or the candidate set at the end. *)
Fixpoint scan (self : entity) (for_year : Z) (timezones : list server_tz)
  (candidates : gset string) : result (string + gset string) :=
  match timezones with
  | [] => OK (inr candidates)
  | tz :: rest =>
      candidate <- from_server_timezone (e_cls self) (tz_periods tz)
                     (tz_transitions tz) (tz_transitions_groups tz) for_year ;;
      exact <- obj_eq hash_atom hash_tuple candidate (obj self) ;;
      if exact : bool then OK (inl (tz_id tz))
      else
        keep <- matching_biases candidate self ;;
        scan self for_year rest
             (if keep : bool then candidates ∪ {[tz_id tz]} else candidates)
  end.

Definition to_server_timezone (self : entity) (timezones : list server_tz)
  (for_year : Z) : result string :=
  r <- scan self for_year timezones ∅ ;;
  match r with
  | inl tz_id => OK tz_id
  | inr candidates =>
      if decide (candidates = ∅)
      then Error (ValueError NoMatchingTimezone)
      else OK (set_pop candidates)
  end.

End Matching.

End TimeZone.

(** ** Definitions used in the statements *)

(** The index built by the constructor's loop, when it runs to the end. *)
Definition indexed (fields : list Field) (d : gmap string Field)
  : gmap string Field :=
  foldl (fun d f => <[name f := f]> d) d fields.

(** An identity element class in the shape of [ItemId]: the fields and
    slots [id] and [changekey]. *)
Definition id_like (c : pyclass) : Prop :=
  field_names c = ["id"; "changekey"] /\ slots_keys c = ["id"; "changekey"].

(** Every declared field of the class has a slot, as in the class bodies of
    the module ([__slots__ = tuple(f.name for f in FIELDS)]). *)
Definition slotted (c : pyclass) : Prop :=
  Forall (fun k => k ∈ slots_keys c) (field_names c).


(** Classes whose instances hash by [EWSElement.__hash__]. *)
Definition structural (c : pyclass) : Prop :=
  cls_base c <> IdChangeKeyMixInBase /\ cls_base c <> MailboxHashBase.

(** Modelled from the spec: the canonical wire string of an enumerated value
    ([EnumField.as_string] and the enum tables are in [fields.py], which is
    not among the sources), and the hash input as section 4.3 words it: the
    ordered tuple of (field name, normalized value) pairs, list values
    folded to tuples and enumerated values replaced by their wire string. *)
Definition spec_hash_key (as_string : Field -> Z -> string) (c : pyclass)
  (attrs : list (string * pyval)) : result (list pyval) :=
  mapM (fun f =>
          v <- getattr_in attrs (name f) ;;
          normalized <-
            (if is_list f
             then t <- py_iter (py_or v (PyTuple [])) ;; OK (PyTuple t)
             else match field_cls f, v with
                  | EnumField, PyInt z => OK (PyStr (as_string f z))
                  | _, _ => OK v
                  end) ;;
          OK (PyTuple [PyStr (name f); normalized]))
       (items (FIELDS c)).

(** Sample data for the examples. *)
Definition weekday_name (_ : Field) (z : Z) : string :=
  nth (Z.to_nat (z - 1))
      ["Monday"; "Tuesday"; "Wednesday"; "Thursday"; "Friday"; "Saturday"; "Sunday"]
      "".

Definition sample_hash_atom (v : pyval) : Z :=
  match v with
  | PyInt z => z
  | PyStr s => 1000 + Z.of_nat (String.length s)
  | PyTime h m s us => 2000 + h
  | _ => 0
  end.

Definition sample_hash_tuple (hs : list Z) : Z :=
  fold_right (fun h acc => h + 31 * acc) 7 hs.

Definition sample_item_id : entity :=
  mkEntity ItemId_cls [("id", PyStr "a"); ("changekey", PyStr "b")].

Definition sample_phone_number : entity :=
  mkEntity PhoneNumber_cls [("number", PyStr "a"); ("type", PyStr "b")].

Definition sample_unhashable : entity :=
  mkEntity PhoneNumber_cls
    [("number", PyList [PyStr "555"; PyStr "0100"]); ("type", PyStr "home")].

Definition transition_attrs (bias occurrence iso_month weekday : Z)
  : list (string * pyval) :=
  [("bias", PyInt bias); ("time", PyTime 2 0 0 0);
   ("occurrence", PyInt occurrence); ("iso_month", PyInt iso_month);
   ("weekday", PyInt weekday)].

Definition sample_standard_time : entity :=
  mkEntity StandardTime (transition_attrs 0 5 10 7).

Definition sample_daylight_time : entity :=
  mkEntity DaylightTime (transition_attrs 0 5 10 7).

Definition sample_user_configuration (xml_data : pyval) : entity :=
  mkEntity UserConfiguration
    [("_id", obj sample_item_id); ("user_configuration_name", PyNone);
     ("dictionary", PyNone); ("xml_data", xml_data); ("binary_data", PyNone)].

(** A validator and an extractor to instantiate the field codecs with: the
    validator accepts every value as it is, the extractor reads the field
    by name from a list of named values. *)
Definition sample_field_clean (f : Field) (v : pyval) (_ : option unit)
  : result pyval := OK v.

Definition sample_field_from_xml (f : Field) (elem : list (string * pyval))
  (_ : unit) : result pyval := getattr_in elem (name f).

(** Time zone tables for the examples: one standard period of 120 minutes
    (the bias is in microseconds), and the same with a transition table that
    selects an empty group, or a group with one plain transition. *)
Definition sample_periods : TimeZone.periods_t :=
  {[ (2020, "Standard") := TimeZone.mkPeriod "Standard" 7200000000 ]}.

Definition plain_transition : TimeZone.transition :=
  TimeZone.mkTransition (2020, "Standard") None.

(** The narrowing condition of [to_server_timezone] in the words of the
    specification: the base biases are equal, and for each of the standard
    and the daylight descriptor, either both time zones have none or both
    have one and the biases of the two are equal. *)
Section Narrowing.

Variable hash_atom : pyval -> Z.
Variable hash_tuple : list Z -> Z.

Definition same_bias (c s : pyval) : Prop :=
  exists cb sb, getattr_val c "bias" = OK cb /\ getattr_val s "bias" = OK sb /\
                py_eq hash_atom hash_tuple cb sb = OK true.

Definition descriptor_agrees (key : string) (candidate self : entity) : Prop :=
  exists c s, getattr candidate key = OK c /\ getattr self key = OK s /\
    ((c = PyNone /\ s = PyNone) \/
     (c <> PyNone /\ s <> PyNone /\ same_bias c s)).

Definition biases_agree (candidate self : entity) : Prop :=
  same_bias (obj candidate) (obj self) /\
  descriptor_agrees "standard_time" candidate self /\
  descriptor_agrees "daylight_time" candidate self.

(** The entries of the catalog that end up in the candidate set. *)
Definition qualifies (self : entity) (for_year : Z) (tz : TimeZone.server_tz)
  : bool :=
  match TimeZone.from_server_timezone (e_cls self) (TimeZone.tz_periods tz)
          (TimeZone.tz_transitions tz) (TimeZone.tz_transitions_groups tz) for_year with
  | OK candidate =>
      match TimeZone.matching_biases hash_atom hash_tuple candidate self with
      | OK b => b
      | Error _ => false
      end
  | Error _ => false
  end.

(** An entry is passed over by the loop without an exact match: its time
    zone is derived, is not equal to the local one, and the narrowing test
    runs to an answer. *)
Definition passed_over (self : entity) (for_year : Z) (tz : TimeZone.server_tz)
  : Prop :=
  exists candidate b,
    TimeZone.from_server_timezone (e_cls self) (TimeZone.tz_periods tz)
      (TimeZone.tz_transitions tz) (TimeZone.tz_transitions_groups tz) for_year
    = OK candidate /\
    obj_eq hash_atom hash_tuple candidate (obj self) = OK false /\
    TimeZone.matching_biases hash_atom hash_tuple candidate self = OK b.

(** An entry makes the loop raise [e]: in deriving its time zone, in
    comparing it with the local one, or in the narrowing test. *)
Definition fails_with (self : entity) (for_year : Z) (tz : TimeZone.server_tz)
  (e : exn) : Prop :=
  let derived :=
    TimeZone.from_server_timezone (e_cls self) (TimeZone.tz_periods tz)
      (TimeZone.tz_transitions tz) (TimeZone.tz_transitions_groups tz) for_year in
  derived = Error e \/
  exists candidate,
    derived = OK candidate /\
    (obj_eq hash_atom hash_tuple candidate (obj self) = Error e \/
     (obj_eq hash_atom hash_tuple candidate (obj self) = OK false /\
      TimeZone.matching_biases hash_atom hash_tuple candidate self = Error e)).

End Narrowing.

(** A [set.pop()] to instantiate the choice with: the first element in the
    order of [elements]. *)
Definition sample_set_pop (s : gset string) : string :=
  default "" (head (elements s)).

(** A catalog entry for a zone one hour east with daylight saving (the
    transitions at 02:00 on the last Sunday of March and at 03:00 on the last
    Sunday of October), a local time zone that is the same, and one whose
    standard time starts at 04:00 instead. *)
Definition sample_dst_periods : TimeZone.periods_t :=
  {[ (2020, "Standard") := TimeZone.mkPeriod "Standard" 3600000000;
     (2020, "Daylight") := TimeZone.mkPeriod "Daylight" 7200000000 ]}.

Definition sample_dst_group : list TimeZone.transition :=
  [TimeZone.mkTransition (2020, "Daylight")
     (Some (TimeZone.mkRecurrence 7200000000 3 7 5));
   TimeZone.mkTransition (2020, "Standard")
     (Some (TimeZone.mkRecurrence 10800000000 10 7 5))].

Definition sample_catalog_entry : TimeZone.server_tz :=
  TimeZone.mkServerTz "W. Europe Standard Time" "(UTC+01:00) Amsterdam"
    sample_dst_periods {[ 0 := None ]} {[ 0 := sample_dst_group ]}.

Definition sample_far_entry : TimeZone.server_tz :=
  TimeZone.mkServerTz "Turkey Standard Time" "(UTC+03:00) Istanbul"
    {[ (2020, "Standard") := TimeZone.mkPeriod "Standard" 10800000000 ]}
    {[ 0 := None ]} {[ 0 := [] ]}.

(** An entry whose transition table is empty. *)
Definition sample_broken_entry : TimeZone.server_tz :=
  TimeZone.mkServerTz "Custom Zone" "(UTC+01:00) Custom"
    {[ (2020, "Standard") := TimeZone.mkPeriod "Standard" 3600000000 ]} ∅ ∅.

Definition sample_local_tz (standard_hour : Z) : entity :=
  mkEntity TimeZone_cls
    [("bias", PyInt 60);
     ("standard_time",
      PyObj StandardTime
        [("time", PyTime standard_hour 0 0 0); ("occurrence", PyInt 5);
         ("iso_month", PyInt 10); ("weekday", PyInt 7); ("bias", PyInt 0)]);
     ("daylight_time",
      PyObj DaylightTime
        [("time", PyTime 2 0 0 0); ("occurrence", PyInt 5);
         ("iso_month", PyInt 3); ("weekday", PyInt 7); ("bias", PyInt 60)])].

(** * Further operations *)

(** Exceptions of the operations below that the first part has no name
    for. *)
Inductive error :=
| Base (e : exn)
| NotInList                          (* ValueError: list.remove(x): x not in list *)
| InvalidField (msg : string)        (* '%s' is not a valid field name on '%s' *)
| InvalidFieldForVersion (field_name : string)
| NotAVersion                        (* 'version' %r must be a Version instance *)
| NotAField                          (* Field %r must be a string, Field or FieldPath instance *)
| UnicodeEncodeError (position : nat)
| StructError                        (* struct.error: argument out of range *)
| BinasciiError.                     (* binascii.Error: not hexadecimal *)

Inductive outcome (A : Type) :=
| Returns (a : A)
| Raises (e : error).
Arguments Returns {A} a.
Arguments Raises {A} e.

(** ** Fields.remove *)

Section Removal.

(** The comparison [list.remove] makes with each item: the same object, or
    [Field.__eq__], which is in [fields.py]. *)
Variable field_eq : Field -> Field -> bool.

(** [list.remove(x)]: the list without its first item equal to [x]. *)
Fixpoint list_remove (l : list Field) (x : Field) : option (list Field) :=
  match l with
  | [] => None
  | y :: l' => if field_eq y x then Some l' else (y ::.) <$> list_remove l' x
  end.

(** [self.remove(field)]: the list part first, then the name index. *)
Definition Fields_remove (self : Fields) (field : Field) : outcome unit * Fields :=
  match list_remove (items self) field with
  | None => (Raises NotInList, self)
  | Some l' =>
      match _dict self !! name field with
      | None => (Raises (Base KeyError), mkFields l' (_dict self))
      | Some _ => (Returns tt, mkFields l' (delete (name field) (_dict self)))
      end
  end.

End Removal.

(** ** The schema of a class: add_field, remove_field *)

(** Classes are known by name.  [FIELDS] is a class attribute: a class may
    have one of its own or find the one of a base class, and several classes
    may refer to one and the same [Fields] object. *)
Module Schema.

Record classes := mkClasses {
  mro : string -> list string;      (* getmro(cls): the class first, then its bases *)
  own_FIELDS : gmap string nat;     (* classes with a FIELDS attribute of their own,
                                       and the object it refers to *)
  objects : gmap nat Fields;        (* the Fields objects *)
}.

(** The object [cls.FIELDS] refers to: that of the first class in the
    method resolution order that has the attribute. *)
Fixpoint resolve (own : gmap string nat) (l : list string) : option nat :=
  match l with
  | [] => None
  | c :: l' => match own !! c with
               | Some r => Some r
               | None => resolve own l'
               end
  end.

Definition FIELDS_ref (w : classes) (cls : string) : option nat :=
  resolve (own_FIELDS w) (mro w cls).

Definition get_FIELDS (w : classes) (cls : string) : option Fields :=
  r ← FIELDS_ref w cls; objects w !! r.

Definition no_FIELDS : exn := AttributeError "FIELDS".

(** [cls.FIELDS = cls.FIELDS.copy()]: a new object, bound to [cls] itself. *)
Definition rebind_copy (w : classes) (cls : string) : result classes :=
  match get_FIELDS w cls with
  | None => Error no_FIELDS
  | Some F =>
      F' <- FieldsM.copy F ;;
      let r := fresh (dom (objects w)) in
      OK (mkClasses (mro w) (<[cls := r]> (own_FIELDS w)) (<[r := F']> (objects w)))
  end.

(** A call of a method of [cls.FIELDS] that changes the object in place. *)
Definition on_FIELDS {E} (w : classes) (cls : string) (missing : E)
  (m : Fields -> E * Fields) : E * classes :=
  match FIELDS_ref w cls with
  | None => (missing, w)
  | Some r =>
      match objects w !! r with
      | None => (missing, w)
      | Some F =>
          let (res, F') := m F in
          (res, mkClasses (mro w) (own_FIELDS w) (<[r := F']> (objects w)))
      end
  end.

(** [add_field(cls, field, insert_after)] *)
Definition add_field (w : classes) (cls : string) (field : Field)
  (insert_after : string) : result unit * classes :=
  match get_FIELDS w cls with
  | None => (Error no_FIELDS, w)
  | Some F =>
      match FieldsM.index_by_name F insert_after with
      | Error e => (Error e, w)
      | OK i =>
          let idx := i + 1 in
          match rebind_copy w cls with
          | Error e => (Error e, w)
          | OK w1 =>
              on_FIELDS w1 cls (Error no_FIELDS)
                (fun F1 => FieldsM.insert F1 idx field)
          end
      end
  end.

Section Removal.

(** The comparison [list.remove] makes: the same object, or [Field.__eq__]. *)
Variable field_eq : Field -> Field -> bool.

(** [remove_field(cls, field)] *)
Definition remove_field (w : classes) (cls : string) (field : Field)
  : outcome unit * classes :=
  match rebind_copy w cls with
  | Error e => (Raises (Base e), w)
  | OK w1 =>
      on_FIELDS w1 cls (Raises (Base no_FIELDS))
        (fun F1 => Fields_remove field_eq F1 field)
  end.

End Removal.

(** Every [FIELDS] attribute refers to an object that exists. *)
Definition bound (w : classes) : Prop :=
  map_Forall (fun _ r => r ∈ dom (objects w)) (own_FIELDS w).

End Schema.

(** ** EWSElement._slots_keys *)

(** The inner loop: the slots of one class, the keys seen before skipped. *)
Fixpoint add_slots (slots : list string) (seen : gset string) (keys : list string)
  : gset string * list string :=
  match slots with
  | [] => (seen, keys)
  | k :: rest =>
      if decide (k ∈ seen) then add_slots rest seen keys
      else add_slots rest ({[k]} ∪ seen) (keys ++ [k])
  end.

(** The outer loop, over the classes from the root down.  Each class is
    given by what its [__slots__] attribute evaluates to, its own or an
    inherited one, [None] where [hasattr(c, '__slots__')] is false. *)
Fixpoint slots_loop (classes : list (option (list string)))
  (seen : gset string) (keys : list string) : list string :=
  match classes with
  | [] => keys
  | None :: rest => slots_loop rest seen keys
  | Some slots :: rest =>
      let (seen', keys') := add_slots slots seen keys in
      slots_loop rest seen' keys'
  end.

(** [_slots_keys(cls)]: [mro] is [getmro(cls)], the class first, and
    [cached] the cache attribute as the class sees it before the call; the
    second component is that attribute after the call. *)
Definition _slots_keys (cached : option (list string))
  (mro : list (option (list string))) : list string * option (list string) :=
  match cached with
  | Some keys => (keys, cached)
  | None =>
      let keys := slots_loop (reverse mro) ∅ [] in
      (keys, Some keys)
  end.

(** ** Field lookup and validation on a class *)

Definition invalid_field (fieldname cls_name : string) : error :=
  InvalidField ("'" +:+ fieldname +:+ "' is not a valid field name on '" +:+
                cls_name +:+ "'").

(** [EWSElement.get_field_by_fieldname] *)
Definition EWSElement_get_field_by_fieldname (cls : pyclass) (fieldname : string)
  : outcome Field :=
  match FieldsM.getitem_str (FIELDS cls) fieldname with
  | OK f => Returns f
  | Error KeyError => Raises (invalid_field fieldname (cls_name cls))
  | Error e => Raises (Base e)
  end.

(** [cls.get_field_by_fieldname(fieldname)], resolved by the base of the
    class: [IdChangeKeyMixIn] hands [id] and [changekey] to the identity
    element class. *)
Fixpoint get_field_by_fieldname (cls : pyclass) (fieldname : string)
  : outcome Field :=
  match cls_base cls with
  | IdChangeKeyMixInBase =>
      if bool_decide (fieldname ∈ ["id"; "changekey"]) then
        match ID_ELEMENT_CLS cls with
        | None => Raises (Base (no_attribute "get_field_by_fieldname"))
        | Some id_cls => get_field_by_fieldname id_cls fieldname
        end
      else EWSElement_get_field_by_fieldname cls fieldname
  | _ => EWSElement_get_field_by_fieldname cls fieldname
  end.

(** The [field] argument of [validate_field]: a string, a [FieldPath] (with
    the field it points to), a [Field], or anything else. *)
Inductive field_arg :=
| ByName (fieldname : string)
| ByPath (field : Field)
| ByField (field : Field)
| NoField.

Section Validation.

Variable Version : Type.
Variable supports_version : Field -> Version -> bool.
Variable field_clean : Field -> pyval -> option Version -> result pyval.

(** [validate_field(cls, field, version)]; [version] is [None] for an
    argument that is not a [Version] instance. *)
Definition validate_field (cls : pyclass) (field : field_arg)
  (version : option Version) : outcome unit :=
  match version with
  | None => Raises NotAVersion
  | Some v =>
      match (match field with
             | ByName s =>
                 match get_field_by_fieldname cls s with
                 | Returns f => Returns (Some f)
                 | Raises e => Raises e
                 end
             | ByPath f | ByField f => Returns (Some f)
             | NoField => Returns None
             end) with
      | Raises e => Raises e
      | Returns None => Raises NotAField
      | Returns (Some f) =>
          match get_field_by_fieldname cls (name f) with
          | Raises e => Raises e
          | Returns _ =>
              if supports_version f v then Returns tt
              else Raises (InvalidFieldForVersion (name f))
          end
      end
  end.

(** *** For the statements about [clean] *)

(** The round of the loop is skipped for this field. *)
Definition skipped (version : option Version) (f : Field) : bool :=
  match version with
  | Some v => negb (supports_version f v)
  | None => false
  end.

(** The value the validator is given. *)
Definition clean_input (f : Field) (self : entity) : result pyval :=
  if is_extended f && negb (hasattr self (name f)) then OK PyNone
  else getattr self (name f).

(** Field [f] of [self] has been through its round: [self'] holds what the
    validator made of the value [self] had. *)
Definition cleaned (version : option Version) (f : Field) (self self' : entity)
  : Prop :=
  if skipped version f then getattr self' (name f) = getattr self (name f)
  else exists val v,
         clean_input f self = OK val /\ field_clean f val version = OK v /\
         getattr self' (name f) = OK v.

(** The round of [f] raises [e]. *)
Definition clean_fails (version : option Version) (f : Field) (self : entity)
  (e : exn) : Prop :=
  skipped version f = false /\
  (clean_input f self = Error e \/
   exists val, clean_input f self = OK val /\ field_clean f val version = Error e).

End Validation.

(** The class whose [FIELDS] a field name is looked up in. *)
Inductive field_owner (cls : pyclass) (n : string) : pyclass -> Prop :=
| own_field :
    cls_base cls <> IdChangeKeyMixInBase \/ n ∉ ["id"; "changekey"] ->
    field_owner cls n cls
| identity_field (id_cls : pyclass) :
    cls_base cls = IdChangeKeyMixInBase -> n ∈ ["id"; "changekey"] ->
    ID_ELEMENT_CLS cls = Some id_cls ->
    cls_base id_cls <> IdChangeKeyMixInBase ->
    field_owner cls n id_cls.

(** ** class UID(bytes) *)

(** A [str] is modelled by its code points, a [bytes] object by its bytes. *)
Module UID.

Definition byte_of (n : N) : Byte.byte := default Byte.x00 (Byte.of_N n).

(** [s.encode('ascii')], from position [pos] on: the error carries the
    position of the first code point that is not ASCII. *)
Fixpoint encode_ascii (s : list N) (pos : nat) : outcome (list Byte.byte) :=
  match s with
  | [] => Returns []
  | c :: s' =>
      if (c <? 128)%N then
        match encode_ascii s' (S pos) with
        | Returns bs => Returns (byte_of c :: bs)
        | Raises e => Raises e
        end
      else Raises (UnicodeEncodeError pos)
  end.

(** [binascii.hexlify]: two lower-case hexadecimal digits for each byte. *)
Definition hex_digit (n : N) : Byte.byte :=
  byte_of (if (n <? 10)%N then 48 + n else 87 + n).

Fixpoint hexlify (bs : list Byte.byte) : list Byte.byte :=
  match bs with
  | [] => []
  | b :: bs' =>
      hex_digit (Byte.to_N b / 16) :: hex_digit (Byte.to_N b mod 16) :: hexlify bs'
  end.

(** [codecs.decode(b, 'hex')]: digits of either case, two for each byte. *)
Definition hex_value (b : Byte.byte) : option N :=
  let c := Byte.to_N b in
  if ((48 <=? c) && (c <=? 57))%N then Some (c - 48)%N
  else if ((97 <=? c) && (c <=? 102))%N then Some (c - 87)%N
  else if ((65 <=? c) && (c <=? 70))%N then Some (c - 55)%N
  else None.

Fixpoint unhexlify (bs : list Byte.byte) : option (list Byte.byte) :=
  match bs with
  | [] => Some []
  | [_] => None
  | hi :: lo :: rest =>
      match hex_value hi, hex_value lo, unhexlify rest with
      | Some h, Some l, Some r => Some (byte_of (16 * h + l) :: r)
      | _, _, _ => None
      end
  end.

(** [struct.pack('<I', n)]: four bytes, the least significant first. *)
Definition uint32_le (n : N) : list Byte.byte :=
  [byte_of (n mod 256); byte_of (n / 256 mod 256);
   byte_of (n / 65536 mod 256); byte_of (n / 16777216 mod 256)].

Definition pack_uint32_le (n : N) : outcome (list Byte.byte) :=
  if (n <? 2 ^ 32)%N then Returns (uint32_le n) else Raises StructError.

Definition header_bytes : list Byte.byte :=
  [Byte.x04; Byte.x00; Byte.x00; Byte.x00; Byte.x82; Byte.x00; Byte.xe0; Byte.x00;
   Byte.x74; Byte.xc5; Byte.xb7; Byte.x10; Byte.x1a; Byte.x82; Byte.xe0; Byte.x08].

Definition _HEADER : list Byte.byte := hexlify header_bytes.
Definition _EXCEPTION_REPLACEMENT_TIME : list Byte.byte :=
  hexlify (replicate 4 Byte.x00).
Definition _CREATION_TIME : list Byte.byte := hexlify (replicate 8 Byte.x00).
Definition _RESERVED : list Byte.byte := hexlify (replicate 8 Byte.x00).

(** The text before the uid: [vCal-Uid] and the four code points 1, 0, 0, 0. *)
Definition vcal_prefix : list N :=
  [118; 67; 97; 108; 45; 85; 105; 100; 1; 0; 0; 0]%N.

(** [UID.__new__(cls, uid)], for a [uid] that is a [str].  The quotient
    [len(payload)/2] is a float; it is exact for every length a [bytes]
    object can have. *)
Definition __new__ (uid : list N) : outcome (list Byte.byte) :=
  match encode_ascii (vcal_prefix ++ uid ++ [0%N]) 0 with
  | Raises e => Raises e
  | Returns raw =>
      let payload := hexlify raw in
      match pack_uint32_le (N.of_nat (length payload) / 2) with
      | Raises e => Raises e
      | Returns packed =>
          let length := hexlify packed in
          let encoding :=
            _HEADER ++ _EXCEPTION_REPLACEMENT_TIME ++ _CREATION_TIME ++
            _RESERVED ++ length ++ payload in
          match unhexlify encoding with
          | Some b => Returns b
          | None => Raises BinasciiError
          end
      end
  end.

End UID.

(** ** For the statements about the server time zone tables *)

(** The durations on which the float of [d.total_seconds()] has the whole
    seconds of the exact quotient: those under 2^33 seconds. *)
Definition exact_seconds (d : TimeZone.timedelta) : Prop :=
  Z.abs d < 2 ^ 33 * 1000000.

(** The test that ends the loop of [_get_valid_transition_id]:
    [from_date and from_date.year > for_year]. *)
Definition future (for_year : Z) (from_date : option TimeZone.date) : bool :=
  match from_date with
  | Some d => for_year <? TimeZone.year d
  | None => false
  end.

(** Group [i] is in the table and no group up to it starts after
    [for_year]. *)
Definition settled (transitions : TimeZone.transitions_t) (for_year i : Z) : Prop :=
  is_Some (transitions !! i) /\
  forall j d, j <= i -> transitions !! j = Some d -> future for_year d = false.

(** The exception one transition makes [_get_std_and_dst] raise, if any. *)
Definition transition_error (periods : TimeZone.periods_t)
  (tr : TimeZone.transition) : option exn :=
  match periods !! TimeZone.to tr with
  | None => Some KeyError
  | Some p =>
      match TimeZone.recurring tr with
      | None => None
      | Some r =>
          if negb ((0 <=? TimeZone.offset r) && (TimeZone.offset r <? 86400000000))
          then Some (ValueError InvalidTransitionOffset)
          else if String.eqb (TimeZone.p_name p) "Standard" then None
          else if String.eqb (TimeZone.p_name p) "Daylight" then None
          else Some (ValueError UnknownTransition)
      end
  end.

(** A [datetime.time] value: the four components in range. *)
Definition valid_time (v : pyval) : Prop :=
  match v with
  | PyTime h m sec us =>
      0 <= h < 24 /\ 0 <= m < 60 /\ 0 <= sec < 60 /\ 0 <= us < 1000000
  | _ => False
  end.

(** What [_get_std_and_dst] returns for the standard and for the daylight
    descriptor: [None], or an instance of the class with a valid time of
    day; the standard bias is [0], the daylight bias is [0] (the dummy) or
    the bias of a daylight period of the group relative to the base bias. *)
Definition standard_descriptor (v : pyval) : Prop :=
  v = PyNone \/
  exists e, v = obj e /\ e_cls e = StandardTime /\
            getattr e "bias" = OK (PyInt 0) /\
            exists t, getattr e "time" = OK t /\ valid_time t.

Definition daylight_descriptor (periods : TimeZone.periods_t)
  (group : list TimeZone.transition) (bias : Z) (v : pyval) : Prop :=
  v = PyNone \/
  exists e b, v = obj e /\ e_cls e = DaylightTime /\
              getattr e "bias" = OK (PyInt b) /\
              (exists t, getattr e "time" = OK t /\ valid_time t) /\
              (b = 0 \/
               exists tr p, tr ∈ group /\ periods !! TimeZone.to tr = Some p /\
                            TimeZone.p_name p = "Daylight" /\
                            b = TimeZone.minutes (TimeZone.p_bias p) - bias).

(** ** Samples for the further properties *)

Definition sample_field_eq (a b : Field) : bool := String.eqb (name a) (name b).

Definition sample_colour : Field := mkField "colour" false CharField.


(** [EWSElement] with no fields, [ItemId] with a schema of its own and a
    subclass of it that inherits that schema. *)
Definition sample_classes : Schema.classes :=
  Schema.mkClasses
    (fun c => if String.eqb c "EWSElement" then ["EWSElement"]
              else if String.eqb c "ItemId" then ["ItemId"; "EWSElement"]
              else if String.eqb c "ParentItemId" then ["ParentItemId"; "ItemId"; "EWSElement"]
              else [c])
    {[ "EWSElement" := 0%nat; "ItemId" := 1%nat ]}
    {[ 0%nat := declare []; 1%nat := ItemId_FIELDS ]}.

(** A validator that refuses everything but an integer in an integer
    field and doubles the integers it accepts; a version gate that leaves
    out the time fields. *)
Definition sample_int_clean (f : Field) (v : pyval) (_ : option unit)
  : result pyval :=
  match field_cls f, v with
  | IntegerField, PyInt z => OK (PyInt (2 * z))
  | IntegerField, _ => Error TypeError
  | _, _ => OK v
  end.

Definition sample_supports (f : Field) (_ : unit) : bool :=
  match field_cls f with TimeField => false | _ => true end.

Definition sample_unclean_time : entity :=
  mkEntity StandardTime
    [("bias", PyInt 30); ("time", PyStr "noon"); ("occurrence", PyStr "last");
     ("iso_month", PyInt 10); ("weekday", PyInt 7)].

(** A period table with two standard periods in the past and one to come,
    and a transition table whose second group starts after 2020. *)
Definition sample_period_history : TimeZone.periods_t :=
  <[ (2010, "Standard") := TimeZone.mkPeriod "Standard" 3600000000 ]>
  (<[ (2018, "Daylight") := TimeZone.mkPeriod "Daylight" 10800000000 ]>
   (<[ (2018, "Standard") := TimeZone.mkPeriod "Standard" 7200000000 ]>
    (<[ (2030, "Standard") := TimeZone.mkPeriod "Standard" 0 ]> ∅))).

Definition sample_transition_history : TimeZone.transitions_t :=
  <[ 0 := None ]>
  (<[ 1 := Some (TimeZone.mkDate 2025 1 1) ]>
   (<[ 2 := Some (TimeZone.mkDate 2019 1 1) ]> ∅)).

(** * Properties *)

(** ** The schema container *)

Lemma NoDup_by_computation (l : list string) :
  bool_decide (NoDup l) = true -> NoDup l.
Proof. apply bool_decide_eq_true_1. Qed.


Section FieldsFacts.

Import FieldsM.

Lemma indexed_lookup fields : forall d n,
  NoDup (name <$> fields) ->
  indexed fields d !! n =
    match list_find (fun f => name f = n) fields with
    | Some (_, f) => Some f
    | None => d !! n
    end.
Proof.
  induction fields as [|g fields IH]; intros d n Hnd; simpl; [done|].
  apply NoDup_cons in Hnd as [Hg Hnd].
  rewrite IH by done.
  destruct (decide (name g = n)) as [<-|Hne].
  - destruct (list_find _ fields) as [[i f]|] eqn:Hf; simpl.
    + apply list_find_Some in Hf as (Hl & Hn & _).
      exfalso. apply Hg. rewrite <- Hn.
      apply list_elem_of_fmap. exists f. split; [done|].
      by eapply list_elem_of_lookup_2.
    + by rewrite lookup_insert_eq.
  - destruct (list_find _ fields) as [[i f]|]; simpl; [done|].
    by rewrite lookup_insert_ne.
Qed.

Lemma index_fields_ok fields : forall d,
  NoDup (name <$> fields) ->
  (forall f, f ∈ fields -> d !! name f = None) ->
  index_fields fields d = OK (indexed fields d).
Proof.
  induction fields as [|g fields IH]; intros d Hnd Hfresh; simpl; [done|].
  apply NoDup_cons in Hnd as [Hg Hnd].
  rewrite (Hfresh g) by left.
  apply IH; [done|].
  intros f Hf. rewrite lookup_insert_ne; [apply Hfresh; by right|].
  intros Heq. apply Hg. rewrite Heq. apply list_elem_of_fmap. by exists f.
Qed.

Lemma index_fields_dup fields : forall d,
  ~ (NoDup (name <$> fields) /\ forall f, f ∈ fields -> d !! name f = None) ->
  exists f, f ∈ fields /\
            index_fields fields d = Error (ValueError (DuplicateField f)).
Proof.
  induction fields as [|g fields IH]; intros d Hbad; simpl.
  - exfalso. apply Hbad. split; [constructor|]. intros f Hf. inversion Hf.
  - destruct (d !! name g) as [old|] eqn:Hg.
    { exists g. split; [left|done]. }
    destruct (IH (<[name g := g]> d)) as (f & Hf & Hr).
    + intros [Hnd Hfresh]. apply Hbad. split.
      * simpl. apply NoDup_cons. split; [|done].
        intros Hin. apply list_elem_of_fmap in Hin as (f & Hn & Hf).
        specialize (Hfresh f Hf). rewrite <- Hn, lookup_insert_eq in Hfresh.
        discriminate.
      * intros f Hf. apply elem_of_cons in Hf as [->|Hf]; [done|].
        specialize (Hfresh f Hf).
        destruct (decide (name g = name f)) as [Heq|Hne].
        -- rewrite Heq, lookup_insert_eq in Hfresh. discriminate.
        -- by rewrite lookup_insert_ne in Hfresh.
    + exists f. split; [by right|done].
Qed.

Lemma list_find_name fields n :
  NoDup (name <$> fields) ->
  forall f, (exists i, list_find (fun f => name f = n) fields = Some (i, f)) <->
            (f ∈ fields /\ name f = n).
Proof.
  intros Hnd f. split.
  - intros [i Hf]. apply list_find_Some in Hf as (Hl & Hn & _).
    split; [by eapply list_elem_of_lookup_2|done].
  - intros [Hf Hn].
    destruct (list_find (fun f => name f = n) fields) as [[i g]|] eqn:Hg.
    + exists i. f_equal. f_equal.
      apply list_find_Some in Hg as (Hl & Hgn & _).
      apply list_elem_of_lookup_1 in Hf as [j Hj].
      assert (i = j) as ->.
      { eapply NoDup_lookup; [exact Hnd| |].
        - rewrite list_lookup_fmap, Hl. simpl. by rewrite Hgn.
        - rewrite list_lookup_fmap, Hj. simpl. by rewrite Hn. }
      congruence.
    + apply list_find_None in Hg. rewrite Forall_forall in Hg.
      exfalso. by apply (Hg f).
Qed.

(** A duplicate-free field list is accepted, and the container built from
    it satisfies the invariant. *)
Lemma init_ok fields :
  NoDup (name <$> fields) ->
  __init__ fields = OK (mkFields fields (indexed fields ∅)) /\
  wf (mkFields fields (indexed fields ∅)).
Proof.
  intros Hnd. split.
  - unfold __init__. rewrite index_fields_ok; [done|done|].
    intros f _. apply lookup_empty.
  - split; [done|]. intros n f. simpl.
    rewrite indexed_lookup by done. rewrite <- list_find_name by done.
    destruct (list_find _ fields) as [[i g]|]; split.
    + intros [= ->]. by exists i.
    + intros [j [= _ ->]]. done.
    + rewrite lookup_empty. discriminate.
    + intros [j Hj]. discriminate.
Qed.

Lemma init_inv fields F :
  __init__ fields = OK F -> NoDup (name <$> fields) /\ items F = fields.
Proof.
  unfold __init__. intros H.
  destruct (decide (NoDup (name <$> fields))) as [Hnd|Hnd].
  - split; [done|]. destruct (index_fields fields ∅); simpl in H; [|done].
    by inversion H.
  - destruct (index_fields_dup fields ∅) as (f & _ & Hr); [tauto|].
    rewrite Hr in H. discriminate.
Qed.

(** The index of a well-formed container is the one its own field list
    yields: such a container is determined by its list. *)
Lemma wf_index self : wf self -> _dict self = indexed (items self) ∅.
Proof.
  intros [Hnd Hd]. apply map_eq. intros n.
  destruct (init_ok (items self) Hnd) as [_ [_ Hd']]. simpl in Hd'.
  destruct (_dict self !! n) as [f|] eqn:H1;
    destruct (indexed (items self) ∅ !! n) as [g|] eqn:H2; try done.
  - apply Hd in H1. apply Hd' in H1. congruence.
  - apply Hd in H1. apply Hd' in H1. congruence.
  - apply Hd' in H2. apply Hd in H2. congruence.
Qed.

Lemma wf_eq self : wf self -> self = mkFields (items self) (indexed (items self) ∅).
Proof. intros H. destruct self as [l d]. simpl. f_equal. by apply (wf_index (mkFields l d)). Qed.

Lemma wf_name_in self f :
  wf self -> (is_Some (_dict self !! name f) <-> name f ∈ names self).
Proof.
  intros [Hnd Hd]. split.
  - intros [g Hg]. apply Hd in Hg as [Hg Hn]. rewrite <- Hn.
    apply list_elem_of_fmap. by exists g.
  - intros Hin. apply list_elem_of_fmap in Hin as (g & Hn & Hg).
    exists g. apply Hd. done.
Qed.

End FieldsFacts.

Section SliceFacts.

Context {A : Type}.

Lemma omap_lookup_shift (x : A) (l : list A) (k : nat) (idx : list nat) :
  Forall (fun i => (S k <= i)%nat) idx ->
  omap (fun i => (x :: l) !! (i - k)%nat) idx =
  omap (fun i => l !! (i - S k)%nat) idx.
Proof.
  intros H. apply list_omap_ext, Forall_Forall2_diag.
  eapply Forall_impl; [exact H|]. simpl. intros i Hi.
  replace (i - k)%nat with (S (i - S k)) by lia. done.
Qed.

(** Picking the elements at strictly increasing positions keeps their
    order. *)
Lemma omap_lookup_sublist (l : list A) : forall (k : nat) (idx : list nat),
  StronglySorted lt idx ->
  Forall (fun i => (k <= i)%nat) idx ->
  omap (fun i => l !! (i - k)%nat) idx `sublist_of` l.
Proof.
  induction l as [|x l IH]; intros k idx Hs Hk.
  - replace (omap _ idx) with (@nil A); [constructor|].
    clear. induction idx as [|i idx IHi]; csimpl; [done|]. by rewrite <- IHi.
  - destruct idx as [|i idx]; [apply sublist_nil_l|].
    apply StronglySorted_inv in Hs as [Hs Hlt].
    apply Forall_cons in Hk as [Hi Hk].
    destruct (decide (i = k)) as [->|Hne].
    + csimpl. rewrite Nat.sub_diag. simpl.
      assert (Forall (fun j => (S k <= j)%nat) idx) as Hk'.
      { eapply Forall_impl; [exact Hlt|]. simpl. lia. }
      rewrite omap_lookup_shift by done.
      apply sublist_skip. by apply IH.
    + assert (Forall (fun j => (S k <= j)%nat) (i :: idx)) as Hk'.
      { constructor; [lia|]. eapply Forall_impl; [exact Hlt|]. simpl. lia. }
      rewrite omap_lookup_shift by done.
      apply sublist_cons. apply IH; [|done].
      by apply SSorted_cons.
Qed.

Lemma progression_sorted (lo st : Z) : forall (n s : nat),
  0 <= lo -> 0 < st ->
  StronglySorted lt
    (Z.to_nat <$> map (fun k => lo + Z.of_nat k * st) (seq s n)).
Proof.
  induction n as [|n IH]; intros s Hlo Hst; simpl; [constructor|].
  apply SSorted_cons; [by apply IH|].
  apply Forall_fmap, Forall_map, Forall_forall.
  intros k Hk. apply elem_of_seq in Hk. simpl. nia.
Qed.

Lemma adjust_nonneg (n st b : Z) : 0 <= n -> 0 < st -> 0 <= PyList.adjust n st b.
Proof.
  intros Hn Hst. unfold PyList.adjust.
  repeat case_match; lia.
Qed.

(** A slice with a positive step selects a subsequence, in order. *)
Lemma getslice_sublist (l : list A) (s : PyList.slice) :
  0 < default 1 (PyList.step s) ->
  exists res, PyList.getslice l s = OK res /\ res `sublist_of` l.
Proof.
  intros Hst. unfold PyList.getslice, PyList.indices.
  set (st := default 1 (PyList.step s)) in *.
  set (n := Z.of_nat (length l)).
  assert (0 <= n) as Hn by (unfold n; lia).
  destruct (st =? 0) eqn:E0; [lia|].
  destruct (st <? 0) eqn:Eneg; [lia|].
  simpl. eexists. split; [reflexivity|].
  set (lo := match PyList.start s with Some b => PyList.adjust n st b | None => 0 end).
  assert (0 <= lo) as Hlo.
  { unfold lo. destruct (PyList.start s); [by apply adjust_nonneg|lia]. }
  match goal with |- omap _ (map _ (seq 0 ?len)) `sublist_of` _ => set (cnt := len) end.
  pose proof (omap_lookup_sublist l 0
    (Z.to_nat <$> map (fun k => lo + Z.of_nat k * st) (seq 0 cnt))
    (progression_sorted lo st cnt 0%nat Hlo Hst)) as Hsub.
  assert (forall (idx : list Z),
    omap (fun i => l !! (i - 0)%nat) (Z.to_nat <$> idx) =
    omap (fun i => l !! Z.to_nat i) idx) as Hom.
  { clear. intros idx. apply list_omap_ext, Forall2_fmap_l, Forall_Forall2_diag.
    apply Forall_forall. intros i _. simpl. f_equal. lia. }
  rewrite Hom in Hsub. apply Hsub.
  apply Forall_forall. intros; lia.
Qed.

Lemma adjust_range (n st b : Z) :
  0 <= n -> st < 0 -> -1 <= PyList.adjust n st b <= n - 1.
Proof.
  intros Hn Hst. unfold PyList.adjust.
  repeat case_match; lia.
Qed.

Lemma regression_sorted (m lo st : Z) : forall (n s : nat),
  lo <= m -> st < 0 ->
  StronglySorted lt
    ((fun i => Z.to_nat (m - i)) <$> map (fun k => lo + Z.of_nat k * st) (seq s n)).
Proof.
  induction n as [|n IH]; intros s Hlo Hst; simpl; [constructor|].
  apply SSorted_cons; [by apply IH|].
  apply Forall_fmap, Forall_map, Forall_forall.
  intros k Hk. apply elem_of_seq in Hk. simpl. nia.
Qed.

Lemma omap_lookup_reverse (l : list A) : forall (idx : list Z),
  Forall (fun i => 0 <= i < Z.of_nat (length l)) idx ->
  omap (fun i => l !! Z.to_nat i) idx
  = omap (fun j => reverse l !! (j - 0)%nat)
         ((fun i => Z.to_nat (Z.of_nat (length l) - 1 - i)) <$> idx).
Proof.
  induction idx as [|i idx IH]; intros Hall; [done|].
  apply Forall_cons in Hall as [Hi Hall]. rewrite fmap_cons. csimpl.
  rewrite IH by done. rewrite Nat.sub_0_r.
  rewrite reverse_lookup by lia.
  replace (length l - S (Z.to_nat (Z.of_nat (length l) - 1 - i)))%nat
    with (Z.to_nat i) by lia.
  done.
Qed.

(** A slice with a negative step selects a subsequence of the reversed
    list. *)
Lemma getslice_reverse_sublist (l : list A) (s : PyList.slice) :
  default 1 (PyList.step s) < 0 ->
  exists res, PyList.getslice l s = OK res /\ res `sublist_of` reverse l.
Proof.
  intros Hst. unfold PyList.getslice, PyList.indices.
  set (st := default 1 (PyList.step s)) in *.
  set (n := Z.of_nat (length l)).
  assert (0 <= n) as Hn by (unfold n; lia).
  destruct (st =? 0) eqn:E0; [lia|].
  destruct (st <? 0) eqn:Eneg; [|lia].
  simpl. eexists. split; [reflexivity|].
  set (lo := match PyList.start s with Some b => PyList.adjust n st b | None => n - 1 end).
  set (hi := match PyList.stop s with Some b => PyList.adjust n st b | None => -1 end).
  assert (-1 <= lo <= n - 1) as Hlo.
  { unfold lo. destruct (PyList.start s); [by apply adjust_range|lia]. }
  assert (-1 <= hi) as Hhi.
  { unfold hi. destruct (PyList.stop s); [by apply adjust_range|lia]. }
  set (cnt := Z.to_nat (if hi <? lo then (lo - hi - 1) / - st + 1 else 0)).
  set (idx := map (fun k => lo + Z.of_nat k * st) (seq 0 cnt)).
  assert (Forall (fun i => 0 <= i < n) idx) as Hidx.
  { unfold idx. apply Forall_map, Forall_forall. intros k Hk.
    apply elem_of_seq in Hk as [_ Hk]. simpl in Hk. unfold cnt in Hk.
    destruct (hi <? lo) eqn:Ehl; [|lia]. apply Z.ltb_lt in Ehl.
    pose proof (Z.mul_div_le (lo - hi - 1) (- st) ltac:(lia)) as Hq.
    assert (0 <= (lo - hi - 1) / - st) by (apply Z.div_pos; lia).
    simpl. nia. }
  rewrite (omap_lookup_reverse l idx Hidx).
  apply omap_lookup_sublist; [|apply Forall_forall; intros; lia].
  unfold idx. apply regression_sorted; lia.
Qed.

Lemma omap_lookup_all (l : list A) : forall (k : nat),
  omap (fun i => l !! (i - k)%nat) (seq k (length l)) = l.
Proof.
  induction l as [|x l IH]; intros k; [done|].
  cbn [length seq]. csimpl. rewrite Nat.sub_diag. simpl. f_equal.
  rewrite omap_lookup_shift; [apply IH|].
  apply Forall_forall. intros i Hi. apply elem_of_seq in Hi. lia.
Qed.

Lemma countdown_indices (n : Z) : forall (m s : nat),
  Z.of_nat (s + m) <= n ->
  (fun i => Z.to_nat (n - 1 - i)) <$> map (fun k => n - 1 + Z.of_nat k * -1) (seq s m)
  = seq s m.
Proof.
  induction m as [|m IH]; intros s Hs; [done|].
  cbn [seq map]. rewrite fmap_cons. f_equal; [lia|]. apply IH. lia.
Qed.

(** [l[::-1]] is the reversed list. *)
Lemma getslice_whole_reversed (l : list A) :
  PyList.getslice l (PyList.mkSlice None None (Some (-1))) = OK (reverse l).
Proof.
  cbv beta iota zeta delta [PyList.getslice PyList.indices PyList.step
                            PyList.start PyList.stop default from_option id].
  change (-1 =? 0) with false. change (-1 <? 0) with true. cbv iota.
  set (n := Z.of_nat (length l)).
  assert (Z.to_nat (if -1 <? n - 1 then (n - 1 - -1 - 1) / - -1 + 1 else 0)
          = length l) as ->.
  { destruct (Z.ltb_spec (-1) (n - 1)).
    - replace (n - 1 - -1 - 1) with (n - 1) by lia.
      change (- -1) with 1. rewrite Z.div_1_r. unfold n. lia.
    - unfold n in *. lia. }
  cbn [bind]. f_equal.
  rewrite omap_lookup_reverse.
  - fold n. rewrite (countdown_indices n (length l) 0) by (unfold n; lia).
    rewrite <- (length_reverse l). apply (omap_lookup_all (reverse l) 0).
  - apply Forall_map, Forall_forall. intros k Hk.
    apply elem_of_seq in Hk. fold n. simpl. unfold n. lia.
Qed.

(** A slice with step zero raises. *)
Lemma getslice_step_zero (l : list A) (s : PyList.slice) :
  PyList.step s = Some 0 -> PyList.getslice l s = Error (ValueError SliceStepZero).
Proof. intros H. unfold PyList.getslice, PyList.indices. by rewrite H. Qed.

End SliceFacts.

Section FieldsClaims.

Import FieldsM.

Lemma insert_perm {A} (l : list A) (i : Z) (x : A) :
  PyList.insert l i x ≡ₚ x :: l.
Proof.
  unfold PyList.insert. cbv zeta.
  rewrite <- Permutation_middle. by rewrite take_drop.
Qed.

Lemma insert_wf self index field :
  wf self -> name field ∉ names self ->
  wf (mkFields (PyList.insert (items self) index field)
               (<[name field := field]> (_dict self))).
Proof.
  intros [Hnd Hd] Hfresh.
  pose proof (insert_perm (items self) index field) as Hperm.
  split; simpl.
  - unfold names. simpl. rewrite Hperm. rewrite fmap_cons.
    apply NoDup_cons. done.
  - intros n f. rewrite Hperm, elem_of_cons.
    destruct (decide (name field = n)) as [<-|Hne].
    + rewrite lookup_insert_eq. split.
      * intros [= ->]. by split; [left|].
      * intros [[->|Hf] Hn]; [done|].
        exfalso. apply Hfresh. rewrite <- Hn.
        apply list_elem_of_fmap. by exists f.
    + rewrite lookup_insert_ne by done. rewrite Hd. split.
      * intros [Hf Hn]. split; [by right|done].
      * intros [[->|Hf] Hn]; [done|]. done.
Qed.

(** C8. Building a [Fields] container from a field sequence in which two
    fields share a name fails with the duplicate-field [ValueError], and a
    container that is built has unique names; inserting a field whose name
    is already there fails with the same error and leaves the container as
    it was, and an accepted insertion keeps the names unique (and the index
    in step with the list). *)
Theorem Fields_names_unique (fields : list Field) (self : Fields)
  (index : Z) (field : Field) :
  (~ NoDup (name <$> fields) ->
     exists f, f ∈ fields /\
               __init__ fields = Error (ValueError (DuplicateField f))) /\
  (NoDup (name <$> fields) ->
     exists F, __init__ fields = OK F /\ items F = fields /\ wf F) /\
  (wf self ->
     (name field ∈ names self ->
        insert self index field
        = (Error (ValueError (DuplicateField field)), self)) /\
     (name field ∉ names self ->
        exists self', insert self index field = (OK tt, self') /\
                      field ∈ items self' /\
                      (forall f, f ∈ items self -> f ∈ items self') /\
                      wf self')).
Proof.
  split; [|split].
  - intros Hdup.
    destruct (index_fields_dup fields ∅) as (f & Hf & Hr); [tauto|].
    exists f. split; [done|]. unfold __init__. by rewrite Hr.
  - intros Hnd. destruct (init_ok fields Hnd) as [Hi Hw].
    eexists. split; [exact Hi|]. split; [done|exact Hw].
  - intros Hwf. split.
    + intros Hin. apply (wf_name_in self field Hwf) in Hin as [g Hg].
      unfold insert. by rewrite Hg.
    + intros Hfresh. unfold insert.
      destruct (_dict self !! name field) as [g|] eqn:Hg.
      { exfalso. apply Hfresh. apply (wf_name_in self field Hwf). by exists g. }
      eexists. split; [reflexivity|]. simpl.
      assert (forall f, f ∈ PyList.insert (items self) index field
                        <-> f = field \/ f ∈ items self) as Hmem.
      { intros f. by rewrite insert_perm, elem_of_cons. }
      split; [apply Hmem; by left|].
      split; [intros f Hf; apply Hmem; by right|].
      by apply insert_wf.
Qed.

(** C9, as amended. For a well-formed container: [copy()] returns the same
    container; concatenation returns a [Fields] holding the fields of the
    left operand followed by those of the right one when no name occurs
    twice among them, and fails with the duplicate-field error otherwise; a
    slice with a positive step returns a [Fields] whose fields are a
    subsequence of the source in declaration order, a slice with a negative
    step a [Fields] whose fields are a subsequence of the source in reverse
    declaration order (the whole source reversed for [[::-1]]), and a slice
    with step zero raises. *)
Theorem Fields_copy_concat_slice (self : Fields) (other : list Field)
  (s : PyList.slice) :
  wf self ->
  copy self = OK self /\
  (NoDup (names self ++ (name <$> other)) ->
     exists F, __add__ self other = OK F /\
               items F = items self ++ other /\ wf F) /\
  (~ NoDup (names self ++ (name <$> other)) ->
     exists f, f ∈ items self ++ other /\
               __add__ self other = Error (ValueError (DuplicateField f))) /\
  (0 < default 1 (PyList.step s) ->
     exists F, getitem_slice self s = OK F /\
               items F `sublist_of` items self /\ wf F) /\
  (default 1 (PyList.step s) < 0 ->
     exists F, getitem_slice self s = OK F /\
               items F `sublist_of` reverse (items self) /\ wf F) /\
  (exists F, getitem_slice self (PyList.mkSlice None None (Some (-1))) = OK F /\
             items F = reverse (items self) /\ wf F) /\
  (PyList.step s = Some 0 ->
     getitem_slice self s = Error (ValueError SliceStepZero)).
Proof.
  intros Hwf.
  assert (forall res, res `sublist_of` reverse (items self) ->
            exists F, __init__ res = OK F /\ items F = res /\ wf F) as Hrev.
  { intros res Hsub.
    assert (NoDup (name <$> res)) as Hnd.
    { apply (sublist_NoDup _ (name <$> reverse (items self))).
      - rewrite fmap_reverse, reverse_Permutation. exact (proj1 Hwf).
      - by apply fmap_sublist. }
    destruct (init_ok _ Hnd) as [-> Hw]. eexists. split; [done|]. by split. }
  split; [|split; [|split; [|split; [|split; [|split]]]]].
  - unfold copy. destruct (init_ok (items self) (proj1 Hwf)) as [-> _].
    by rewrite <- wf_eq.
  - intros Hnd. unfold __add__.
    assert (NoDup (name <$> items self ++ other)) as Hnd'
      by (by rewrite fmap_app).
    destruct (init_ok _ Hnd') as [-> Hw]. eexists. split; [done|]. by split.
  - intros Hdup. unfold __add__, __init__.
    destruct (index_fields_dup (items self ++ other) ∅) as (f & Hf & Hr).
    { rewrite fmap_app. tauto. }
    exists f. split; [done|]. by rewrite Hr.
  - intros Hst. unfold getitem_slice.
    destruct (getslice_sublist (items self) s Hst) as (res & -> & Hsub).
    simpl.
    assert (NoDup (name <$> res)) as Hnd.
    { apply (sublist_NoDup _ (names self)); [exact (proj1 Hwf)|].
      unfold names. by apply fmap_sublist. }
    destruct (init_ok _ Hnd) as [-> Hw]. eexists. split; [done|]. by split.
  - intros Hst. unfold getitem_slice.
    destruct (getslice_reverse_sublist (items self) s Hst) as (res & -> & Hsub).
    simpl. destruct (Hrev res Hsub) as (F & -> & Hitems & Hw).
    exists F. split; [done|]. split; [by rewrite Hitems|done].
  - unfold getitem_slice. rewrite getslice_whole_reversed. simpl.
    destruct (Hrev (reverse (items self))) as (F & -> & Hitems & Hw); [done|].
    by exists F.
  - intros Hz. unfold getitem_slice. by rewrite getslice_step_zero.
Qed.

End FieldsClaims.

(** ** Equality and hashing *)

Lemma bind_ok {A B} (r : result A) (k : A -> result B) (b : B) :
  bind r k = OK b <-> exists a, r = OK a /\ k a = OK b.
Proof.
  destruct r as [a|e]; simpl; split.
  - intros H. by exists a.
  - by intros (a' & [= ->] & H).
  - discriminate.
  - by intros (a' & [=] & _).
Qed.

Lemma mapM_ext {A B} (f g : A -> result B) (l : list A) :
  (forall x, x ∈ l -> f x = g x) -> mapM f l = mapM g l.
Proof.
  induction l as [|x l IH]; intros H; simpl; [done|].
  rewrite (H x) by left. destruct (g x); simpl; [|done].
  rewrite IH; [done|]. intros y Hy. apply H. by right.
Qed.

Lemma mapM_Forall2 {A B} (f : A -> result B) (l : list A) (k : list B) :
  mapM f l = OK k <-> Forall2 (fun x y => f x = OK y) l k.
Proof.
  revert k. induction l as [|x l IH]; intros k; simpl.
  - split; [intros [= <-]; constructor|]. by inversion 1.
  - split.
    + destruct (f x) as [y|] eqn:Hy; simpl; [|done].
      destruct (mapM f l) as [ys|] eqn:Hys; simpl; [|done].
      intros [= <-]. constructor; [done|]. by apply IH.
    + inversion 1 as [|? y ? ys Hy Hys]; subst. rewrite Hy. simpl.
      apply IH in Hys. by rewrite Hys.
Qed.

Lemma attr_with_lookup {A} (h : pyval -> A) (key : string)
  (l : list (string * pyval)) :
  attr_with h key l = h <$> attr_lookup key l.
Proof.
  induction l as [|[k v] l IH]; simpl; [done|].
  destruct (String.eqb k key); [done|exact IH].
Qed.

Lemma found_getattr {A} (h : pyval -> result A) key attrs v :
  getattr_in attrs key = OK v -> found (attr_with h key attrs) = h v.
Proof.
  unfold getattr_in. rewrite attr_with_lookup.
  destruct (attr_lookup key attrs); [|done]. by intros [= ->].
Qed.

Section HashFacts.

Variable hash_atom : pyval -> Z.
Variable hash_tuple : list Z -> Z.

Local Abbreviation hash := (py_hash hash_atom hash_tuple).

(** The item of the hash key for one field. *)
Local Abbreviation key_item attrs :=
  (fun f : Field =>
     v <- getattr_in attrs (name f) ;;
     if is_list f
     then t <- py_iter (py_or v (PyTuple [])) ;; OK (PyTuple t)
     else OK v).

Lemma hash_chars s :
  mapM (fun a => OK (hash_atom a)) (chars s) = mapM hash (chars s).
Proof.
  apply mapM_ext. intros x Hx. unfold chars in Hx.
  apply list_elem_of_fmap in Hx as (a & -> & _). done.
Qed.

Lemma hash_folded_spec v t :
  py_iter (py_or v (PyTuple [])) = OK t ->
  hash_folded hash_atom hash_tuple hash v = hash (PyTuple t).
Proof.
  unfold py_or, hash_folded. destruct (truthy v) eqn:Ht.
  - destruct v; simpl; try discriminate; intros [= <-]; try done.
    by rewrite hash_chars.
  - simpl. by intros [= <-].
Qed.

Lemma hash_items attrs : forall (fs : list Field) (k : list pyval),
  mapM (key_item attrs) fs = OK k ->
  mapM (fun f => found (attr_with (if is_list f
                                   then hash_folded hash_atom hash_tuple hash
                                   else hash) (name f) attrs)) fs
  = mapM hash k.
Proof.
  induction fs as [|f fs IH]; intros k; simpl.
  - by intros [= <-].
  - destruct (getattr_in attrs (name f)) as [v|] eqn:Hv; simpl; [|done].
    rewrite (found_getattr _ _ _ _ Hv).
    destruct (is_list f).
    + destruct (py_iter (py_or v (PyTuple []))) as [t|] eqn:Hi; simpl; [|done].
      destruct (mapM _ fs) as [k'|] eqn:Hk; simpl; [|done].
      intros [= <-]. rewrite (hash_folded_spec _ _ Hi), (IH k' eq_refl). done.
    + simpl. destruct (mapM _ fs) as [k'|] eqn:Hk; simpl; [|done].
      intros [= <-]. by rewrite (IH k' eq_refl).
Qed.

(** [EWSElement.__hash__] is [hash] of the tuple it builds. *)
Lemma hash_structural_spec c attrs :
  hash_structural hash_atom hash_tuple hash c attrs
  = (k <- hash_key c attrs ;; hash (PyTuple k)).
Proof.
  unfold hash_structural, hash_key.
  destruct (mapM (key_item attrs) (items (FIELDS c))) as [k|] eqn:Hk; simpl; [|done].
  by rewrite (hash_items _ _ _ Hk).
Qed.

Lemma py_hash_structural c attrs :
  structural c ->
  hash (PyObj c attrs) = (k <- hash_key c attrs ;; hash (PyTuple k)).
Proof.
  intros [H1 H2]. simpl. unfold hash_object.
  destruct (cls_base c); try done; apply hash_structural_spec.
Qed.

Lemma hash_nested_spec key attrs c' attrs' :
  getattr_in attrs "_id" = OK (PyObj c' attrs') ->
  forall v, nested_id_attr key attrs = OK v ->
            hash_nested hash_atom hash key attrs = hash v.
Proof.
  intros Hid v. unfold nested_id_attr, hash_nested. rewrite Hid. simpl.
  rewrite (found_getattr _ _ _ _ Hid). apply found_getattr.
Qed.

(** [IdChangeKeyMixIn.__hash__] in the source's form. *)
Lemma py_hash_mixin c attrs :
  cls_base c = IdChangeKeyMixInBase ->
  hash (PyObj c attrs)
  = (i <- nested_id_attr "id" attrs ;;
     if truthy i
     then ck <- nested_id_attr "changekey" attrs ;; hash (PyTuple [i; ck])
     else k <- hash_key c attrs ;; hash (PyTuple k)).
Proof.
  intros Hb. simpl. unfold hash_object. rewrite Hb. unfold hash_mixin.
  destruct (nested_id_attr "id" attrs) as [i|] eqn:Hi; simpl; [|done].
  destruct (truthy i) eqn:Ht; [|apply hash_structural_spec].
  destruct (nested_id_attr "changekey" attrs) as [ck|] eqn:Hc; simpl; [|done].
  assert (exists c' attrs', getattr_in attrs "_id" = OK (PyObj c' attrs'))
    as (c' & attrs' & Hid).
  { unfold nested_id_attr in Hi.
    destruct (getattr_in attrs "_id") as [[]|]; simpl in Hi;
      try discriminate; try (injection Hi as <-; discriminate).
    eauto. }
  rewrite (hash_nested_spec "id" _ _ _ Hid i Hi).
  rewrite (hash_nested_spec "changekey" _ _ _ Hid ck Hc).
  destruct (hash i); simpl; [|done]. destruct (hash ck); done.
Qed.

Lemma eq_spec (self : entity) (other : pyval) (b : bool) :
  __eq__ hash_atom hash_tuple self other = OK b <->
  exists h1 h2, hash (obj self) = OK h1 /\ hash other = OK h2 /\ b = (h1 =? h2).
Proof.
  unfold __eq__. rewrite bind_ok. split.
  - intros (h1 & H1 & H). apply bind_ok in H as (h2 & H2 & [= <-]). eauto.
  - intros (h1 & h2 & H1 & H2 & ->). exists h1. split; [done|].
    apply bind_ok. eauto.
Qed.

Lemma hash_key_ext c a1 a2 :
  (forall f, f ∈ items (FIELDS c) ->
             getattr_in a1 (name f) = getattr_in a2 (name f)) ->
  hash_key c a1 = hash_key c a2.
Proof.
  intros H. unfold hash_key. apply mapM_ext. intros f Hf. by rewrite (H f Hf).
Qed.

End HashFacts.

Section HashClaims.

Variable hash_atom : pyval -> Z.
Variable hash_tuple : list Z -> Z.

Local Abbreviation hash := (py_hash hash_atom hash_tuple).
Local Abbreviation eq := (__eq__ hash_atom hash_tuple).

Lemma hash_key_items c attrs k :
  hash_key c attrs = OK k ->
  Forall2 (fun f x =>
             exists v, getattr_in attrs (name f) = OK v /\
               if is_list f
               then (exists t, py_iter (py_or v (PyTuple [])) = OK t /\ x = PyTuple t) /\
                    (v = PyNone \/ v = PyList [] -> x = PyTuple [])
               else x = v)
          (items (FIELDS c)) k.
Proof.
  unfold hash_key. rewrite mapM_Forall2.
  intros HF. eapply Forall2_impl; [exact HF|]. simpl. intros f x H.
  apply bind_ok in H as (v & Hv & H). exists v. split; [done|].
  destruct (is_list f).
  - apply bind_ok in H as (t & Ht & [= <-]). split; [by exists t|].
    intros [->| ->]; simpl in Ht; by injection Ht as <-.
  - by injection H as <-.
Qed.

(** C1, as amended. For two instances of entity types that hash by
    [EWSElement.__hash__]: they compare equal exactly when their hashes are
    equal; the hash is the hash of the tuple of the field values (no field
    names) in schema declaration order, where the value of a list field is
    folded to a tuple (so [None] and the empty list both give the empty
    tuple) and every other value, an enumerated one included, is taken as
    stored; and two instances with the same schema and the same field values
    have the same hash and, when that hash is defined, are equal. *)
Theorem structural_hash_and_equality (e1 e2 : entity) :
  structural (e_cls e1) -> structural (e_cls e2) ->
  (forall b, eq e1 (obj e2) = OK b <->
             exists h1 h2, hash (obj e1) = OK h1 /\ hash (obj e2) = OK h2 /\
                           b = (h1 =? h2)) /\
  hash (obj e1) = (k <- hash_key (e_cls e1) (e_attrs e1) ;; hash (PyTuple k)) /\
  (forall k, hash_key (e_cls e1) (e_attrs e1) = OK k ->
     Forall2 (fun f x =>
                exists v, getattr e1 (name f) = OK v /\
                  if is_list f
                  then (exists t, py_iter (py_or v (PyTuple [])) = OK t /\
                                  x = PyTuple t) /\
                       (v = PyNone \/ v = PyList [] -> x = PyTuple [])
                  else x = v)
             (items (FIELDS (e_cls e1))) k) /\
  (FIELDS (e_cls e1) = FIELDS (e_cls e2) ->
   (forall f, f ∈ items (FIELDS (e_cls e1)) ->
              getattr e1 (name f) = getattr e2 (name f)) ->
   hash (obj e1) = hash (obj e2) /\
   forall h, hash (obj e1) = OK h -> eq e1 (obj e2) = OK true).
Proof.
  intros S1 S2. split; [|split; [|split]].
  - intros b. apply eq_spec.
  - by apply py_hash_structural.
  - intros k. apply hash_key_items.
  - intros HF Hv.
    assert (hash (obj e1) = hash (obj e2)) as Hh.
    { unfold obj. rewrite !py_hash_structural by done.
      replace (hash_key (e_cls e2) (e_attrs e2))
        with (hash_key (e_cls e1) (e_attrs e1)); [done|].
      unfold hash_key. rewrite <- HF. apply mapM_ext.
      intros f Hf. specialize (Hv f Hf). unfold getattr in Hv. by rewrite Hv. }
    split; [done|]. intros h Hh1. apply eq_spec.
    exists h, h. rewrite <- Hh. by rewrite Z.eqb_refl.
Qed.

(** C10, as amended. [EWSElement.__eq__] of an entity with any other object
    is the comparison of the two hashes, whatever the types.  For an
    instance of a type that hashes by [EWSElement.__hash__] the hash is that of
    its field-value tuple (the values in declaration order, that of a list
    field folded to a tuple), so equality of two such instances is decided by
    the hashes of their field-value tuples alone, and two of them whose
    value tuples coincide compare equal to each other, also when their
    types differ. *)
Theorem equality_without_type_check (e1 e2 : entity) (other : pyval)
  (k : list pyval) (h : Z) :
  (forall b, eq e1 other = OK b <->
             exists h1 h2, hash (obj e1) = OK h1 /\ hash other = OK h2 /\
                           b = (h1 =? h2)) /\
  (structural (e_cls e1) ->
   hash (obj e1) = (t <- hash_key (e_cls e1) (e_attrs e1) ;; hash (PyTuple t)) /\
   forall t, hash_key (e_cls e1) (e_attrs e1) = OK t ->
     Forall2 (fun f x =>
                exists v, getattr e1 (name f) = OK v /\
                  if is_list f
                  then exists u, py_iter (py_or v (PyTuple [])) = OK u /\
                                 x = PyTuple u
                  else x = v)
             (items (FIELDS (e_cls e1))) t) /\
  (structural (e_cls e1) -> structural (e_cls e2) ->
   (forall b, eq e1 (obj e2) = OK b <->
      exists k1 k2 h1 h2,
        hash_key (e_cls e1) (e_attrs e1) = OK k1 /\
        hash_key (e_cls e2) (e_attrs e2) = OK k2 /\
        hash (PyTuple k1) = OK h1 /\ hash (PyTuple k2) = OK h2 /\
        b = (h1 =? h2)) /\
   (hash_key (e_cls e1) (e_attrs e1) = OK k ->
    hash_key (e_cls e2) (e_attrs e2) = OK k ->
    hash (PyTuple k) = OK h ->
    eq e1 (obj e2) = OK true /\ eq e2 (obj e1) = OK true)).
Proof.
  split; [intros b; apply eq_spec|].
  split.
  { intros S1. split; [unfold obj; by apply py_hash_structural|].
    intros t Ht. apply hash_key_items in Ht.
    eapply Forall2_impl; [exact Ht|]. simpl. intros f x (v & Hv & Hx).
    exists v. split; [done|]. destruct (is_list f); [|done]. by destruct Hx. }
  intros S1 S2.
  assert (forall e : entity, structural (e_cls e) ->
            forall x, hash (obj e) = OK x <->
              exists t, hash_key (e_cls e) (e_attrs e) = OK t /\
                        hash (PyTuple t) = OK x) as Hobj.
  { intros e Se x. unfold obj. rewrite py_hash_structural by done.
    apply bind_ok. }
  split.
  - intros b. rewrite eq_spec. split.
    + intros (h1 & h2 & H1 & H2 & ->).
      apply (Hobj e1 S1) in H1 as (k1 & K1 & H1).
      apply (Hobj e2 S2) in H2 as (k2 & K2 & H2).
      by exists k1, k2, h1, h2.
    + intros (k1 & k2 & h1 & h2 & K1 & K2 & H1 & H2 & ->).
      exists h1, h2. split; [apply (Hobj e1 S1); by exists k1|].
      split; [apply (Hobj e2 S2); by exists k2|done].
  - intros K1 K2 Hh.
    assert (hash (obj e1) = OK h) as H1 by (apply (Hobj e1 S1); by exists k).
    assert (hash (obj e2) = OK h) as H2 by (apply (Hobj e2 S2); by exists k).
    split; apply eq_spec; exists h, h; by rewrite Z.eqb_refl.
Qed.

(** C6. An identity-delegating entity whose id is non-empty (true) hashes
    as the pair (id, changekey) and nothing else, so two such entities with
    equal id and changekey have equal hashes and compare equal whatever
    their other fields hold; when the id is not set (or empty) the hash is
    the structural one over all fields, and equality compares that hash. *)
Theorem identity_hash_and_equality (e1 e2 : entity) (i c : pyval) :
  cls_base (e_cls e1) = IdChangeKeyMixInBase ->
  cls_base (e_cls e2) = IdChangeKeyMixInBase ->
  IdChangeKeyMixIn.id e1 = OK i ->
  (truthy i = true ->
   IdChangeKeyMixIn.changekey e1 = OK c ->
   hash (obj e1) = hash (PyTuple [i; c]) /\
   (IdChangeKeyMixIn.id e2 = OK i ->
    IdChangeKeyMixIn.changekey e2 = OK c ->
    hash (obj e2) = hash (obj e1) /\
    forall h, hash (PyTuple [i; c]) = OK h ->
              obj_eq hash_atom hash_tuple e1 (obj e2) = OK true)) /\
  (truthy i = false ->
   hash (obj e1)
   = (k <- hash_key (e_cls e1) (e_attrs e1) ;; hash (PyTuple k)) /\
   forall b, obj_eq hash_atom hash_tuple e1 (obj e2) = OK b <->
             exists h1 h2,
               (k <- hash_key (e_cls e1) (e_attrs e1) ;; hash (PyTuple k)) = OK h1 /\
               hash (obj e2) = OK h2 /\ b = (h1 =? h2)).
Proof.
  intros B1 B2 Hi. unfold IdChangeKeyMixIn.id, IdChangeKeyMixIn.changekey in *.
  assert (forall other, obj_eq hash_atom hash_tuple e1 (obj other) = eq e1 (obj other))
    as Heq.
  { intros other. unfold obj_eq. by rewrite B1. }
  split.
  - intros Ht Hc.
    assert (hash (obj e1) = hash (PyTuple [i; c])) as H1.
    { unfold obj. rewrite py_hash_mixin by done. rewrite Hi. simpl.
      rewrite Ht, Hc. done. }
    split; [done|]. intros Hi2 Hc2.
    assert (hash (obj e2) = hash (PyTuple [i; c])) as H2.
    { unfold obj. rewrite py_hash_mixin by done. rewrite Hi2. simpl.
      rewrite Ht, Hc2. done. }
    split; [congruence|]. intros h Hh. rewrite Heq. apply eq_spec.
    exists h, h. rewrite H1, H2, Z.eqb_refl. done.
  - intros Ht.
    assert (hash (obj e1)
            = (k <- hash_key (e_cls e1) (e_attrs e1) ;; hash (PyTuple k))) as H1.
    { unfold obj. rewrite py_hash_mixin by done. rewrite Hi. simpl.
      by rewrite Ht. }
    split; [done|]. intros b. rewrite Heq, eq_spec, H1. done.
Qed.

End HashClaims.

Lemma structural_ItemId : structural ItemId_cls.
Proof. split; discriminate. Qed.

Lemma structural_transition :
  structural StandardTime /\ structural DaylightTime.
Proof. repeat split; discriminate. Qed.

(** Two [ItemId('a', 'b')] instances are equal under the sample hash. *)
Lemma structural_hash_and_equality_witness :
  structural (e_cls sample_item_id) /\
  __eq__ sample_hash_atom sample_hash_tuple sample_item_id (obj sample_item_id)
  = OK true.
Proof.
  split; [exact structural_ItemId|].
  destruct (structural_hash_and_equality sample_hash_atom sample_hash_tuple
              sample_item_id sample_item_id structural_ItemId structural_ItemId)
    as (_ & _ & _ & H).
  destruct H as [_ H]; [reflexivity|intros; reflexivity|].
  eapply H. vm_compute. reflexivity.
Defined.

(** C1 as stated fails: the tuple that is hashed holds the bare values, not
    (name, value) pairs, and an enumerated value stays the stored integer.
    [ItemId('a', 'b')] hashes the tuple [('a', 'b')], which under the sample
    hash differs from the hash of the pairs; a [PhoneNumber] with the same
    two values but other field names has the same hash under every hash
    function; the weekday [7] of a [StandardTime] enters the hash as [7],
    not as its wire string; two [UserConfiguration]s that differ in a field
    but share their id have the same hash, their type having a [__hash__]
    of its own; and an entity that holds a list in a field that is not a
    list field has no hash, so comparing it with itself raises. *)
Lemma hash_over_named_pairs_counterexample :
  hash_key ItemId_cls (e_attrs sample_item_id) = OK [PyStr "a"; PyStr "b"] /\
  spec_hash_key weekday_name ItemId_cls (e_attrs sample_item_id)
  = OK [PyTuple [PyStr "id"; PyStr "a"]; PyTuple [PyStr "changekey"; PyStr "b"]] /\
  py_hash sample_hash_atom sample_hash_tuple (obj sample_item_id)
  <> (k <- spec_hash_key weekday_name ItemId_cls (e_attrs sample_item_id) ;;
      py_hash sample_hash_atom sample_hash_tuple (PyTuple k)) /\
  (forall hash_atom hash_tuple,
     py_hash hash_atom hash_tuple (obj sample_item_id)
     = py_hash hash_atom hash_tuple (obj sample_phone_number)) /\
  hash_key StandardTime (e_attrs sample_standard_time)
  = OK [PyInt 0; PyTime 2 0 0 0; PyInt 5; PyInt 10; PyInt 7] /\
  spec_hash_key weekday_name StandardTime (e_attrs sample_standard_time)
  = OK [PyTuple [PyStr "bias"; PyInt 0]; PyTuple [PyStr "time"; PyTime 2 0 0 0];
        PyTuple [PyStr "occurrence"; PyInt 5];
        PyTuple [PyStr "iso_month"; PyInt 10];
        PyTuple [PyStr "weekday"; PyStr "Sunday"]] /\
  (hash_key UserConfiguration (e_attrs (sample_user_configuration (PyStr "one")))
   <> hash_key UserConfiguration (e_attrs (sample_user_configuration (PyStr "two"))) /\
   forall hash_atom hash_tuple,
     py_hash hash_atom hash_tuple (obj (sample_user_configuration (PyStr "one")))
     = py_hash hash_atom hash_tuple (obj (sample_user_configuration (PyStr "two")))) /\
  (forall hash_atom hash_tuple,
     __eq__ hash_atom hash_tuple sample_unhashable (obj sample_unhashable)
     = Error TypeError).
Proof.
  repeat split; try (vm_compute; reflexivity).
  - vm_compute. discriminate.
  - vm_compute. discriminate.
Qed.

(** A [StandardTime] and a [DaylightTime] with identical values are equal. *)
Lemma equality_without_type_check_witness :
  structural (e_cls sample_standard_time) /\
  structural (e_cls sample_daylight_time) /\
  e_cls sample_standard_time <> e_cls sample_daylight_time /\
  __eq__ sample_hash_atom sample_hash_tuple
         sample_standard_time (obj sample_daylight_time) = OK true /\
  __eq__ sample_hash_atom sample_hash_tuple
         sample_daylight_time (obj sample_standard_time) = OK true.
Proof.
  destruct structural_transition as [S1 S2].
  split; [exact S1|]. split; [exact S2|]. split; [discriminate|].
  eapply (proj2 (proj2 (proj2 (equality_without_type_check
                   sample_hash_atom sample_hash_tuple
                   sample_standard_time sample_daylight_time PyNone
                   [PyInt 0; PyTime 2 0 0 0; PyInt 5; PyInt 10; PyInt 7] _))
                   S1 S2)).
  - vm_compute. reflexivity.
  - vm_compute. reflexivity.
  - vm_compute. reflexivity.
Defined.

(** Two [UserConfiguration] instances with the same identity and different
    [xml_data]: the hashes of their field-value tuples differ, and they
    compare equal, because the class hashes by identity. *)
Lemma equality_by_identity_counterexample :
  exists k1 k2 h1 h2,
    hash_key UserConfiguration (e_attrs (sample_user_configuration (PyStr "one")))
    = OK k1 /\
    hash_key UserConfiguration (e_attrs (sample_user_configuration (PyStr "three")))
    = OK k2 /\
    py_hash sample_hash_atom sample_hash_tuple (PyTuple k1) = OK h1 /\
    py_hash sample_hash_atom sample_hash_tuple (PyTuple k2) = OK h2 /\
    h1 <> h2 /\
    obj_eq sample_hash_atom sample_hash_tuple
      (sample_user_configuration (PyStr "one"))
      (obj (sample_user_configuration (PyStr "three"))) = OK true.
Proof.
  eexists _, _, _, _.
  split; [vm_compute; reflexivity|]. split; [vm_compute; reflexivity|].
  split; [vm_compute; reflexivity|]. split; [vm_compute; reflexivity|].
  split; [discriminate|]. vm_compute. reflexivity.
Defined.

(** Two [UserConfiguration]s with the same [ItemId('a', 'b')] and different
    [xml_data] are equal. *)
Lemma identity_hash_and_equality_witness :
  let e1 := sample_user_configuration (PyStr "one") in
  let e2 := sample_user_configuration (PyStr "two") in
  cls_base (e_cls e1) = IdChangeKeyMixInBase /\
  IdChangeKeyMixIn.id e1 = OK (PyStr "a") /\
  IdChangeKeyMixIn.changekey e1 = OK (PyStr "b") /\
  e1 <> e2 /\
  py_hash sample_hash_atom sample_hash_tuple (obj e2)
  = py_hash sample_hash_atom sample_hash_tuple (obj e1) /\
  obj_eq sample_hash_atom sample_hash_tuple e1 (obj e2) = OK true.
Proof.
  intros e1 e2.
  split; [reflexivity|]. split; [vm_compute; reflexivity|].
  split; [vm_compute; reflexivity|]. split; [discriminate|].
  destruct (identity_hash_and_equality sample_hash_atom sample_hash_tuple
              e1 e2 (PyStr "a") (PyStr "b") eq_refl eq_refl) as [H _].
  { vm_compute. reflexivity. }
  destruct H as [_ H]; [reflexivity|vm_compute; reflexivity|].
  destruct H as [H1 H2]; [vm_compute; reflexivity|vm_compute; reflexivity|].
  split; [exact H1|]. eapply H2. vm_compute. reflexivity.
Defined.

(** ** The schema container: instances *)

Lemma declare_wf (fields : list Field) :
  NoDup (name <$> fields) ->
  FieldsM.wf (declare fields) /\ items (declare fields) = fields.
Proof.
  intros Hnd. unfold declare.
  destruct (init_ok fields Hnd) as [-> Hw]. by split.
Qed.

Lemma ItemId_FIELDS_wf : FieldsM.wf ItemId_FIELDS.
Proof. apply declare_wf, NoDup_by_computation. vm_compute. reflexivity. Qed.

(** Two fields named [id] are refused; [ItemId.FIELDS] refuses a second
    [id] and accepts a field [name]. *)
Lemma Fields_names_unique_witness :
  let dup := [mkField "id" false IdField; mkField "id" false CharField] in
  ~ NoDup (name <$> dup) /\
  FieldsM.__init__ dup
  = Error (ValueError (DuplicateField (mkField "id" false CharField))) /\
  FieldsM.wf ItemId_FIELDS /\
  FieldsM.insert ItemId_FIELDS 1 (mkField "id" false CharField)
  = (Error (ValueError (DuplicateField (mkField "id" false CharField))),
     ItemId_FIELDS) /\
  exists self',
    FieldsM.insert ItemId_FIELDS 1 (mkField "name" false CharField)
    = (OK tt, self') /\
    items self' = [mkField "id" false IdField; mkField "name" false CharField;
                   mkField "changekey" false IdField] /\
    FieldsM.wf self'.
Proof.
  intros dup.
  assert (~ NoDup (name <$> dup)) as Hdup.
  { intros H. apply (bool_decide_eq_true_2 _) in H. vm_compute in H. discriminate. }
  split; [exact Hdup|].
  split; [vm_compute; reflexivity|].
  split; [exact ItemId_FIELDS_wf|].
  destruct (Fields_names_unique dup ItemId_FIELDS 1 (mkField "id" false CharField))
    as (_ & _ & H).
  destruct (H ItemId_FIELDS_wf) as [Hin _].
  split.
  { apply Hin. apply (bool_decide_eq_true_1 _). vm_compute. reflexivity. }
  destruct (Fields_names_unique dup ItemId_FIELDS 1 (mkField "name" false CharField))
    as (_ & _ & H').
  destruct (H' ItemId_FIELDS_wf) as [_ Hout].
  destruct Hout as (self' & Hins & _ & _ & Hwf).
  { intros Hin'. apply (bool_decide_eq_true_2 _) in Hin'. vm_compute in Hin'.
    discriminate. }
  exists self'. split; [exact Hins|]. split; [|exact Hwf].
  unfold FieldsM.insert in Hins.
  change (_dict ItemId_FIELDS !! name (mkField "name" false CharField))
    with (@None Field) in Hins.
  injection Hins as <-. reflexivity.
Defined.

(** [ItemId.FIELDS]: copy, concatenation with the fields of [PhoneNumber],
    and the slices [[1:]] and [[::-1]]. *)
Lemma Fields_copy_concat_slice_witness :
  FieldsM.wf ItemId_FIELDS /\
  FieldsM.copy ItemId_FIELDS = OK ItemId_FIELDS /\
  (exists F, FieldsM.__add__ ItemId_FIELDS (items (FIELDS PhoneNumber_cls)) = OK F /\
             name <$> items F = ["id"; "changekey"; "number"; "type"]) /\
  (exists F, FieldsM.getitem_slice ItemId_FIELDS (PyList.mkSlice (Some 1) None None)
             = OK F /\
             items F `sublist_of` items ItemId_FIELDS /\
             name <$> items F = ["changekey"]) /\
  (exists F, FieldsM.getitem_slice ItemId_FIELDS (PyList.mkSlice None None (Some (-1)))
             = OK F /\
             name <$> items F = ["changekey"; "id"] /\ FieldsM.wf F).
Proof.
  pose proof (Fields_copy_concat_slice ItemId_FIELDS (items (FIELDS PhoneNumber_cls))
                (PyList.mkSlice (Some 1) None None) ItemId_FIELDS_wf)
    as (Hc & Ha & _ & Hs & _ & Hr & _).
  split; [exact ItemId_FIELDS_wf|]. split; [exact Hc|]. split; [|split].
  - destruct Ha as (F & HF & Hi & _).
    { apply NoDup_by_computation. vm_compute. reflexivity. }
    exists F. split; [exact HF|]. rewrite Hi. reflexivity.
  - destruct Hs as (F & HF & Hsub & _); [simpl; lia|].
    exists F. split; [exact HF|]. split; [exact Hsub|].
    unfold FieldsM.getitem_slice in HF.
    change (PyList.getslice (items ItemId_FIELDS) (PyList.mkSlice (Some 1) None None))
      with (OK [mkField "changekey" false IdField]) in HF.
    simpl in HF. apply init_inv in HF as [_ ->]. reflexivity.
  - destruct Hr as (F & HF & Hitems & Hwf).
    exists F. split; [exact HF|]. split; [|exact Hwf].
    rewrite Hitems. reflexivity.
Defined.

(** C9 as stated fails: concatenating [ItemId.FIELDS] with itself raises the
    duplicate-field error instead of returning a container, and the slice
    [[::-1]] returns the fields in reverse declaration order. *)
Lemma Fields_concat_slice_counterexample :
  FieldsM.wf ItemId_FIELDS /\
  FieldsM.__add__ ItemId_FIELDS (items ItemId_FIELDS)
  = Error (ValueError (DuplicateField (mkField "id" false IdField))) /\
  items ItemId_FIELDS = [mkField "id" false IdField; mkField "changekey" false IdField] /\
  exists F, FieldsM.getitem_slice ItemId_FIELDS (PyList.mkSlice None None (Some (-1)))
            = OK F /\
            items F = [mkField "changekey" false IdField; mkField "id" false IdField].
Proof.
  split; [exact ItemId_FIELDS_wf|].
  split; [vm_compute; reflexivity|].
  split; [vm_compute; reflexivity|].
  eexists. split; [vm_compute; reflexivity|]. reflexivity.
Qed.

(** ** Construction *)

Section InitFacts.

Import EWSElement.

Lemma string_eqb_decide (a b : string) :
  String.eqb a b = bool_decide (a = b).
Proof.
  destruct (String.eqb_spec a b) as [->|Hne].
  - by rewrite bool_decide_eq_true_2.
  - by rewrite bool_decide_eq_false_2.
Qed.

Lemma lookup_store_eq key v l : attr_lookup key (attr_store key v l) = Some v.
Proof.
  induction l as [|[k w] l IH]; simpl.
  - by rewrite String.eqb_refl.
  - destruct (String.eqb k key) eqn:E; simpl; rewrite E; [done|exact IH].
Qed.

Lemma lookup_store_ne key key' v l :
  key <> key' -> attr_lookup key' (attr_store key v l) = attr_lookup key' l.
Proof.
  intros Hne. induction l as [|[k w] l IH]; simpl.
  - destruct (String.eqb_spec key key'); [done|done].
  - destruct (String.eqb_spec k key) as [->|Hk]; simpl.
    + destruct (String.eqb_spec key key'); [done|done].
    + destruct (String.eqb k key'); [done|exact IH].
Qed.

Lemma kw_get_filter_ne (key key' : string) (kw : kwargs_t) :
  key <> key' ->
  kw_get key' (filter (fun p => p.1 <> key) kw) = kw_get key' kw.
Proof.
  intros Hne. induction kw as [|[k w] kw IH]; [done|].
  rewrite filter_cons. simpl. destruct (decide (k <> key)) as [Hk|Hk].
  - unfold kw_get in *. simpl. destruct (String.eqb k key'); [done|exact IH].
  - assert (k = key) as -> by (by destruct (decide (k = key))).
    unfold kw_get in *. simpl.
    destruct (String.eqb_spec key key'); [done|exact IH].
Qed.

Lemma kw_get_filter_eq (key : string) (kw : kwargs_t) :
  kw_get key (filter (fun p => p.1 <> key) kw) = None.
Proof.
  induction kw as [|[k w] kw IH]; [done|].
  rewrite filter_cons. simpl. destruct (decide (k <> key)) as [Hk|Hk]; [|exact IH].
  unfold kw_get in *. simpl. destruct (String.eqb_spec k key); [done|exact IH].
Qed.

(** A write to a slot, or to an attribute the instance holds, is stored. *)
Lemma setattr_field (self : entity) key v :
  key ∈ slots_keys (e_cls self) \/ hasattr self key = true ->
  __setattr__ self key v
  = OK (mkEntity (e_cls self) (attr_store key v (e_attrs self))).
Proof.
  intros H. unfold __setattr__, object_setattr.
  destruct (hasattr self key) eqn:Hh; repeat case_bool_decide; simpl; try done.
  all: by destruct H.
Qed.


Lemma getattr_hasattr (self : entity) key v :
  getattr self key = OK v -> hasattr self key = true.
Proof.
  unfold getattr, getattr_in, hasattr. by destruct (attr_lookup key (e_attrs self)).
Qed.

Lemma slotted_field (c : pyclass) (n : string) :
  slotted c -> n ∈ field_names c -> n ∈ slots_keys c.
Proof.
  intros H Hn. unfold slotted in H. rewrite Forall_forall in H. by apply H.
Qed.

Lemma id_like_slotted (c : pyclass) : id_like c -> slotted c.
Proof.
  intros [Hf Hs]. unfold slotted. rewrite Hf, Hs.
  repeat constructor.
Qed.

Lemma getattr_store_eq c attrs key v :
  getattr (mkEntity c (attr_store key v attrs)) key = OK v.
Proof. unfold getattr, getattr_in. simpl. by rewrite lookup_store_eq. Qed.

Lemma getattr_store_ne c attrs key key' v :
  key <> key' ->
  getattr (mkEntity c (attr_store key v attrs)) key' = getattr (mkEntity c attrs) key'.
Proof.
  intros Hne. unfold getattr, getattr_in. simpl. by rewrite lookup_store_ne.
Qed.

(** What the field loop of [__init__] leaves behind. *)
Lemma init_fields_spec cls : forall fs self kw,
  e_cls self = cls ->
  (forall f, f ∈ fs -> name f ∈ slots_keys cls) ->
  exists self',
    init_fields fs self kw
    = OK (self', filter (fun p => p.1 ∉ name <$> fs) kw) /\
    e_cls self' = cls /\
    (forall n, n ∉ name <$> fs -> getattr self' n = getattr self n) /\
    (forall f, f ∈ fs -> kw_get (name f) kw = None ->
               getattr self' (name f) = OK PyNone) /\
    (NoDup (name <$> fs) ->
     forall f, f ∈ fs ->
               getattr self' (name f) = OK (default PyNone (kw_get (name f) kw))).
Proof.
  induction fs as [|f fs IH]; intros self kw Hcls Hin.
  - exists self. simpl. split; [|split; [done|split; [done|split]]].
    + f_equal. f_equal. clear. induction kw as [|p kw IHkw]; [done|].
      rewrite filter_cons_True by apply not_elem_of_nil. by f_equal.
    + intros f Hf. inversion Hf.
    + intros _ f Hf. inversion Hf.
  - simpl. destruct self as [c attrs]. simpl in Hcls. subst c.
    rewrite setattr_field by (left; apply Hin; left). simpl.
    set (v := default PyNone (kw_get (name f) kw)).
    set (kw' := filter (fun p => p.1 <> name f) kw).
    destruct (IH (mkEntity cls (attr_store (name f) v attrs)) kw' eq_refl)
      as (self' & Hr & Hc & Hkeep & Hnone & Hval).
    { intros g Hg. apply Hin. by right. }
    exists self'. split; [|split; [done|split; [|split]]].
    + rewrite Hr. f_equal. f_equal. unfold kw'. rewrite list_filter_filter.
      apply list_filter_iff. intros p. rewrite elem_of_cons. tauto.
    + intros n Hn. rewrite elem_of_cons in Hn.
      rewrite Hkeep by tauto. apply getattr_store_ne. intros Heq.
      apply Hn. left. congruence.
    + intros g Hg Hnk. apply elem_of_cons in Hg as [->|Hg].
      * destruct (decide (name f ∈ name <$> fs)) as [Hd|Hd].
        -- apply list_elem_of_fmap in Hd as (g & Hn & Hg). rewrite Hn.
           apply Hnone; [done|]. rewrite <- Hn. apply kw_get_filter_eq.
        -- rewrite Hkeep by done. unfold v. rewrite Hnk. apply getattr_store_eq.
      * apply Hnone; [done|]. unfold kw'.
        destruct (decide (name f = name g)) as [Heq|Hne];
          [rewrite Heq; apply kw_get_filter_eq|by rewrite kw_get_filter_ne].
    + intros Hnd g Hg. apply NoDup_cons in Hnd as [Hf Hnd].
      apply elem_of_cons in Hg as [->|Hg].
      * rewrite Hkeep by done. apply getattr_store_eq.
      * rewrite (Hval Hnd g Hg). unfold kw'. rewrite kw_get_filter_ne; [done|].
        intros Heq. apply Hf. rewrite Heq. by apply list_elem_of_fmap_2.
Qed.

Lemma filter_keys (P : string -> Prop) (Q : string * pyval -> Prop)
  `{!forall k, Decision (P k)} `{!forall p, Decision (Q p)} (kw : kwargs_t) :
  (forall p, Q p <-> P p.1) ->
  (filter Q kw).*1 = filter P (kw.*1).
Proof.
  intros HPQ. induction kw as [|[k w] kw IH]; [done|].
  rewrite fmap_cons, !filter_cons. cbn [fst].
  destruct (decide (Q (k, w))) as [HQ|HQ]; destruct (decide (P k)) as [HP|HP].
  - rewrite fmap_cons. cbn [fst]. by f_equal.
  - apply HPQ in HQ. done.
  - exfalso. apply HQ. by apply HPQ.
  - done.
Qed.

(** [EWSElement.__init__]: success with every field set, or the error
    naming the keywords that are not fields. *)
Lemma init_spec (cls : pyclass) (kw : kwargs_t) :
  slotted cls ->
  let unexpected := filter (fun k => k ∉ field_names cls) (kw.*1) in
  (unexpected = [] ->
   exists e, __init__ cls kw = OK e /\ e_cls e = cls /\
     (forall f, f ∈ items (FIELDS cls) -> kw_get (name f) kw = None ->
                getattr e (name f) = OK PyNone) /\
     (NoDup (field_names cls) ->
      forall f, f ∈ items (FIELDS cls) ->
                getattr e (name f) = OK (default PyNone (kw_get (name f) kw)))) /\
  (unexpected <> [] ->
   __init__ cls kw = Error (AttributeError (invalid_kwargs unexpected))).
Proof.
  intros Hslots unexpected. unfold __init__.
  destruct (init_fields_spec cls (items (FIELDS cls)) (mkEntity cls []) kw eq_refl)
    as (e & Hr & Hc & _ & Hnone & Hval).
  { intros f Hf. apply (slotted_field cls); [done|]. by apply list_elem_of_fmap_2. }
  rewrite Hr. simpl.
  assert ((filter (fun p : string * pyval => p.1 ∉ name <$> items (FIELDS cls)) kw).*1
          = unexpected) as Hkeys.
  { unfold unexpected, field_names.
    by apply filter_keys. }
  destruct (filter _ kw) as [|p rest] eqn:Hf; simpl in Hkeys.
  - split; [|by rewrite <- Hkeys]. intros _. exists e. by repeat split.
  - split; [by rewrite <- Hkeys|]. intros _. by rewrite <- Hkeys.
Qed.

Lemma store_keys key v (l : kwargs_t) :
  (attr_store key v l).*1 = if bool_decide (key ∈ l.*1) then l.*1 else l.*1 ++ [key].
Proof.
  induction l as [|[k w] l IH]; [done|]. simpl.
  destruct (String.eqb_spec k key) as [->|Hne].
  - rewrite bool_decide_eq_true_2 by left. done.
  - rewrite fmap_cons, IH. cbn [fst].
    destruct (decide (key ∈ l.*1)) as [Hin|Hin].
    + rewrite !bool_decide_eq_true_2; [done|by right|done].
    + rewrite !bool_decide_eq_false_2; [done| |done].
      rewrite elem_of_cons. intros [->|?]; done.
Qed.



Lemma field_named cls n :
  n ∈ field_names cls -> exists f, f ∈ items (FIELDS cls) /\ name f = n.
Proof.
  intros H. apply list_elem_of_fmap in H as (f & -> & Hf). by exists f.
Qed.


(** [IdChangeKeyMixIn.__init__] hands the keywords other than [id] and
    [changekey] on to [EWSElement.__init__], with the nested identity
    instance under [_id] when one of the two is true. *)
Lemma mixin_init_unfold (cls id_cls : pyclass) (kw : kwargs_t) :
  ID_ELEMENT_CLS cls = Some id_cls -> id_like id_cls ->
  let i := default PyNone (kw_get "id" kw) in
  let c := default PyNone (kw_get "changekey" kw) in
  let kw2 := filter (fun p => p.1 <> "changekey") (filter (fun p => p.1 <> "id") kw) in
  exists _id,
    e_cls _id = id_cls /\
    getattr _id "id" = OK i /\ getattr _id "changekey" = OK c /\
    IdChangeKeyMixIn.__init__ cls kw
    = __init__ cls (if truthy i || truthy c
                    then EWSElement.kw_set "_id" (obj _id) kw2 else kw2).
Proof.
  intros Hid [Hf Hs] i c kw2. unfold IdChangeKeyMixIn.__init__. rewrite Hid.
  unfold kw_pop. cbv zeta. fold i.
  rewrite kw_get_filter_ne by done. fold c. fold kw2.
  unfold ItemId.__init__. rewrite Hs.
  change (zip ["id"; "changekey"] [i; c]) with [("id", i); ("changekey", c)].
  destruct (init_spec id_cls [("id", i); ("changekey", c)]
              (id_like_slotted id_cls (conj Hf Hs))) as [Hok _].
  destruct Hok as (_id & -> & Hc & _ & Hval).
  { rewrite Hf. apply (bool_decide_eq_true_1 _). vm_compute. reflexivity. }
  assert (NoDup (field_names id_cls)) as Hnd.
  { rewrite Hf. apply NoDup_by_computation. vm_compute. reflexivity. }
  destruct (field_named id_cls "id") as (f1 & Hf1 & Hn1); [rewrite Hf; left|].
  destruct (field_named id_cls "changekey") as (f2 & Hf2 & Hn2);
    [rewrite Hf; right; left|].
  pose proof (Hval Hnd f1 Hf1) as Hi. rewrite Hn1 in Hi.
  pose proof (Hval Hnd f2 Hf2) as Hck. rewrite Hn2 in Hck.
  change (default PyNone (kw_get "id" [("id", i); ("changekey", c)])) with i in Hi.
  change (default PyNone (kw_get "changekey" [("id", i); ("changekey", c)])) with c in Hck.
  exists _id. split; [done|]. split; [done|]. split; [done|].
  simpl. rewrite Hi. simpl. destruct (truthy i); simpl; [done|].
  rewrite Hck. simpl. done.
Qed.


End InitFacts.

Lemma ItemId_id_like : id_like ItemId_cls.
Proof. split; reflexivity. Qed.

Lemma slotted_by_computation (c : pyclass) :
  bool_decide (Forall (fun k => k ∈ slots_keys c) (field_names c)) = true ->
  slotted c.
Proof. apply bool_decide_eq_true_1. Qed.

Lemma UserConfiguration_slotted : slotted UserConfiguration.
Proof. apply slotted_by_computation. vm_compute. reflexivity. Qed.



(** ** Identity delegation *)

Lemma filter_none {A} (P : A -> Prop) `{!forall x, Decision (P x)} (l : list A) :
  (forall x, x ∈ l -> ~ P x) -> filter P l = [].
Proof.
  induction l as [|x l IH]; intros Hl; [done|].
  rewrite filter_cons_False by (apply Hl; left).
  apply IH. intros y Hy. apply Hl. by right.
Qed.

Section IdentityFacts.

Import IdChangeKeyMixIn.

Lemma getattr_in_store_eq key v l : getattr_in (attr_store key v l) key = OK v.
Proof. unfold getattr_in. by rewrite lookup_store_eq. Qed.

Lemma getattr_in_store_ne key key' v l :
  key <> key' -> getattr_in (attr_store key v l) key' = getattr_in l key'.
Proof. intros H. unfold getattr_in. by rewrite lookup_store_ne. Qed.

(** Reading [id] / [changekey] once [_id] holds an instance. *)
Lemma nested_read key c attrs l :
  nested_id_attr key (attr_store "_id" (PyObj c attrs) l) = getattr_in attrs key.
Proof. unfold nested_id_attr. by rewrite getattr_in_store_eq. Qed.

Lemma nested_read_none key l :
  getattr_in l "_id" = OK PyNone -> nested_id_attr key l = OK PyNone.
Proof. unfold nested_id_attr. by intros ->. Qed.

(** A freshly built identity instance has both attributes [None]. *)
Lemma fresh_identity id_cls :
  id_like id_cls ->
  exists fresh, ItemId.__init__ id_cls [] [] = OK fresh /\
                e_cls fresh = id_cls /\
                getattr fresh "id" = OK PyNone /\
                getattr fresh "changekey" = OK PyNone.
Proof.
  intros [Hf Hs]. unfold ItemId.__init__. rewrite Hs.
  change (zip ["id"; "changekey"] []) with (@nil (string * pyval)).
  destruct (init_spec id_cls [] (id_like_slotted id_cls (conj Hf Hs))) as [Hok _].
  destruct (Hok eq_refl) as (fresh & -> & Hc & Hnone & _).
  exists fresh. split; [done|]. split; [done|].
  destruct (field_named id_cls "id") as (f1 & Hf1 & Hn1); [rewrite Hf; left|].
  destruct (field_named id_cls "changekey") as (f2 & Hf2 & Hn2);
    [rewrite Hf; right; left|].
  split.
  - rewrite <- Hn1. by apply Hnone.
  - rewrite <- Hn2. by apply Hnone.
Qed.

(** The first write: a new identity instance is stored under [_id] and
    receives the one attribute. *)
Lemma set_nested_fresh key (self : entity) id_cls value :
  ID_ELEMENT_CLS (e_cls self) = Some id_cls -> id_like id_cls ->
  "_id" ∈ field_names (e_cls self) ->
  key ∈ ["id"; "changekey"] ->
  getattr self "_id" = OK PyNone ->
  exists fresh,
    getattr_in fresh "id" = OK PyNone /\
    getattr_in fresh "changekey" = OK PyNone /\
    set_nested key self value
    = OK (mkEntity (e_cls self)
            (attr_store "_id" (PyObj id_cls (attr_store key value fresh))
               (attr_store "_id" (PyObj id_cls fresh) (e_attrs self)))).
Proof.
  intros Hid Hlike Hfield Hkey Hnone.
  destruct (fresh_identity id_cls Hlike) as ([c fresh] & Hfresh & Hc & Hi & Hck).
  simpl in Hc. subst c.
  exists fresh. split; [exact Hi|]. split; [exact Hck|].
  unfold set_nested. rewrite Hnone. simpl. rewrite Hid, Hfresh. simpl.
  rewrite setattr_field by (right; by apply (getattr_hasattr self "_id" PyNone)).
  simpl.
  unfold getattr. simpl. rewrite getattr_in_store_eq. simpl.
  rewrite setattr_field; [done|].
  left. simpl. destruct Hlike as [_ ->]. done.
Qed.

(** A later write goes to the instance that is already there. *)
Lemma set_nested_existing key (self : entity) c attrs value :
  getattr self "_id" = OK (PyObj c attrs) ->
  key ∈ slots_keys c ->
  set_nested key self value
  = OK (mkEntity (e_cls self)
          (attr_store "_id" (PyObj c (attr_store key value attrs)) (e_attrs self))).
Proof.
  intros Hid Hkey. unfold set_nested. rewrite Hid. simpl. rewrite Hid. simpl.
  rewrite setattr_field by by left. done.
Qed.


End IdentityFacts.

Lemma UserConfiguration_has_id : "_id" ∈ field_names UserConfiguration.
Proof. apply (bool_decide_eq_true_1 _). vm_compute. reflexivity. Qed.



(** ** Occurrence normalization *)

Section OccurrenceFacts.

Variable hash_atom : pyval -> Z.
Variable hash_tuple : list Z -> Z.
Variable Version : Type.
Variable supports_version : Field -> Version -> bool.
Variable field_clean : Field -> pyval -> option Version -> result pyval.
Variable Elem Account : Type.
Variable field_from_xml : Field -> Elem -> Account -> result pyval.

Local Abbreviation settle := (settle_occurrence hash_atom hash_tuple).
Local Abbreviation base_clean :=
  (EWSElement_clean Version supports_version field_clean).
Local Abbreviation clean :=
  (TimeZoneTransition_clean hash_atom hash_tuple Version supports_version field_clean).
Local Abbreviation base_from_xml := (EWSElement_from_xml Elem Account field_from_xml).
Local Abbreviation from_xml :=
  (TimeZoneTransition_from_xml hash_atom hash_tuple Elem Account field_from_xml).

Lemma assign_ok key v self self' :
  assign key v self = (OK tt, self') ->
  getattr self' key = OK v /\ e_cls self' = e_cls self.
Proof.
  unfold assign, EWSElement.__setattr__, EWSElement.object_setattr.
  repeat case_match; intros [= <-]; simplify_eq; simpl;
    (split; [apply getattr_store_eq|done]).
Qed.

(** After the closing test the occurrence is not [-1]; a value that does
    not equal [-1] is left alone. *)
Lemma settle_never_minus_one self self' :
  settle self = (OK tt, self') ->
  getattr self' "occurrence" <> OK (PyInt (-1)) /\
  (getattr self "occurrence" = OK (PyInt (-1)) ->
   getattr self' "occurrence" = OK (PyInt 5)) /\
  (getattr self "occurrence" = OK (PyInt 5) -> self' = self).
Proof.
  unfold settle_occurrence.
  destruct (getattr self "occurrence") as [occ|] eqn:Hocc; [|done].
  destruct (py_eq hash_atom hash_tuple occ (PyInt (-1))) as [[|]|] eqn:Heq; [| |done].
  - intros H. apply assign_ok in H as [H _]. rewrite H.
    split; [done|]. split; [done|]. intros [= ->]. simpl in Heq. done.
  - intros [= <-]. rewrite Hocc. split; [|split].
    + intros [= ->]. simpl in Heq. done.
    + intros [= ->]. simpl in Heq. done.
    + done.
Qed.

Lemma settle_int self z :
  "occurrence" ∈ field_names (e_cls self) ->
  getattr self "occurrence" = OK (PyInt z) ->
  exists self',
    settle self = (OK tt, self') /\
    getattr self' "occurrence" = OK (PyInt (if z =? -1 then 5 else z)) /\
    (z <> -1 -> self' = self).
Proof.
  intros Hf Hocc. unfold settle_occurrence. rewrite Hocc. simpl.
  destruct (Z.eqb_spec z (-1)) as [->|Hne].
  - unfold assign.
    rewrite setattr_field
      by (right; by apply (getattr_hasattr self "occurrence" (PyInt (-1)))).
    eexists. split; [done|]. split; [apply getattr_store_eq|done].
  - exists self. by repeat split.
Qed.

Lemma clean_fields_cls version : forall fs self r self',
  clean_fields Version supports_version field_clean version fs self = (r, self') ->
  e_cls self' = e_cls self.
Proof.
  induction fs as [|f fs IH]; intros self r self'; simpl.
  - by intros [= _ <-].
  - destruct (clean_field _ _ _ version f self) as [[[]|e] self1] eqn:Hf.
    + intros H. apply IH in H. rewrite H. clear H IH.
      unfold clean_field, assign, EWSElement.__setattr__, EWSElement.object_setattr in Hf.
      repeat case_match; simplify_eq; done.
    + intros [= _ <-]. unfold clean_field, assign, EWSElement.__setattr__, EWSElement.object_setattr in Hf.
      repeat case_match; simplify_eq; done.
Qed.

(** C4. After [clean] and after [from_xml] of a time zone transition the
    occurrence is never [-1]: when the inherited step leaves [-1] it becomes
    [5], when it leaves [5] nothing changes; and whenever the inherited step
    succeeds with an integer occurrence the whole call succeeds, with
    occurrence [5] in place of [-1] and otherwise as it was. *)
Theorem occurrence_never_minus_one (version : option Version) (self : entity)
  (cls : pyclass) (elem : Elem) (account : Account) :
  "occurrence" ∈ field_names (e_cls self) ->
  "occurrence" ∈ field_names cls ->
  (forall self',
     clean version self = (OK tt, self') ->
     getattr self' "occurrence" <> OK (PyInt (-1)) /\
     exists mid, base_clean version self = (OK tt, mid) /\
       (getattr mid "occurrence" = OK (PyInt (-1)) ->
        getattr self' "occurrence" = OK (PyInt 5)) /\
       (getattr mid "occurrence" = OK (PyInt 5) -> self' = mid)) /\
  (forall mid z,
     base_clean version self = (OK tt, mid) ->
     getattr mid "occurrence" = OK (PyInt z) ->
     exists self', clean version self = (OK tt, self') /\
       getattr self' "occurrence" = OK (PyInt (if z =? -1 then 5 else z)) /\
       (z <> -1 -> self' = mid)) /\
  (forall res,
     from_xml cls elem account = OK res ->
     getattr res "occurrence" <> OK (PyInt (-1)) /\
     exists mid, base_from_xml cls elem account = OK mid /\
       (getattr mid "occurrence" = OK (PyInt (-1)) ->
        getattr res "occurrence" = OK (PyInt 5)) /\
       (getattr mid "occurrence" = OK (PyInt 5) -> res = mid)) /\
  (forall mid z,
     base_from_xml cls elem account = OK mid -> e_cls mid = cls ->
     getattr mid "occurrence" = OK (PyInt z) ->
     exists res, from_xml cls elem account = OK res /\
       getattr res "occurrence" = OK (PyInt (if z =? -1 then 5 else z)) /\
       (z <> -1 -> res = mid)).
Proof.
  intros Hself Hcls. split; [|split; [|split]].
  - intros self'. unfold TimeZoneTransition_clean.
    destruct (base_clean version self) as [[[]|e] mid] eqn:Hb; [|done].
    intros Hs. apply settle_never_minus_one in Hs as (H1 & H2 & H3).
    split; [done|]. exists mid. by repeat split.
  - intros mid z Hb Hocc. unfold TimeZoneTransition_clean. rewrite Hb.
    apply settle_int; [|done].
    unfold EWSElement_clean in Hb. apply clean_fields_cls in Hb. by rewrite Hb.
  - intros res. unfold TimeZoneTransition_from_xml.
    destruct (base_from_xml cls elem account) as [mid|] eqn:Hb; [|done]. simpl.
    destruct (settle mid) as [[[]|e] res'] eqn:Hs; [|done].
    intros [= <-]. apply settle_never_minus_one in Hs as (H1 & H2 & H3).
    split; [done|]. exists mid. by repeat split.
  - intros mid z Hb Hc Hocc. unfold TimeZoneTransition_from_xml. rewrite Hb. simpl.
    destruct (settle_int mid z) as (res & -> & H1 & H2); [by rewrite Hc|done|].
    exists res. by repeat split.
Qed.

End OccurrenceFacts.

Lemma occurrence_is_transition_field :
  "occurrence" ∈ field_names StandardTime.
Proof. apply (bool_decide_eq_true_1 _). vm_compute. reflexivity. Qed.

(** A [StandardTime] with occurrence [-1] is cleaned to occurrence [5], and
    so is one unmarshalled from a source that says [-1]. *)
Lemma occurrence_never_minus_one_witness :
  let clean := TimeZoneTransition_clean sample_hash_atom sample_hash_tuple unit
                 (fun _ _ => true) sample_field_clean in
  let from_xml := TimeZoneTransition_from_xml sample_hash_atom sample_hash_tuple
                    (list (string * pyval)) unit sample_field_from_xml in
  "occurrence" ∈ field_names StandardTime /\
  (exists self',
     clean None (mkEntity StandardTime (transition_attrs 0 (-1) 10 7)) = (OK tt, self') /\
     getattr self' "occurrence" = OK (PyInt 5)) /\
  (exists res,
     from_xml StandardTime (transition_attrs 0 (-1) 10 7) tt = OK res /\
     getattr res "occurrence" = OK (PyInt 5)).
Proof.
  intros clean from_xml.
  pose proof (occurrence_never_minus_one sample_hash_atom sample_hash_tuple unit
                (fun _ _ => true) sample_field_clean (list (string * pyval)) unit
                sample_field_from_xml None
                (mkEntity StandardTime (transition_attrs 0 (-1) 10 7))
                StandardTime (transition_attrs 0 (-1) 10 7) tt
                occurrence_is_transition_field occurrence_is_transition_field)
    as (_ & Hclean & _ & Hxml).
  split; [exact occurrence_is_transition_field|]. split.
  - destruct (Hclean (mkEntity StandardTime (transition_attrs 0 (-1) 10 7)) (-1))
      as (self' & Hc & Ho & _); [vm_compute; reflexivity..|].
    exists self'. split; [exact Hc|exact Ho].
  - destruct (Hxml (mkEntity StandardTime (transition_attrs 0 (-1) 10 7)) (-1))
      as (res & Hr & Ho & _); [vm_compute; reflexivity..|].
    exists res. split; [exact Hr|exact Ho].
Defined.

(** ** Deriving a time zone from the server tables *)

Section DeriveFacts.

Import TimeZone.

Lemma dummy_standard_time_built :
  dummy_standard_time
  = OK (mkEntity StandardTime
          [("bias", PyInt 0); ("time", PyTime 0 0 0 0); ("occurrence", PyInt 1);
           ("iso_month", PyInt 1); ("weekday", PyInt 1)]).
Proof. vm_compute. reflexivity. Qed.

Lemma dummy_daylight_time_built :
  dummy_daylight_time
  = OK (mkEntity DaylightTime
          [("bias", PyInt 0); ("time", PyTime 0 0 0 0); ("occurrence", PyInt 5);
           ("iso_month", PyInt 12); ("weekday", PyInt 7)]).
Proof. vm_compute. reflexivity. Qed.

Lemma no_transitions for_year :
  _get_valid_transition_id ∅ for_year = Error (ValueError (NoValidTransition for_year)).
Proof. unfold _get_valid_transition_id. by rewrite map_to_list_empty. Qed.

(** [TimeZone(bias=..., standard_time=..., daylight_time=...)] *)
Lemma TimeZone_built (bias : Z) (std dst : pyval) :
  construct TimeZone_cls
    [("bias", PyInt bias); ("standard_time", std); ("daylight_time", dst)]
  = OK (mkEntity TimeZone_cls
          [("bias", PyInt bias); ("standard_time", std); ("daylight_time", dst)]).
Proof. reflexivity. Qed.

(** C2, as amended. With the base bias and the transition group selected:
    a group of one plain transition (one that names only its target period,
    which must be in the period table) yields the [TimeZone] with the base
    bias and the dummy zero-bias [StandardTime] and [DaylightTime]; a group
    with no transition yields the [TimeZone] with the base bias and neither
    descriptor; and an empty transition table makes the derivation fail. *)
Theorem dummy_descriptors_for_plain_transition (periods : periods_t)
  (transitions : transitions_t) (groups : groups_t) (for_year bias tg_id : Z)
  (tr : transition) (p : period) :
  _get_bias periods for_year = OK bias ->
  (_get_valid_transition_id transitions for_year = OK tg_id ->
   groups !! tg_id = Some [tr] -> recurring tr = None ->
   periods !! to tr = Some p ->
   exists std dst,
     dummy_standard_time = OK std /\ dummy_daylight_time = OK dst /\
     e_cls std = StandardTime /\ e_cls dst = DaylightTime /\
     getattr std "bias" = OK (PyInt 0) /\ getattr dst "bias" = OK (PyInt 0) /\
     from_server_timezone TimeZone_cls periods transitions groups for_year
     = OK (mkEntity TimeZone_cls
             [("bias", PyInt bias); ("standard_time", obj std);
              ("daylight_time", obj dst)])) /\
  (_get_valid_transition_id transitions for_year = OK tg_id ->
   groups !! tg_id = Some [] ->
   from_server_timezone TimeZone_cls periods transitions groups for_year
   = OK (mkEntity TimeZone_cls
           [("bias", PyInt bias); ("standard_time", PyNone);
            ("daylight_time", PyNone)])) /\
  from_server_timezone TimeZone_cls periods ∅ groups for_year
  = Error (ValueError (NoValidTransition for_year)).
Proof.
  intros Hb. unfold from_server_timezone. rewrite Hb. simpl.
  split; [|split].
  - intros Ht Hg Hr Hp. rewrite Ht. simpl. rewrite Hg. simpl.
    unfold _get_std_and_dst. simpl. rewrite Hp, Hr.
    rewrite dummy_standard_time_built, dummy_daylight_time_built. simpl.
    eexists _, _. repeat split.
  - intros Ht Hg. rewrite Ht. simpl. rewrite Hg. reflexivity.
  - by rewrite no_transitions.
Qed.

End DeriveFacts.

(** The spec's tables with a transition table that selects a group of one
    plain transition: bias 120 and the two dummy descriptors. *)
Lemma dummy_descriptors_for_plain_transition_witness :
  TimeZone._get_bias sample_periods 2020 = OK 120 /\
  exists std dst,
    e_cls std = StandardTime /\ e_cls dst = DaylightTime /\
    getattr std "bias" = OK (PyInt 0) /\ getattr dst "bias" = OK (PyInt 0) /\
    TimeZone.from_server_timezone TimeZone_cls sample_periods {[ 0 := None ]}
      {[ 0 := [plain_transition] ]} 2020
    = OK (mkEntity TimeZone_cls
            [("bias", PyInt 120); ("standard_time", obj std);
             ("daylight_time", obj dst)]).
Proof.
  assert (TimeZone._get_bias sample_periods 2020 = OK 120) as Hb
    by (vm_compute; reflexivity).
  split; [exact Hb|].
  destruct (dummy_descriptors_for_plain_transition sample_periods {[ 0 := None ]}
              {[ 0 := [plain_transition] ]} 2020 120 0 plain_transition
              (TimeZone.mkPeriod "Standard" 7200000000) Hb) as [H _].
  destruct H as (std & dst & _ & _ & H1 & H2 & H3 & H4 & H5);
    [vm_compute; reflexivity..|].
  exists std, dst. repeat split; assumption.
Defined.

(** C2 as stated fails.  The spec's own example (one standard period of 120
    minutes, an empty transition table, year 2020) raises the "no valid
    transition" error; and when the selected group holds zero transitions
    the [TimeZone] has bias 120 and no [StandardTime] or [DaylightTime] at
    all. *)
Lemma zero_transitions_counterexample :
  TimeZone.from_server_timezone TimeZone_cls sample_periods ∅ ∅ 2020
  = Error (ValueError (NoValidTransition 2020)) /\
  TimeZone.from_server_timezone TimeZone_cls sample_periods {[ 0 := None ]}
    {[ 0 := [] ]} 2020
  = OK (mkEntity TimeZone_cls
          [("bias", PyInt 120); ("standard_time", PyNone);
           ("daylight_time", PyNone)]).
Proof. split; vm_compute; reflexivity. Qed.

(** ** Matching a time zone against the server catalog *)

Section MatchingFacts.

Import TimeZone.

Variable hash_atom : pyval -> Z.
Variable hash_tuple : list Z -> Z.
Variable set_pop : gset string -> string.

Local Abbreviation eqv := (py_eq hash_atom hash_tuple).
Local Abbreviation nev := (py_ne hash_atom hash_tuple).
Local Abbreviation narrow := (matching_biases hash_atom hash_tuple).
Local Abbreviation derive self for_year tz :=
  (from_server_timezone (e_cls self) (tz_periods tz) (tz_transitions tz)
     (tz_transitions_groups tz) for_year).
Local Abbreviation exact self candidate :=
  (obj_eq hash_atom hash_tuple candidate (obj self)).

Lemma is_none_spec v : is_none v = true <-> v = PyNone.
Proof. destruct v; simpl; split; congruence. Qed.

Lemma is_none_false v : is_none v = false <-> v <> PyNone.
Proof. destruct v; simpl; split; congruence. Qed.

Lemma ne_false a b : (r <- nev a b ;; OK (negb r)) = OK true <-> eqv a b = OK true.
Proof.
  unfold py_ne. destruct (eqv a b) as [[|]|]; simpl; split; congruence.
Qed.

Lemma same_transition_bias_spec key candidate self :
  same_transition_bias hash_atom hash_tuple key candidate self = OK true <->
  descriptor_agrees hash_atom hash_tuple key candidate self.
Proof.
  unfold same_transition_bias, descriptor_agrees, same_bias.
  destruct (getattr candidate key) as [c|] eqn:Hc; simpl;
    [|split; [done|intros (? & ? & ? & _); done]].
  destruct (getattr self key) as [s|] eqn:Hs; simpl.
  2:{ destruct (is_none c); simpl;
        (split; [done|intros (? & ? & _ & ? & _); done]). }
  destruct (is_none c) eqn:Nc; simpl.
  - apply is_none_spec in Nc as ->. split.
    + intros [= Hn%is_none_spec]. subst s. exists PyNone, PyNone. by auto.
    + intros (c' & s' & [= <-] & [= <-] & [[_ ->]|[? _]]); done.
  - apply is_none_false in Nc. destruct (is_none s) eqn:Ns; simpl.
    + apply is_none_spec in Ns as ->. split; [done|].
      intros (c' & s' & [= <-] & [= <-] & [[-> _]|(_ & ? & _)]); done.
    + apply is_none_false in Ns.
      destruct (getattr_val c "bias") as [cb|] eqn:Hcb; simpl.
      2:{ split; [done|].
          intros (c' & s' & [= <-] & [= <-] & [[-> _]|(_ & _ & cb & sb & H & _)]);
            [done|]. rewrite Hcb in H. done. }
      destruct (getattr_val s "bias") as [sb|] eqn:Hsb; simpl.
      2:{ split; [done|].
          intros (c' & s' & [= <-] & [= <-] & [[-> _]|(_ & _ & cb' & sb & _ & H & _)]);
            [done|]. rewrite Hsb in H. done. }
      rewrite ne_false. split.
      * intros He. exists c, s. split; [done|]. split; [done|]. right.
        split; [done|]. split; [done|]. by exists cb, sb.
      * intros (c' & s' & [= <-] & [= <-] & [[-> _]|(_ & _ & cb' & sb' & H1 & H2 & He)]);
          [done|]. rewrite Hcb in H1. rewrite Hsb in H2. congruence.
Qed.

(** The narrowing test answers [True] exactly on the condition of the
    specification. *)
Lemma matching_biases_spec candidate self :
  narrow candidate self = OK true <-> biases_agree hash_atom hash_tuple candidate self.
Proof.
  unfold matching_biases, biases_agree, same_bias. simpl.
  fold (getattr candidate "bias"). fold (getattr self "bias").
  rewrite <- !same_transition_bias_spec.
  destruct (getattr candidate "bias") as [cb|] eqn:Hc; simpl;
    [|split; [done|intros [(? & ? & ? & _) _]; done]].
  destruct (getattr self "bias") as [sb|] eqn:Hs; simpl;
    [|split; [done|intros [(? & ? & _ & ? & _) _]; done]].
  unfold py_ne. destruct (eqv cb sb) as [[|]|] eqn:He; simpl.
  - destruct (same_transition_bias _ _ "standard_time" candidate self)
      as [[|]|]; simpl.
    + split; [intros H; split; [by exists cb, sb|by split]|by intros (_ & _ & H)].
    + split; [done|by intros (_ & ? & _)].
    + split; [done|by intros (_ & ? & _)].
  - split; [done|]. intros [(cb' & sb' & [= <-] & [= <-] & H) _]. congruence.
  - split; [done|]. intros [(cb' & sb' & [= <-] & [= <-] & H) _]. congruence.
Qed.

(** The loop returns at an exact match, whatever was collected before. *)
Lemma scan_exact self for_year tz after candidate : forall before candidates,
  Forall (passed_over hash_atom hash_tuple self for_year) before ->
  derive self for_year tz = OK candidate ->
  exact self candidate = OK true ->
  scan hash_atom hash_tuple self for_year (before ++ tz :: after) candidates
  = OK (inl (tz_id tz)).
Proof.
  induction before as [|t before IH]; intros candidates Hpass Hd He; simpl.
  - rewrite Hd. simpl. rewrite He. done.
  - apply Forall_cons in Hpass as [(c & b & Hc & Hn & Hm) Hpass].
    rewrite Hc. simpl. rewrite Hn. simpl. rewrite Hm. simpl. by apply IH.
Qed.

(** An error raised at an entry ends the loop, whatever was collected
    before. *)
Lemma scan_error self for_year tz after e : forall before candidates,
  Forall (passed_over hash_atom hash_tuple self for_year) before ->
  fails_with hash_atom hash_tuple self for_year tz e ->
  scan hash_atom hash_tuple self for_year (before ++ tz :: after) candidates
  = Error e.
Proof.
  induction before as [|t before IH]; intros candidates Hpass Hf; simpl.
  - destruct Hf as [->|(c & -> & [He|[He Hm]])]; simpl; [done| |].
    + by rewrite He.
    + by rewrite He, Hm.
  - apply Forall_cons in Hpass as [(c & b & Hc & Hn & Hm) Hpass].
    rewrite Hc. simpl. rewrite Hn. simpl. rewrite Hm. simpl. by apply IH.
Qed.

(** Without an exact match the loop ends with the ids of the qualifying
    entries added to the candidate set. *)
Lemma scan_candidates self for_year : forall timezones candidates,
  Forall (passed_over hash_atom hash_tuple self for_year) timezones ->
  scan hash_atom hash_tuple self for_year timezones candidates
  = OK (inr (candidates ∪
             list_to_set (tz_id <$> filter (fun t => qualifies hash_atom hash_tuple
                                                       self for_year t = true)
                                           timezones))).
Proof.
  induction timezones as [|t timezones IH]; intros candidates Hpass.
  - cbn [scan]. rewrite filter_nil, fmap_nil, list_to_set_nil.
    by rewrite (right_id_L ∅ (∪)).
  - apply Forall_cons in Hpass as [(c & b & Hc & Hn & Hm) Hpass].
    assert (qualifies hash_atom hash_tuple self for_year t = b) as Hq.
    { unfold qualifies. by rewrite Hc, Hm. }
    rewrite filter_cons, Hq. cbn [scan].
    rewrite Hc. simpl. rewrite Hn. simpl. rewrite Hm. simpl.
    rewrite IH by done. f_equal. f_equal.
    destruct b.
    + rewrite decide_True by done.
      by rewrite fmap_cons, list_to_set_cons, (assoc_L (∪)).
    + rewrite decide_False by done. done.
Qed.

(** C3, as amended. [to_server_timezone] returns the id of the first
    catalog entry whose derived time zone equals the local one, the entries
    before it having been derived and compared without an exact match.  When
    every entry is derived and compared and none is an exact match, the
    entries that qualify are those whose derived time zone has the same base
    bias and, for the standard and the daylight descriptor each, either none
    on both sides or one on both sides with equal bias; with no qualifying
    entry the call fails with the "no server timezones match" error, with
    exactly one it returns that entry's id, and otherwise the id of one of
    the qualifying entries.  An error raised at an entry that the loop
    reaches is the outcome of the call. *)
Theorem to_server_timezone_contract (self : entity)
  (timezones : list server_tz) (for_year : Z) :
  let result := to_server_timezone hash_atom hash_tuple set_pop self timezones for_year in
  let qualifying :=
    filter (fun t => qualifies hash_atom hash_tuple self for_year t = true) timezones in
  (forall before tz after candidate,
     timezones = before ++ tz :: after ->
     Forall (passed_over hash_atom hash_tuple self for_year) before ->
     derive self for_year tz = OK candidate ->
     exact self candidate = OK true ->
     result = OK (tz_id tz)) /\
  (forall tz, tz ∈ qualifying <->
     tz ∈ timezones /\
     exists candidate, derive self for_year tz = OK candidate /\
                       biases_agree hash_atom hash_tuple candidate self) /\
  ((forall s, s <> ∅ -> set_pop s ∈ s) ->
   Forall (passed_over hash_atom hash_tuple self for_year) timezones ->
   (qualifying = [] -> result = Error (ValueError NoMatchingTimezone)) /\
   (forall tz, qualifying = [tz] -> result = OK (tz_id tz)) /\
   (qualifying <> [] -> exists tz, tz ∈ qualifying /\ result = OK (tz_id tz))) /\
  (forall before tz after e,
     timezones = before ++ tz :: after ->
     Forall (passed_over hash_atom hash_tuple self for_year) before ->
     fails_with hash_atom hash_tuple self for_year tz e ->
     result = Error e).
Proof.
  intros result qualifying. split; [|split; [|split]].
  4:{ intros before tz after e -> Hpass Hf.
      unfold result, to_server_timezone.
      by rewrite (scan_error self for_year tz after e before ∅ Hpass Hf). }
  - intros before tz after candidate -> Hpass Hd He.
    unfold result, to_server_timezone.
    by rewrite (scan_exact self for_year tz after candidate before ∅ Hpass Hd He).
  - intros tz. unfold qualifying. rewrite list_elem_of_filter.
    unfold qualifies. split.
    + intros [Hq Hin]. split; [done|].
      destruct (derive self for_year tz) as [c|]; [|done].
      exists c. split; [done|]. apply matching_biases_spec.
      destruct (narrow c self) as [b|]; [by subst|done].
    + intros [Hin (c & Hc & Hb)]. split; [|done].
      rewrite Hc. apply matching_biases_spec in Hb. by rewrite Hb.
  - intros Hpop Hpass. unfold result, to_server_timezone.
    rewrite (scan_candidates self for_year timezones ∅ Hpass). simpl.
    fold qualifying.
    set (ids := ∅ ∪ list_to_set (tz_id <$> qualifying) : gset string).
    assert (forall i, i ∈ ids <-> exists tz, tz ∈ qualifying /\ tz_id tz = i) as Hids.
    { intros i. unfold ids. rewrite elem_of_union, elem_of_list_to_set, list_elem_of_fmap.
      split.
      - intros [H|(tz & -> & Hin)]; [by apply not_elem_of_empty in H|]. by exists tz.
      - intros (tz & Hin & <-). right. by exists tz. }
    split; [|split].
    + intros Hq. rewrite decide_True; [done|].
      unfold ids. rewrite Hq, fmap_nil, list_to_set_nil. by rewrite (left_id_L ∅ (∪)).
    + intros tz Hq. destruct (decide (ids = ∅)) as [He|Hne].
      * exfalso. assert (tz_id tz ∈ ids) as Hin.
        { apply Hids. exists tz. split; [|done]. rewrite Hq. left. }
        rewrite He in Hin. by apply not_elem_of_empty in Hin.
      * f_equal. apply Hpop, Hids in Hne as (tz' & Hin & <-).
        rewrite Hq in Hin. apply list_elem_of_singleton in Hin. by subst.
    + intros Hq. destruct (decide (ids = ∅)) as [He|Hne].
      * exfalso. destruct qualifying as [|tz rest] eqn:Eq; [done|].
        assert (tz_id tz ∈ ids) as Hin.
        { apply Hids. exists tz. split; [left|done]. }
        rewrite He in Hin. by apply not_elem_of_empty in Hin.
      * apply Hpop, Hids in Hne as (tz & Hin & Hid).
        exists tz. split; [done|]. by rewrite Hid.
Qed.

End MatchingFacts.

Lemma sample_set_pop_elem (s : gset string) : s <> ∅ -> sample_set_pop s ∈ s.
Proof.
  intros Hne. unfold sample_set_pop.
  destruct (elements s) as [|x l] eqn:He.
  - exfalso. apply Hne. apply leibniz_equiv. by apply elements_empty_inv.
  - simpl. apply elem_of_elements. rewrite He. left.
Qed.

(** A catalog of a zone three hours east and the sample zone one hour east:
    the local zone with the same rules is an exact match; the local zone
    whose standard time starts an hour later is no exact match of either
    and has the sample zone as its single candidate; against the far zone
    alone nothing matches. *)
Lemma to_server_timezone_contract_witness :
  let to_server := TimeZone.to_server_timezone sample_hash_atom sample_hash_tuple
                     sample_set_pop in
  (forall s, s <> ∅ -> sample_set_pop s ∈ s) /\
  to_server (sample_local_tz 3) [sample_far_entry; sample_catalog_entry] 2020
  = OK "W. Europe Standard Time" /\
  to_server (sample_local_tz 4) [sample_far_entry; sample_catalog_entry] 2020
  = OK "W. Europe Standard Time" /\
  to_server (sample_local_tz 4) [sample_far_entry] 2020
  = Error (ValueError NoMatchingTimezone).
Proof.
  intros to_server. unfold to_server. clear to_server.
  assert (passed_over sample_hash_atom sample_hash_tuple
            (sample_local_tz 3) 2020 sample_far_entry) as Hfar3.
  { eexists _, false. repeat split; vm_compute; reflexivity. }
  assert (passed_over sample_hash_atom sample_hash_tuple
            (sample_local_tz 4) 2020 sample_far_entry) as Hfar.
  { eexists _, false. repeat split; vm_compute; reflexivity. }
  assert (passed_over sample_hash_atom sample_hash_tuple
            (sample_local_tz 4) 2020 sample_catalog_entry) as Hnear.
  { eexists _, true. repeat split; vm_compute; reflexivity. }
  split; [exact sample_set_pop_elem|]. split; [|split].
  - destruct (to_server_timezone_contract sample_hash_atom sample_hash_tuple
                sample_set_pop (sample_local_tz 3)
                [sample_far_entry; sample_catalog_entry] 2020) as [H _].
    eapply (H [sample_far_entry] sample_catalog_entry []); [reflexivity| | |].
    + constructor; [apply Hfar3|constructor].
    + vm_compute. reflexivity.
    + vm_compute. reflexivity.
  - destruct (to_server_timezone_contract sample_hash_atom sample_hash_tuple
                sample_set_pop (sample_local_tz 4)
                [sample_far_entry; sample_catalog_entry] 2020) as (_ & _ & H & _).
    destruct (H sample_set_pop_elem) as (_ & H1 & _).
    { constructor; [apply Hfar|]. constructor; [exact Hnear|constructor]. }
    apply (H1 sample_catalog_entry). vm_compute. reflexivity.
  - destruct (to_server_timezone_contract sample_hash_atom sample_hash_tuple
                sample_set_pop (sample_local_tz 4) [sample_far_entry] 2020)
      as (_ & _ & H & _).
    destruct (H sample_set_pop_elem) as (H0 & _).
    { constructor; [apply Hfar|constructor]. }
    apply H0. vm_compute. reflexivity.
Defined.

(** C3 as stated fails when an entry of the catalog cannot be derived. The
    local zone below has exactly one qualifying entry in the catalog, the
    sample zone (and no exact match); the entry after it has an empty
    transition table, and the call raises the "no valid transition" error
    of the derivation instead of returning the id of the qualifying entry.
    With the broken entry alone no entry qualifies, and the error is again
    that of the derivation, not "no server timezones match". *)
Lemma to_server_timezone_counterexample :
  let self := sample_local_tz 4 in
  filter (fun t => qualifies sample_hash_atom sample_hash_tuple self 2020 t = true)
         [sample_catalog_entry; sample_broken_entry]
  = [sample_catalog_entry] /\
  TimeZone.to_server_timezone sample_hash_atom sample_hash_tuple sample_set_pop
    self [sample_catalog_entry; sample_broken_entry] 2020
  = Error (ValueError (NoValidTransition 2020)) /\
  TimeZone.to_server_timezone sample_hash_atom sample_hash_tuple sample_set_pop
    self [sample_broken_entry] 2020
  = Error (ValueError (NoValidTransition 2020)).
Proof. cbv zeta. repeat split; vm_compute; reflexivity. Qed.

(** * Further properties *)

(** ** Fields: positions, insertion and removal *)

Lemma not_elem_by_computation (n : string) (l : list string) :
  bool_decide (n ∉ l) = true -> n ∉ l.
Proof. apply bool_decide_eq_true_1. Qed.

Lemma elem_by_computation (n : string) (l : list string) :
  bool_decide (n ∈ l) = true -> n ∈ l.
Proof. apply bool_decide_eq_true_1. Qed.

Section FieldsOperations.

Import FieldsM.

Lemma index_by_name_find (self : Fields) (n : string) :
  index_by_name self n
  = match list_find (fun f => name f = n) (items self) with
    | Some (k, _) => OK (Z.of_nat k)
    | None => Error (ValueError (UnknownFieldName n))
    end.
Proof.
  unfold index_by_name.
  enough (forall l i,
    (fix go (l : list Field) (i : Z) : result Z :=
       match l with
       | [] => Error (ValueError (UnknownFieldName n))
       | f :: l' => if String.eqb (name f) n then OK i else go l' (i + 1)
       end) l i
    = match list_find (fun f => name f = n) l with
      | Some (k, _) => OK (i + Z.of_nat k)
      | None => Error (ValueError (UnknownFieldName n))
      end) as H by (rewrite H; by destruct (list_find _ _) as [[k f]|]).
  induction l as [|f l IH]; intros i; [done|].
  rewrite IH. cbn [list_find]. rewrite string_eqb_decide.
  destruct (decide (name f = n)) as [Hn|Hn].
  - rewrite bool_decide_eq_true_2 by done. simpl. f_equal. lia.
  - rewrite bool_decide_eq_false_2 by done.
    destruct (list_find _ l) as [[k g]|]; simpl; [f_equal; lia|done].
Qed.

Lemma index_by_name_scan (self : Fields) (n : string) :
  match index_by_name self n with
  | OK i =>
      exists k f, i = Z.of_nat k /\ items self !! k = Some f /\ name f = n /\
                  forall j g, items self !! j = Some g -> (j < k)%nat -> name g <> n
  | Error e => e = ValueError (UnknownFieldName n) /\ n ∉ names self
  end.
Proof.
  rewrite index_by_name_find.
  destruct (list_find _ _) as [[k f]|] eqn:Hf.
  - apply list_find_Some in Hf as (Hl & Hn & Hfirst). by exists k, f.
  - split; [done|]. apply list_find_None in Hf. rewrite Forall_forall in Hf.
    intros Hin. apply list_elem_of_fmap in Hin as (g & Hn & Hg).
    by apply (Hf g).
Qed.

(** X1. [index_by_name] gives the position of the first field with that name,
    and raises exactly when no field has it. *)
Theorem index_by_name_first_match (self : Fields) (n : string) :
  match index_by_name self n with
  | OK i =>
      exists k f, i = Z.of_nat k /\ items self !! k = Some f /\ name f = n /\
                  forall j g, items self !! j = Some g -> (j < k)%nat -> name g <> n
  | Error e => e = ValueError (UnknownFieldName n) /\ n ∉ names self
  end.
Proof.
  rewrite index_by_name_find.
  destruct (list_find (fun f => name f = n) (items self)) as [[k f]|] eqn:Hfind.
  - apply list_find_Some in Hfind as (Hk & Hname & Hearlier).
    exists k, f. split; [done|]. split; [done|]. split; [done|].
    intros j g Hj Hlt. by apply (Hearlier j g).
  - split; [done|]. intros Hin.
    apply list_elem_of_fmap in Hin as (g & Hname & Hg).
    apply list_find_None in Hfind. rewrite Forall_forall in Hfind.
    by apply (Hfind g).
Qed.

Lemma getitem_int_lookup (self : Fields) (k : nat) (f : Field) :
  items self !! k = Some f ->
  getitem_int self (Z.of_nat k) = OK f /\
  getitem_int self (Z.of_nat k - Z.of_nat (length (items self))) = OK f.
Proof.
  intros Hl. pose proof (lookup_lt_Some _ _ _ Hl) as Hlt.
  unfold getitem_int, PyList.getitem. cbv zeta. split.
  - destruct (Z.ltb_spec (Z.of_nat k) 0); [lia|].
    destruct (Z.ltb_spec (Z.of_nat k) 0); [lia|].
    destruct (Z.leb_spec (Z.of_nat (length (items self))) (Z.of_nat k)); [lia|].
    simpl. by rewrite Nat2Z.id, Hl.
  - destruct (Z.ltb_spec (Z.of_nat k - Z.of_nat (length (items self))) 0); [|lia].
    replace (Z.of_nat k - Z.of_nat (length (items self)) + Z.of_nat (length (items self)))
      with (Z.of_nat k) by lia.
    destruct (Z.ltb_spec (Z.of_nat k) 0); [lia|].
    destruct (Z.leb_spec (Z.of_nat (length (items self))) (Z.of_nat k)); [lia|].
    simpl. by rewrite Nat2Z.id, Hl.
Qed.

(** X2. In a well-formed container the lookup by name and the lookup by the
    position [index_by_name] gives (counted from either end) return the same
    field, and the two fail together. *)
Theorem Fields_lookups_agree (self : Fields) (n : string) :
  wf self ->
  match index_by_name self n with
  | OK i =>
      exists f, name f = n /\
                getitem_str self n = OK f /\
                getitem_int self i = OK f /\
                getitem_int self (i - Z.of_nat (length (items self))) = OK f
  | Error _ => getitem_str self n = Error KeyError
  end.
Proof.
  intros [Hnd Hd].
  pose proof (index_by_name_scan self n) as H.
  destruct (index_by_name self n) as [i|e].
  - destruct H as (k & f & -> & Hl & Hn & _). exists f.
    destruct (getitem_int_lookup self k f Hl) as [H1 H2].
    repeat split; try done.
    unfold getitem_str.
    assert (_dict self !! n = Some f) as ->; [|done].
    apply Hd. split; [by eapply list_elem_of_lookup_2|done].
  - destruct H as [_ Hn]. unfold getitem_str.
    destruct (_dict self !! n) as [f|] eqn:Hf; [|done].
    apply Hd in Hf as [Hf Hname]. exfalso. apply Hn.
    apply list_elem_of_fmap. by exists f.
Qed.

Lemma insert_index_range (n i : Z) : 0 <= n -> 0 <= PyList.insert_index n i <= n.
Proof.
  intros Hn. unfold PyList.insert_index.
  destruct (Z.ltb_spec i 0);
    repeat match goal with |- context [?a <? ?b] => destruct (Z.ltb_spec a b) end; lia.
Qed.

(** X3. [insert] of a field with a new name into a well-formed container: the
    field is found under its name and at the clamped position, every other
    name resolves as before, and the fields that were there keep their
    order, those from the insertion point on moved up by one. *)
Theorem Fields_insert_lookup (self : Fields) (index : Z) (field : Field) :
  wf self -> name field ∉ names self ->
  let pos := PyList.insert_index (Z.of_nat (length (items self))) index in
  exists self',
    insert self index field = (OK tt, self') /\
    length (items self') = S (length (items self)) /\
    getitem_str self' (name field) = OK field /\
    index_by_name self' (name field) = OK pos /\
    (forall n, n <> name field -> getitem_str self' n = getitem_str self n) /\
    (forall n i, n <> name field -> index_by_name self n = OK i ->
                 index_by_name self' n = OK (if i <? pos then i else i + 1)).
Proof.
  intros Hwf Hnew pos.
  assert (_dict self !! name field = None) as Hnone.
  { apply eq_None_not_Some. by rewrite (wf_name_in self field Hwf). }
  pose proof (insert_index_range (Z.of_nat (length (items self))) index
                ltac:(lia)) as Hrange.
  fold pos in Hrange.
  eexists. split; [unfold insert; by rewrite Hnone|].
  unfold PyList.insert. cbv zeta. fold pos.
  set (k := Z.to_nat pos).
  assert ((k <= length (items self))%nat) as Hk by lia.
  assert (length (take k (items self)) = k) as Hlen by (rewrite length_take; lia).
  cbn [items _dict].
  split; [|split; [|split; [|split]]].
  - rewrite length_app, Hlen. cbn [length]. rewrite length_drop. lia.
  - unfold getitem_str. cbn [_dict]. by rewrite lookup_insert_eq.
  - rewrite index_by_name_find. cbn [items].
    assert (list_find (fun f => name f = name field)
              (take k (items self) ++ field :: drop k (items self))
            = Some (k, field)) as ->.
    { apply list_find_Some. split; [|split; [done|]].
      - rewrite lookup_app_r by lia. by rewrite Hlen, Nat.sub_diag.
      - intros j g Hj Hlt Hg. rewrite lookup_app_l in Hj by lia.
        apply lookup_take_Some in Hj as [Hj _].
        apply Hnew. rewrite <- Hg. apply list_elem_of_fmap.
        exists g. split; [done|]. by eapply list_elem_of_lookup_2. }
    f_equal. lia.
  - intros n Hn. unfold getitem_str. cbn [_dict].
    by rewrite lookup_insert_ne.
  - intros n i Hn Hi. rewrite index_by_name_find in Hi |- *. cbn [items].
    destruct (list_find _ (items self)) as [[j g]|] eqn:Hf; [|done].
    injection Hi as <-.
    apply list_find_Some in Hf as (Hj & Hg & Hfirst).
    assert (list_find (fun f => name f = n)
              (take k (items self) ++ field :: drop k (items self))
            = Some (if bool_decide (j < k)%nat then j else S j, g)) as ->.
    { apply list_find_Some. case_bool_decide as Hjk.
      - split; [|split; [done|]].
        + rewrite lookup_app_l by lia. by rewrite lookup_take_lt.
        + intros j' g' Hj' Hlt. rewrite lookup_app_l in Hj' by lia.
          apply lookup_take_Some in Hj' as [Hj' _]. by eapply Hfirst.
      - split; [|split; [done|]].
        + rewrite lookup_app_r by lia. rewrite Hlen.
          replace (S j - k)%nat with (S (j - k)) by lia.
          change ((field :: drop k (items self)) !! S (j - k)%nat)
            with (drop k (items self) !! (j - k)%nat).
          rewrite lookup_drop. rewrite <- Hj. f_equal. lia.
        + intros j' g' Hj' Hlt.
          destruct (decide (j' < k)%nat) as [Hlt'|Hge].
          * rewrite lookup_app_l in Hj' by lia.
            apply lookup_take_Some in Hj' as [Hj' _]. eapply Hfirst; [done|lia].
          * rewrite lookup_app_r in Hj' by lia. rewrite Hlen in Hj'.
            destruct (j' - k)%nat as [|m] eqn:Hm.
            -- injection Hj' as <-. congruence.
            -- change (drop k (items self) !! m = Some g') in Hj'.
               rewrite lookup_drop in Hj'.
               eapply Hfirst; [done|lia]. }
    f_equal. case_bool_decide as Hjk.
    + destruct (Z.ltb_spec (Z.of_nat j) pos); lia.
    + destruct (Z.ltb_spec (Z.of_nat j) pos); lia.
Qed.

End FieldsOperations.

Lemma Fields_lookups_agree_witness :
  FieldsM.wf ItemId_FIELDS /\
  FieldsM.index_by_name ItemId_FIELDS "changekey" = OK 1 /\
  exists f, name f = "changekey" /\
            FieldsM.getitem_str ItemId_FIELDS "changekey" = OK f /\
            FieldsM.getitem_int ItemId_FIELDS 1 = OK f /\
            FieldsM.getitem_int ItemId_FIELDS (-1) = OK f.
Proof.
  split; [exact ItemId_FIELDS_wf|]. split; [reflexivity|].
  exact (Fields_lookups_agree ItemId_FIELDS "changekey" ItemId_FIELDS_wf).
Defined.

Lemma Fields_insert_lookup_witness :
  FieldsM.wf ItemId_FIELDS /\ (name sample_colour ∉ FieldsM.names ItemId_FIELDS) /\
  exists self',
    FieldsM.insert ItemId_FIELDS (-1) sample_colour = (OK tt, self') /\
    FieldsM.index_by_name self' "colour" = OK 1 /\
    FieldsM.index_by_name self' "changekey" = OK 2.
Proof.
  assert (name sample_colour ∉ FieldsM.names ItemId_FIELDS) as Hnew
    by (apply not_elem_by_computation; vm_compute; reflexivity).
  split; [exact ItemId_FIELDS_wf|]. split; [exact Hnew|].
  destruct (Fields_insert_lookup ItemId_FIELDS (-1) sample_colour
              ItemId_FIELDS_wf Hnew) as (self' & Hins & _ & _ & Hpos & _ & Hothers).
  exists self'. split; [exact Hins|]. split; [exact Hpos|].
  exact (Hothers "changekey" 1 ltac:(discriminate) eq_refl).
Defined.

(** ** Fields.remove *)

Section FieldsRemoval.

Import FieldsM.

Variable field_eq : Field -> Field -> bool.

Lemma list_remove_spec (x : Field) : forall l,
  match list_remove field_eq l x with
  | Some l' =>
      exists before g after,
        l = before ++ g :: after /\ l' = before ++ after /\
        field_eq g x = true /\ Forall (fun h => field_eq h x = false) before
  | None => Forall (fun h => field_eq h x = false) l
  end.
Proof.
  induction l as [|y l IH]; simpl; [done|].
  destruct (field_eq y x) eqn:Hy.
  - by exists [], y, l.
  - destruct (list_remove field_eq l x) as [l'|]; simpl.
    + destruct IH as (before & g & after & -> & -> & Hg & Hb).
      exists (y :: before), g, after. repeat split; try done. by constructor.
    + by constructor.
Qed.

Lemma wf_delete (before after : list Field) (g : Field) (d : gmap string Field) :
  wf (mkFields (before ++ g :: after) d) ->
  wf (mkFields (before ++ after) (delete (name g) d)) /\
  name g ∉ name <$> (before ++ after).
Proof.
  intros [Hnd Hd]. unfold names in Hnd. cbn [items _dict] in *.
  rewrite fmap_app, fmap_cons in Hnd.
  apply NoDup_app in Hnd as (Hb & Hdisj & Hga).
  apply NoDup_cons in Hga as [Hg Ha].
  assert (name g ∉ name <$> (before ++ after)) as Hout.
  { rewrite fmap_app. intros [Hin|Hin]%elem_of_app; [|done].
    apply (Hdisj _ Hin). by left. }
  split; [|done]. split.
  - unfold names. cbn [items]. rewrite fmap_app. apply NoDup_app.
    split; [done|]. split; [|done].
    intros n Hn Hn'. apply (Hdisj n Hn). by right.
  - intros n f. cbn [items _dict]. split.
    + intros Hl. apply lookup_delete_Some in Hl as [Hne Hl].
      apply Hd in Hl as [Hin Hname]. split; [|done].
      apply elem_of_app in Hin as [Hin|Hin]; [apply elem_of_app; by left|].
      apply elem_of_cons in Hin as [->|Hin]; [congruence|].
      apply elem_of_app. by right.
    + intros [Hin Hname]. apply lookup_delete_Some. split.
      * intros Heq. apply Hout. rewrite Heq, <- Hname.
        apply list_elem_of_fmap. by exists f.
      * apply Hd. split; [|done].
        apply elem_of_app in Hin as [Hin|Hin]; apply elem_of_app; [by left|].
        right. by right.
Qed.

(** X4. [remove] in a well-formed container, when only fields of the same name
    compare equal: the first field equal to the argument leaves the list and
    the name index, the invariant is kept and every other name resolves as
    before; when no field compares equal the call raises and changes
    nothing. *)
Theorem Fields_remove_spec (self : Fields) (field : Field) :
  wf self ->
  (forall g, g ∈ items self -> field_eq g field = true -> name g = name field) ->
  match Fields_remove field_eq self field with
  | (Returns _, self') =>
      (exists before g after,
         items self = before ++ g :: after /\ items self' = before ++ after /\
         field_eq g field = true /\
         Forall (fun h => field_eq h field = false) before) /\
      wf self' /\
      getitem_str self' (name field) = Error KeyError /\
      (forall n, n <> name field -> getitem_str self' n = getitem_str self n)
  | (Raises e, self') =>
      e = NotInList /\ self' = self /\
      Forall (fun h => field_eq h field = false) (items self)
  end.
Proof.
  intros Hwf Hsame. unfold Fields_remove.
  pose proof (list_remove_spec field (items self)) as Hrm.
  destruct (list_remove field_eq (items self) field) as [l'|]; [|done].
  destruct Hrm as (before & g & after & Hitems & -> & Hg & Hb).
  assert (name g = name field) as Hname.
  { apply Hsame; [|done]. rewrite Hitems. apply elem_of_app. right. by left. }
  assert (_dict self !! name field = Some g) as Hl.
  { destruct Hwf as [_ Hd]. apply Hd. split; [|done].
    rewrite Hitems. apply elem_of_app. right. by left. }
  rewrite Hl.
  destruct self as [l d]. cbn [items _dict] in *. subst l.
  destruct (wf_delete before after g d Hwf) as [Hwf' Hout].
  rewrite Hname in Hwf', Hout.
  split; [by exists before, g, after|]. split; [done|]. split.
  - unfold getitem_str. cbn [_dict]. by rewrite lookup_delete_eq.
  - intros n Hn. unfold getitem_str. cbn [_dict]. by rewrite lookup_delete_ne.
Qed.

Lemma list_remove_inserted (x : Field) (after : list Field) : forall before,
  Forall (fun h => field_eq h x = false) before ->
  field_eq x x = true ->
  list_remove field_eq (before ++ x :: after) x = Some (before ++ after).
Proof.
  intros before Hb Hx. induction Hb as [|y before Hy Hb IH]; simpl.
  - by rewrite Hx.
  - by rewrite Hy, IH.
Qed.

Lemma insert_then_remove (self : Fields) (index : Z) (field : Field) :
  wf self -> name field ∉ names self ->
  field_eq field field = true ->
  (forall g, field_eq g field = true -> name g = name field) ->
  exists self',
    insert self index field = (OK tt, self') /\
    Fields_remove field_eq self' field = (Returns tt, self).
Proof.
  intros Hwf Hnew Hrefl Hsame.
  assert (_dict self !! name field = None) as Hnone.
  { apply eq_None_not_Some. by rewrite (wf_name_in self field Hwf). }
  eexists. split; [unfold insert; by rewrite Hnone|].
  unfold Fields_remove, PyList.insert. cbv zeta. cbn [items _dict].
  set (k := Z.to_nat _).
  rewrite list_remove_inserted; [| |done].
  - rewrite lookup_insert_eq, take_drop, delete_insert_id by done.
    by destruct self.
  - apply Forall_forall. intros h Hh.
    destruct (field_eq h field) eqn:Heq; [|done].
    exfalso. apply Hnew. rewrite <- (Hsame h Heq).
    apply list_elem_of_fmap. exists h. split; [done|].
    by apply (subseteq_take k (items self)).
Qed.

(** X5. Inserting a field with a new name and removing it again gives back the
    container as it was, list and name index, wherever it was inserted. *)
Theorem Fields_insert_remove (self : Fields) (index : Z) (field : Field) :
  wf self -> name field ∉ names self ->
  field_eq field field = true ->
  (forall g, field_eq g field = true -> name g = name field) ->
  exists self',
    insert self index field = (OK tt, self') /\
    Fields_remove field_eq self' field = (Returns tt, self).
Proof.
  intros Hwf Hnew Hrefl Hsame.
  assert (_dict self !! name field = None) as Hnone.
  { apply eq_None_not_Some. by rewrite (wf_name_in self field Hwf). }
  exists (mkFields (PyList.insert (items self) index field)
                   (<[name field := field]> (_dict self))).
  split; [unfold insert; by rewrite Hnone|].
  unfold Fields_remove, PyList.insert. cbv zeta. cbn [items _dict].
  set (k := Z.to_nat _).
  assert (Forall (fun h => field_eq h field = false) (take k (items self))) as Hnot.
  { apply Forall_forall. intros h Hh.
    destruct (field_eq h field) eqn:Heq; [|done].
    exfalso. apply Hnew. rewrite <- (Hsame h Heq).
    apply list_elem_of_fmap. exists h. split; [done|].
    by apply (subseteq_take k (items self)). }
  rewrite (list_remove_inserted field (drop k (items self)) _ Hnot Hrefl).
  rewrite lookup_insert_eq, take_drop, delete_insert_id by done.
  by destruct self.
Qed.

End FieldsRemoval.

Lemma sample_field_eq_name (a b : Field) :
  sample_field_eq a b = true -> name a = name b.
Proof. apply String.eqb_eq. Qed.

Lemma Fields_remove_spec_witness :
  FieldsM.wf ItemId_FIELDS /\
  exists self',
    Fields_remove sample_field_eq ItemId_FIELDS (mkField "id" false IdField)
    = (Returns tt, self') /\
    FieldsM.wf self' /\
    FieldsM.getitem_str self' "id" = Error KeyError.
Proof.
  split; [exact ItemId_FIELDS_wf|].
  pose proof (Fields_remove_spec sample_field_eq ItemId_FIELDS
                (mkField "id" false IdField) ItemId_FIELDS_wf
                (fun g _ => sample_field_eq_name g _)) as H.
  destruct (Fields_remove _ _ _) as [[[]|e] self'] eqn:Hrm.
  - exists self'. split; [reflexivity|]. by destruct H as (_ & Hwf & Hget & _).
  - exfalso. destruct H as (_ & _ & Hall). vm_compute in Hall.
    inversion Hall as [|? ? Hhd _]. discriminate Hhd.
Defined.

Lemma Fields_insert_remove_witness :
  FieldsM.wf ItemId_FIELDS /\ (name sample_colour ∉ FieldsM.names ItemId_FIELDS) /\
  sample_field_eq sample_colour sample_colour = true /\
  exists self',
    FieldsM.insert ItemId_FIELDS 1 sample_colour = (OK tt, self') /\
    Fields_remove sample_field_eq self' sample_colour = (Returns tt, ItemId_FIELDS).
Proof.
  assert (name sample_colour ∉ FieldsM.names ItemId_FIELDS) as Hnew
    by (apply not_elem_by_computation; vm_compute; reflexivity).
  split; [exact ItemId_FIELDS_wf|]. split; [exact Hnew|]. split; [reflexivity|].
  exact (Fields_insert_remove sample_field_eq ItemId_FIELDS 1 sample_colour
           ItemId_FIELDS_wf Hnew eq_refl
           (fun g => sample_field_eq_name g sample_colour)).
Defined.

(** ** The schema of a class *)

Section SchemaFacts.

Import FieldsM Schema.

Lemma resolve_frame (own : gmap string nat) (c : string) (r : nat) :
  forall l, c ∉ l -> resolve (<[c := r]> own) l = resolve own l.
Proof.
  induction l as [|c' l IH]; intros Hc; [done|].
  apply not_elem_of_cons in Hc as [Hne Hc]. simpl.
  rewrite lookup_insert_ne by done. by rewrite IH.
Qed.

Lemma resolve_own (own : gmap string nat) (r : nat) :
  forall l, resolve own l = Some r -> exists c, own !! c = Some r.
Proof.
  induction l as [|c l IH]; simpl; [done|].
  destruct (own !! c) as [r'|] eqn:Hc; [|done].
  intros [= <-]. by exists c.
Qed.

Lemma copy_wf (F : Fields) : wf F -> copy F = OK F.
Proof.
  intros Hwf. unfold copy.
  destruct (init_ok (items F)) as [-> _]; [by destruct Hwf|].
  by rewrite <- (wf_eq F Hwf).
Qed.

(** The two steps the class methods share: the schema is copied and bound
    to the class, and the method then runs on that copy. *)
Lemma rebound_call {E} (w : classes) (cls : string) (bases : list string)
  (F : Fields) (missing : E) (m : Fields -> E * Fields) :
  mro w cls = cls :: bases -> get_FIELDS w cls = Some F -> wf F ->
  exists r w1,
    (r ∉ dom (objects w)) /\
    rebind_copy w cls = OK w1 /\
    on_FIELDS w1 cls missing m
    = ((m F).1, mkClasses (mro w) (<[cls := r]> (own_FIELDS w))
                          (<[r := (m F).2]> (objects w))).
Proof.
  intros Hmro HF Hwf.
  exists (fresh (dom (objects w))). eexists.
  split; [apply is_fresh|].
  unfold rebind_copy. rewrite HF, (copy_wf F Hwf). simpl.
  split; [reflexivity|].
  unfold on_FIELDS, FIELDS_ref. cbn [mro own_FIELDS objects].
  rewrite Hmro. cbn [resolve]. rewrite !lookup_insert_eq.
  destruct (m F) as [res F']. cbn [fst snd]. by rewrite insert_insert_eq.
Qed.

(** What binding a new object to [cls] leaves alone. *)
Lemma rebound_frame (w : classes) (cls : string) (r : nat) (F' : Fields) :
  bound w -> r ∉ dom (objects w) ->
  let w' := mkClasses (mro w) (<[cls := r]> (own_FIELDS w))
                      (<[r := F']> (objects w)) in
  (forall r0 G, objects w !! r0 = Some G -> objects w' !! r0 = Some G) /\
  (forall d, cls ∉ mro w d -> get_FIELDS w' d = get_FIELDS w d).
Proof.
  intros Hbound Hr w'. split.
  - intros r0 G HG. unfold w'. cbn [objects].
    rewrite lookup_insert_ne; [done|].
    intros <-. apply Hr. apply elem_of_dom. by exists G.
  - intros d Hd. unfold get_FIELDS, FIELDS_ref, w'. cbn [mro own_FIELDS objects].
    rewrite resolve_frame by done.
    destruct (resolve (own_FIELDS w) (mro w d)) as [r0|] eqn:Hr0; [|done].
    simpl. rewrite lookup_insert_ne; [done|].
    intros <-. apply Hr.
    destruct (resolve_own _ _ _ Hr0) as [c Hc]. by apply (Hbound c).
Qed.

Lemma rebound_own (w : classes) (cls : string) (bases : list string)
  (r : nat) (F' : Fields) :
  mro w cls = cls :: bases ->
  get_FIELDS (mkClasses (mro w) (<[cls := r]> (own_FIELDS w))
                        (<[r := F']> (objects w))) cls = Some F'.
Proof.
  intros Hmro. unfold get_FIELDS, FIELDS_ref. cbn [mro own_FIELDS objects].
  rewrite Hmro. cbn [resolve]. rewrite lookup_insert_eq. simpl.
  by rewrite lookup_insert_eq.
Qed.

(** X6. [add_field] on a class whose schema, its own or inherited, is well
    formed.  Whatever the outcome, no [Fields] object that existed is
    changed and every class that does not derive from [cls] keeps its
    schema.  On success the new field stands directly after the first field
    named [insert_after] in the schema of [cls], which is a new object bound
    to [cls] itself; an unknown [insert_after] raises before anything is
    changed; a field name already in the schema raises after [cls] was
    bound to a new object that is a copy of the schema. *)
Theorem add_field_spec (w : classes) (cls : string) (bases : list string)
  (F : Fields) (field : Field) (insert_after : string) :
  mro w cls = cls :: bases -> bound w ->
  get_FIELDS w cls = Some F -> wf F ->
  match add_field w cls field insert_after with
  | (res, w') =>
      (forall r G, objects w !! r = Some G -> objects w' !! r = Some G) /\
      (forall d, cls ∉ mro w d -> get_FIELDS w' d = get_FIELDS w d) /\
      match res with
      | OK _ =>
          (name field ∉ names F) /\
          exists k f F',
            items F !! k = Some f /\ name f = insert_after /\
            (forall j g, items F !! j = Some g -> (j < k)%nat -> name g <> insert_after) /\
            get_FIELDS w' cls = Some F' /\ wf F' /\
            items F' = take (S k) (items F) ++ field :: drop (S k) (items F) /\
            exists r, (r ∉ dom (objects w)) /\
              w' = mkClasses (mro w) (<[cls := r]> (own_FIELDS w))
                             (<[r := F']> (objects w))
      | Error e =>
          ((insert_after ∉ names F) /\
           e = ValueError (UnknownFieldName insert_after) /\ w' = w) \/
          (insert_after ∈ names F /\ name field ∈ names F /\
           e = ValueError (DuplicateField field) /\
           get_FIELDS w' cls = Some F /\
           exists r, (r ∉ dom (objects w)) /\
             w' = mkClasses (mro w) (<[cls := r]> (own_FIELDS w))
                            (<[r := F]> (objects w)))
      end
  end.
Proof.
  intros Hmro Hbound HF Hwf. unfold add_field. rewrite HF.
  pose proof (index_by_name_scan F insert_after) as Hidx.
  destruct (index_by_name F insert_after) as [i|e].
  - destruct Hidx as (k & f & -> & Hk & Hf & Hfirst). cbv zeta.
    destruct (rebound_call w cls bases F (Error no_FIELDS)
                (fun F1 => insert F1 (Z.of_nat k + 1) field) Hmro HF Hwf)
      as (r & w1 & Hr & -> & ->).
    destruct (rebound_frame w cls r (insert F (Z.of_nat k + 1) field).2 Hbound Hr)
      as [Hobj Hothers].
    split; [exact Hobj|]. split; [exact Hothers|].
    assert (insert_after ∈ names F) as Hin.
    { rewrite <- Hf. apply list_elem_of_fmap. exists f. split; [done|].
      by eapply list_elem_of_lookup_2. }
    unfold insert.
    destruct (_dict F !! name field) as [g|] eqn:Hdup; cbn [fst snd].
    + right. split; [done|]. split; [|split; [done|split]].
      * apply (wf_name_in F field Hwf). by exists g.
      * by apply (rebound_own w cls bases).
      * by exists r.
    + assert (name field ∉ names F) as Hnew.
      { rewrite <- (wf_name_in F field Hwf), Hdup. by intros [? ?]. }
      split; [done|]. exists k, f. eexists.
      split; [done|]. split; [done|]. split; [done|].
      split; [by apply (rebound_own w cls bases)|].
      split; [by apply insert_wf|].
      split; [|by exists r].
      cbn [items]. unfold PyList.insert. cbv zeta.
      pose proof (lookup_lt_Some _ _ _ Hk) as Hlt.
      assert (PyList.insert_index (Z.of_nat (length (items F))) (Z.of_nat k + 1)
              = Z.of_nat (S k)) as ->; [|by rewrite Nat2Z.id].
      unfold PyList.insert_index.
      destruct (Z.ltb_spec (Z.of_nat k + 1) 0); [lia|].
      destruct (Z.ltb_spec (Z.of_nat k + 1) 0); [lia|].
      destruct (Z.ltb_spec (Z.of_nat (length (items F))) (Z.of_nat k + 1)); lia.
  - destruct Hidx as [-> Hout].
    split; [done|]. split; [done|]. by left.
Qed.

Variable field_eq : Field -> Field -> bool.

(** X7. [add_field] followed by [remove_field] of the same field, its name new
    to the schema, provided the field compares equal to itself and only to
    fields of its own name: both succeed, [cls] ends with the schema it
    started from, and the classes that do not derive from [cls] never see a
    change. *)
Theorem add_then_remove_field (w : classes) (cls : string) (bases : list string)
  (F : Fields) (field : Field) (insert_after : string) :
  mro w cls = cls :: bases -> bound w ->
  get_FIELDS w cls = Some F -> wf F ->
  insert_after ∈ names F -> name field ∉ names F ->
  field_eq field field = true ->
  (forall g, field_eq g field = true -> name g = name field) ->
  exists w1 w2,
    add_field w cls field insert_after = (OK tt, w1) /\
    remove_field field_eq w1 cls field = (Returns tt, w2) /\
    get_FIELDS w2 cls = Some F /\
    (forall d, cls ∉ mro w d -> get_FIELDS w2 d = get_FIELDS w d) /\
    (forall r G, objects w !! r = Some G -> objects w2 !! r = Some G).
Proof.
  intros Hmro Hbound HF Hwf Hafter Hnew Hrefl Hsame.
  unfold add_field. rewrite HF.
  pose proof (index_by_name_scan F insert_after) as Hidx.
  destruct (index_by_name F insert_after) as [i|e]; [|by destruct Hidx].
  clear Hidx. cbv zeta.
  destruct (rebound_call w cls bases F (Error no_FIELDS)
              (fun F1 => insert F1 (i + 1) field) Hmro HF Hwf)
    as (r & w1 & Hr & -> & ->).
  destruct (insert_then_remove field_eq F (i + 1) field Hwf Hnew Hrefl Hsame)
    as (F1 & Hins & Hrm).
  rewrite Hins. cbn [fst snd].
  set (w1' := mkClasses _ _ _).
  assert (bound w1') as Hbound1.
  { intros c r0 Hc. unfold w1' in *. cbn [own_FIELDS objects] in *.
    rewrite dom_insert. apply lookup_insert_Some in Hc as [[_ <-]|[_ Hc]].
    - apply elem_of_union. left. by apply elem_of_singleton.
    - apply elem_of_union. right. by apply (Hbound c). }
  assert (get_FIELDS w1' cls = Some F1) as HF1 by by apply (rebound_own w cls bases).
  assert (wf F1) as Hwf1.
  { unfold insert in Hins. destruct (_dict F !! name field); [done|].
    injection Hins as <-. by apply insert_wf. }
  destruct (rebound_call w1' cls bases F1 (Raises (Base no_FIELDS))
              (fun F2 => Fields_remove field_eq F2 field) Hmro HF1 Hwf1)
    as (r' & w2 & Hr' & Hcopy & Hcall).
  exists w1'. eexists. split; [done|].
  unfold remove_field. rewrite Hcopy, Hcall, Hrm. cbn [fst snd].
  split; [done|].
  destruct (rebound_frame w cls r F1 Hbound Hr) as [Hobj Hothers].
  destruct (rebound_frame w1' cls r' F Hbound1 Hr') as [Hobj' Hothers'].
  split; [by apply (rebound_own w1' cls bases)|]. split.
  - intros d Hd. rewrite <- (Hothers d Hd). by apply Hothers'.
  - intros r0 G HG. apply Hobj'. by apply Hobj.
Qed.

End SchemaFacts.

Lemma sample_classes_bound : Schema.bound sample_classes.
Proof.
  intros c r Hc. apply elem_of_dom.
  unfold sample_classes in *. cbn [Schema.own_FIELDS Schema.objects] in *.
  apply lookup_insert_Some in Hc as [[_ <-]|[_ Hc]]; [by eexists|].
  apply lookup_singleton_Some in Hc as [_ <-]. by eexists.
Qed.

Lemma add_field_spec_witness :
  Schema.get_FIELDS sample_classes "ParentItemId" = Some ItemId_FIELDS /\
  exists w' F',
    Schema.add_field sample_classes "ParentItemId" sample_colour "id" = (OK tt, w') /\
    Schema.get_FIELDS w' "ItemId" = Some ItemId_FIELDS /\
    Schema.get_FIELDS w' "ParentItemId" = Some F' /\
    FieldsM.names F' = ["id"; "colour"; "changekey"].
Proof.
  assert (Schema.get_FIELDS sample_classes "ParentItemId" = Some ItemId_FIELDS)
    as HF by (vm_compute; reflexivity).
  split; [exact HF|].
  pose proof (add_field_spec sample_classes "ParentItemId" ["ItemId"; "EWSElement"]
                ItemId_FIELDS sample_colour "id" eq_refl sample_classes_bound
                HF ItemId_FIELDS_wf) as H.
  destruct (Schema.add_field _ _ _ _) as [[[]|e] w'] eqn:Hadd.
  - destruct H as (_ & Hothers & _ & k & f & F' & Hk & Hf & _ & HF' & _ & Hitems & _).
    exists w', F'. split; [reflexivity|].
    split; [rewrite (Hothers "ItemId"); [vm_compute; reflexivity|]|].
    { apply not_elem_by_computation. vm_compute. reflexivity. }
    split; [exact HF'|].
    destruct k as [|[|k]].
    + unfold FieldsM.names. rewrite Hitems. vm_compute. reflexivity.
    + exfalso. vm_compute in Hk. injection Hk as <-. discriminate Hf.
    + exfalso. vm_compute in Hk. discriminate Hk.
  - exfalso. vm_compute in Hadd. discriminate Hadd.
Defined.

Lemma add_then_remove_field_witness :
  exists w1 w2,
    Schema.add_field sample_classes "ParentItemId" sample_colour "id" = (OK tt, w1) /\
    Schema.remove_field sample_field_eq w1 "ParentItemId" sample_colour
    = (Returns tt, w2) /\
    Schema.get_FIELDS w2 "ParentItemId" = Some ItemId_FIELDS /\
    Schema.get_FIELDS w2 "ItemId" = Some ItemId_FIELDS.
Proof.
  assert (Schema.get_FIELDS sample_classes "ParentItemId" = Some ItemId_FIELDS)
    as HF by (vm_compute; reflexivity).
  assert ("id" ∈ FieldsM.names ItemId_FIELDS) as Hafter
    by (apply elem_by_computation; vm_compute; reflexivity).
  assert (name sample_colour ∉ FieldsM.names ItemId_FIELDS) as Hnew
    by (apply not_elem_by_computation; vm_compute; reflexivity).
  destruct (add_then_remove_field sample_field_eq sample_classes "ParentItemId"
              ["ItemId"; "EWSElement"] ItemId_FIELDS sample_colour "id"
              eq_refl sample_classes_bound HF ItemId_FIELDS_wf Hafter Hnew eq_refl
              (fun g => sample_field_eq_name g sample_colour))
    as (w1 & w2 & Hadd & Hrm & Hcls & Hothers & _).
  exists w1, w2. split; [exact Hadd|]. split; [exact Hrm|]. split; [exact Hcls|].
  rewrite (Hothers "ItemId"); [vm_compute; reflexivity|].
  apply not_elem_by_computation. vm_compute. reflexivity.
Defined.

(** ** EWSElement._slots_keys *)

Section SlotsFacts.

Lemma add_slots_spec : forall (slots : list string) (seen : gset string) (keys : list string),
  seen = list_to_set keys -> NoDup keys ->
  exists new,
    add_slots slots seen keys = (list_to_set (keys ++ new), keys ++ new) /\
    NoDup (keys ++ new) /\ new `sublist_of` slots /\
    (forall k, k ∈ new <-> k ∈ slots /\ k ∉ keys).
Proof.
  induction slots as [|k rest IH]; intros seen keys Hseen Hnd.
  - exists []. rewrite app_nil_r. simpl. subst seen.
    split; [done|]. split; [done|]. split; [done|].
    intros k. split; [intros Hk; inversion Hk|intros [Hk _]; inversion Hk].
  - simpl. destruct (decide (k ∈ seen)) as [Hin|Hout].
    + destruct (IH seen keys Hseen Hnd) as (new & -> & Hnd' & Hsub & Hmem).
      exists new. split; [done|]. split; [done|]. split; [by apply sublist_cons|].
      intros k'. rewrite Hmem, elem_of_cons. split; [tauto|].
      intros [[->|Hk'] Hnk]; [|done].
      exfalso. apply Hnk. subst seen. by apply elem_of_list_to_set in Hin.
    + assert (k ∉ keys) as Hk by (subst seen; by rewrite elem_of_list_to_set in Hout).
      destruct (IH ({[k]} ∪ seen) (keys ++ [k])) as (new & Heq & Hnd' & Hsub & Hmem).
      { subst seen. rewrite list_to_set_app_L. simpl.
        rewrite (right_id_L ∅ (∪)). apply (comm_L (∪)). }
      { apply NoDup_app. split; [done|]. split; [|apply NoDup_singleton].
        intros x Hx Hx'. apply list_elem_of_singleton in Hx'. by subst x. }
      rewrite <- app_assoc in Heq, Hnd'. simpl in Heq, Hnd'.
      exists (k :: new). split; [done|]. split; [done|].
      split; [by apply sublist_skip|].
      intros k'. rewrite !elem_of_cons, Hmem, elem_of_app, list_elem_of_singleton.
      split.
      * intros [->|[Hk' Hnk]]; [tauto|]. split; [tauto|]. tauto.
      * intros [[->|Hk'] Hnk]; [tauto|].
        destruct (decide (k' = k)) as [->|Hne]; [tauto|]. right. tauto.
Qed.

Lemma slots_loop_spec : forall (classes : list (option (list string)))
  (seen : gset string) (keys : list string),
  seen = list_to_set keys -> NoDup keys ->
  exists new,
    slots_loop classes seen keys = keys ++ new /\
    NoDup (keys ++ new) /\ new `sublist_of` mjoin (omap id classes) /\
    (forall k, k ∈ new <-> (exists s, Some s ∈ classes /\ k ∈ s) /\ k ∉ keys).
Proof.
  induction classes as [|[slots|] rest IH]; intros seen keys Hseen Hnd.
  - exists []. rewrite app_nil_r. simpl.
    split; [done|]. split; [done|]. split; [done|].
    intros k. split; [intros Hk; inversion Hk|intros [(s & Hs & _) _]; inversion Hs].
  - cbn [slots_loop].
    destruct (add_slots_spec slots seen keys Hseen Hnd) as (new1 & -> & Hnd1 & Hsub1 & Hmem1).
    destruct (IH (list_to_set (keys ++ new1)) (keys ++ new1) eq_refl Hnd1)
      as (new2 & -> & Hnd2 & Hsub2 & Hmem2).
    exists (new1 ++ new2). rewrite app_assoc. split; [done|]. split; [done|].
    split; [csimpl; by apply sublist_app|].
    intros k. rewrite elem_of_app, Hmem1, Hmem2. split.
    + intros [[Hk Hnk]|[(s & Hs & Hk) Hnk]].
      * split; [|done]. exists slots. split; [by left|done].
      * split; [exists s; split; [by right|done]|].
        intros Hk'. apply Hnk, elem_of_app. by left.
    + intros [(s & Hs & Hk) Hnk]. apply elem_of_cons in Hs as [[= ->]|Hs].
      * by left.
      * destruct (decide (k ∈ slots)) as [Hin|Hout]; [by left|].
        right. split; [by exists s|].
        intros [Hk'|Hk']%elem_of_app; [done|]. apply Hmem1 in Hk'. tauto.
  - cbn [slots_loop].
    destruct (IH seen keys Hseen Hnd) as (new & -> & Hnd' & Hsub & Hmem).
    exists new. split; [done|]. split; [done|]. split; [done|].
    intros k. rewrite Hmem. split.
    + intros [(s & Hs & Hk) Hnk]. split; [|done]. exists s. split; [by right|done].
    + intros [(s & Hs & Hk) Hnk]. split; [|done]. exists s. split; [|done].
      by apply elem_of_cons in Hs as [?|Hs].
Qed.

Lemma slots_loop_app (a b : list (option (list string))) :
  forall (seen : gset string) (keys : list string),
  seen = list_to_set keys -> NoDup keys ->
  slots_loop (a ++ b) seen keys
  = slots_loop b (list_to_set (slots_loop a seen keys)) (slots_loop a seen keys).
Proof.
  induction a as [|[slots|] a IH]; intros seen keys Hseen Hnd.
  - simpl. by subst seen.
  - cbn [app slots_loop].
    destruct (add_slots_spec slots seen keys Hseen Hnd) as (new & -> & Hnd' & _).
    by apply IH.
  - cbn [app slots_loop]. by apply IH.
Qed.

(** X8. A call of [_slots_keys] that finds no cache gives each slot name of
    the class and its bases once, in the order of the slot declarations
    read from the root class down; the list is kept, and a call that finds
    it returns it without computing anything. *)
Theorem slots_keys_spec (mro mro' : list (option (list string))) :
  match _slots_keys None mro with
  | (keys, cache) =>
      NoDup keys /\
      (forall k, k ∈ keys <-> exists s, Some s ∈ mro /\ k ∈ s) /\
      keys `sublist_of` mjoin (omap id (reverse mro)) /\
      _slots_keys cache mro' = (keys, cache)
  end.
Proof.
  unfold _slots_keys.
  destruct (slots_loop_spec (reverse mro) ∅ [] eq_refl (NoDup_nil_2))
    as (new & Heq & Hnd & Hsub & Hmem).
  simpl in Heq, Hnd. rewrite Heq.
  split; [done|]. split; [|split; [done|done]].
  intros k. rewrite Hmem. split.
  - intros [(s & Hs & Hk) _]. exists s. split; [|done]. by apply elem_of_reverse.
  - intros (s & Hs & Hk). split; [|apply not_elem_of_nil].
    exists s. split; [|done]. by apply elem_of_reverse.
Qed.

(** X9. Parent slots come first: the keys of a class are the keys of the class
    next in its resolution order, followed by those of its own slots that
    are new, each once and in the order they are declared. *)
Theorem slots_keys_parent_first (c : option (list string))
  (mro : list (option (list string))) :
  exists new,
    (_slots_keys None (c :: mro)).1 = (_slots_keys None mro).1 ++ new /\
    NoDup new /\ new `sublist_of` default [] c /\
    forall k, k ∈ new <-> k ∈ default [] c /\ k ∉ (_slots_keys None mro).1.
Proof.
  unfold _slots_keys. cbn [fst]. rewrite reverse_cons.
  rewrite slots_loop_app by (done || apply NoDup_nil_2).
  destruct (slots_loop_spec (reverse mro) ∅ [] eq_refl (NoDup_nil_2))
    as (keys & -> & Hnd & _).
  simpl in Hnd |- *.
  destruct c as [slots|]; cbn [slots_loop default].
  - destruct (add_slots_spec slots (list_to_set keys) keys eq_refl Hnd)
      as (new & -> & Hnd' & Hsub & Hmem).
    exists new. split; [done|]. split; [|done].
    by apply NoDup_app in Hnd' as (_ & _ & ?).
  - exists []. rewrite app_nil_r. split; [done|]. split; [constructor|].
    split; [done|]. intros k. split; [intros Hk; inversion Hk|].
    intros [Hk _]. inversion Hk.
Qed.

End SlotsFacts.

(** ** Field lookup and validation on a class *)

Section ValidationFacts.

Variable Version : Type.
Variable supports_version : Field -> Version -> bool.

Lemma get_field_own (cls : pyclass) (n : string) :
  cls_base cls <> IdChangeKeyMixInBase \/ n ∉ ["id"; "changekey"] ->
  get_field_by_fieldname cls n = EWSElement_get_field_by_fieldname cls n.
Proof.
  intros H. destruct cls as [nm F sl b idc]. cbn [get_field_by_fieldname cls_base].
  destruct b; try done. cbn [cls_base] in H.
  destruct H as [H|H]; [done|]. by rewrite bool_decide_eq_false_2.
Qed.

Lemma get_field_owner (cls owner : pyclass) (n : string) :
  field_owner cls n owner ->
  get_field_by_fieldname cls n = EWSElement_get_field_by_fieldname owner n.
Proof.
  intros [H|id_cls Hb Hn Hid Hb'].
  - by apply get_field_own.
  - rewrite <- (get_field_own id_cls n) by by left.
    destruct cls as [nm F sl b idc]. cbn [cls_base ID_ELEMENT_CLS] in *. subst b idc.
    cbn [get_field_by_fieldname cls_base ID_ELEMENT_CLS].
    by rewrite bool_decide_eq_true_2.
Qed.

Lemma get_field_declared (owner : pyclass) (n : string) :
  FieldsM.wf (FIELDS owner) ->
  (forall f, f ∈ items (FIELDS owner) -> name f = n ->
             EWSElement_get_field_by_fieldname owner n = Returns f) /\
  (n ∉ field_names owner ->
   EWSElement_get_field_by_fieldname owner n
   = Raises (invalid_field n (cls_name owner))).
Proof.
  intros [Hnd Hd]. unfold EWSElement_get_field_by_fieldname, FieldsM.getitem_str.
  split.
  - intros f Hf Hn. by rewrite (proj2 (Hd n f) (conj Hf Hn)).
  - intros Hn. destruct (_dict (FIELDS owner) !! n) as [f|] eqn:Hf; [|done].
    apply Hd in Hf as [Hf Hname]. exfalso. apply Hn.
    apply list_elem_of_fmap. by exists f.
Qed.

(** X10. [validate_field] called with a field name.  The name is looked up in
    the schema of the class, or, for [id] and [changekey] on a class with a
    nested identity, in the schema of the identity class.  A declared name
    passes exactly when the declared field supports the version and raises
    [InvalidFieldForVersion] otherwise; an undeclared name raises
    [InvalidField] naming the class that was searched; an argument that is
    not a version raises first. *)
Theorem validate_field_by_name (cls owner : pyclass) (n : string) (v : Version) :
  field_owner cls n owner -> FieldsM.wf (FIELDS owner) ->
  (forall f, f ∈ items (FIELDS owner) -> name f = n ->
     get_field_by_fieldname cls n = Returns f /\
     validate_field Version supports_version cls (ByName n) (Some v)
     = if supports_version f v then Returns tt
       else Raises (InvalidFieldForVersion n)) /\
  (n ∉ field_names owner ->
     get_field_by_fieldname cls n = Raises (invalid_field n (cls_name owner)) /\
     validate_field Version supports_version cls (ByName n) (Some v)
     = Raises (invalid_field n (cls_name owner))) /\
  validate_field Version supports_version cls (ByName n) None = Raises NotAVersion.
Proof.
  intros Howner Hwf.
  destruct (get_field_declared owner n Hwf) as [Hin Hout].
  pose proof (get_field_owner cls owner n Howner) as Hget.
  split; [|split; [|done]].
  - intros f Hf Hn. rewrite Hget, (Hin f Hf Hn). split; [done|].
    unfold validate_field. rewrite Hget, (Hin f Hf Hn), Hn, Hget, (Hin f Hf Hn).
    done.
  - intros Hn. rewrite Hget, (Hout Hn). split; [done|].
    unfold validate_field. by rewrite Hget, (Hout Hn).
Qed.

(** X11. [validate_field] called with a field object, directly or through a
    field path: only the name of the object is looked up in the schema; the
    version test is the one of the object that was passed, whatever the
    field declared under that name supports. *)
Theorem validate_field_by_object (cls owner : pyclass) (g : Field) (v : Version) :
  field_owner cls (name g) owner -> FieldsM.wf (FIELDS owner) ->
  validate_field Version supports_version cls (ByPath g) (Some v)
  = validate_field Version supports_version cls (ByField g) (Some v) /\
  validate_field Version supports_version cls (ByField g) (Some v)
  = if bool_decide (name g ∈ field_names owner)
    then if supports_version g v then Returns tt
         else Raises (InvalidFieldForVersion (name g))
    else Raises (invalid_field (name g) (cls_name owner)).
Proof.
  intros Howner Hwf. split; [done|].
  destruct (get_field_declared owner (name g) Hwf) as [Hin Hout].
  pose proof (get_field_owner cls owner (name g) Howner) as Hget.
  unfold validate_field. rewrite Hget. case_bool_decide as Hn.
  - apply list_elem_of_fmap in Hn as (f & Hname & Hf).
    by rewrite (Hin f Hf (eq_sym Hname)).
  - by rewrite (Hout Hn).
Qed.

End ValidationFacts.

Lemma UserConfiguration_identity_owner :
  field_owner UserConfiguration "changekey" ItemId_cls.
Proof.
  apply identity_field; [reflexivity| |reflexivity|discriminate].
  apply elem_by_computation. vm_compute. reflexivity.
Qed.

Lemma validate_field_by_name_witness :
  field_owner UserConfiguration "changekey" ItemId_cls /\
  FieldsM.wf (FIELDS ItemId_cls) /\
  validate_field unit (fun _ _ => false) UserConfiguration (ByName "changekey") (Some tt)
  = Raises (InvalidFieldForVersion "changekey") /\
  validate_field unit (fun _ _ => true) UserConfiguration (ByName "changekey") (Some tt)
  = Returns tt.
Proof.
  split; [exact UserConfiguration_identity_owner|].
  split; [exact ItemId_FIELDS_wf|]. split.
  - apply (proj1 (validate_field_by_name unit (fun _ _ => false) UserConfiguration
                    ItemId_cls "changekey" tt UserConfiguration_identity_owner
                    ItemId_FIELDS_wf) (mkField "changekey" false IdField)).
    + apply (list_elem_of_lookup_2 _ 1%nat). vm_compute. reflexivity.
    + reflexivity.
  - apply (proj1 (validate_field_by_name unit (fun _ _ => true) UserConfiguration
                    ItemId_cls "changekey" tt UserConfiguration_identity_owner
                    ItemId_FIELDS_wf) (mkField "changekey" false IdField)).
    + apply (list_elem_of_lookup_2 _ 1%nat). vm_compute. reflexivity.
    + reflexivity.
Defined.

Lemma validate_field_by_object_witness :
  field_owner ItemId_cls (name (mkField "id" true CharField)) ItemId_cls /\
  validate_field unit (fun f _ => is_list f) ItemId_cls
    (ByField (mkField "id" true CharField)) (Some tt) = Returns tt /\
  validate_field unit (fun f _ => is_list f) ItemId_cls (ByName "id") (Some tt)
  = Raises (InvalidFieldForVersion "id").
Proof.
  assert (field_owner ItemId_cls (name (mkField "id" true CharField)) ItemId_cls)
    as Howner by (apply own_field; left; discriminate).
  split; [exact Howner|]. split; [|reflexivity].
  exact (proj2 (validate_field_by_object unit (fun f _ => is_list f) ItemId_cls
                  ItemId_cls (mkField "id" true CharField) tt Howner
                  ItemId_FIELDS_wf)).
Defined.

(** ** EWSElement.clean *)

Section CleanFacts.

Variable Version : Type.
Variable supports_version : Field -> Version -> bool.
Variable field_clean : Field -> pyval -> option Version -> result pyval.

Local Abbreviation clean_fields' := (clean_fields Version supports_version field_clean).
Local Abbreviation cleaned' := (cleaned Version supports_version field_clean).
Local Abbreviation clean_fails' := (clean_fails Version supports_version field_clean).
Local Abbreviation skipped' := (skipped Version supports_version).

Lemma hasattr_getattr (self : entity) (k : string) :
  hasattr self k = is_ok (getattr self k).
Proof. unfold hasattr, getattr, getattr_in. by destruct (attr_lookup _ _). Qed.

Lemma clean_input_ext (f : Field) (self1 self2 : entity) :
  getattr self1 (name f) = getattr self2 (name f) ->
  clean_input f self1 = clean_input f self2.
Proof. intros H. unfold clean_input. by rewrite !hasattr_getattr, H. Qed.

Lemma clean_field_unfold (version : option Version) (f : Field) (self : entity) :
  clean_field Version supports_version field_clean version f self
  = if skipped' version f then (OK tt, self)
    else match clean_input f self with
         | Error e => (Error e, self)
         | OK val =>
             match field_clean f val version with
             | OK v => assign (name f) v self
             | Error e => (Error e, self)
             end
         end.
Proof.
  unfold clean_field, skipped, clean_input.
  destruct (match version with Some v => negb (supports_version f v) | None => false end);
    [done|].
  by destruct (is_extended f && negb (hasattr self (name f))).
Qed.

Lemma cleaned_ext (version : option Version) (f : Field) (self1 self2 self' : entity) :
  getattr self1 (name f) = getattr self2 (name f) ->
  cleaned' version f self1 self' -> cleaned' version f self2 self'.
Proof.
  intros H. unfold cleaned.
  rewrite (clean_input_ext f self1 self2 H), H. done.
Qed.

Lemma clean_fails_ext (version : option Version) (f : Field) (self1 self2 : entity)
  (e : exn) :
  getattr self1 (name f) = getattr self2 (name f) ->
  clean_fails' version f self1 e -> clean_fails' version f self2 e.
Proof.
  intros H. unfold clean_fails.
  by rewrite (clean_input_ext f self1 self2 H).
Qed.

Lemma clean_fields_spec (version : option Version) (cls : pyclass) :
  forall (fs : list Field) (self : entity),
  e_cls self = cls -> NoDup (name <$> fs) ->
  (forall f, f ∈ fs -> name f ∈ slots_keys cls) ->
  match clean_fields' version fs self with
  | (OK _, self') =>
      (forall f, f ∈ fs -> cleaned' version f self self') /\
      (forall k, k ∉ name <$> fs -> getattr self' k = getattr self k)
  | (Error e, self') =>
      exists before f after,
        fs = before ++ f :: after /\
        (forall g, g ∈ before -> cleaned' version g self self') /\
        clean_fails' version f self e /\
        (forall k, k ∉ name <$> before -> getattr self' k = getattr self k)
  end.
Proof.
  induction fs as [|f fs IH]; intros self Hcls Hnd Hdecl.
  - simpl. split; [|done]. intros f Hf. inversion Hf.
  - rewrite fmap_cons in Hnd. apply NoDup_cons in Hnd as [Hf Hnd].
    assert (forall g, g ∈ fs -> name f <> name g) as Hne.
    { intros g Hg Heq. apply Hf. rewrite Heq. by apply list_elem_of_fmap_2. }
    cbn [clean_fields].
    rewrite clean_field_unfold.
    destruct (skipped' version f) eqn:Hskip.
    + specialize (IH self Hcls Hnd (fun g Hg => Hdecl g (list_elem_of_further _ _ _ Hg))).
      destruct (clean_fields' version fs self) as [[[]|e] self'].
      * destruct IH as [Hall Hframe]. split.
        -- intros g [->|Hg]%elem_of_cons; [|by apply Hall].
           unfold cleaned.
           rewrite Hskip. by apply Hframe.
        -- intros k Hk. apply Hframe. intros Hin. apply Hk. by right.
      * destruct IH as (before & f0 & after & -> & Hall & Hfail & Hframe).
        exists (f :: before), f0, after. split; [done|]. split; [|split; [done|]].
        -- intros g [->|Hg]%elem_of_cons; [|by apply Hall].
           unfold cleaned.
           rewrite Hskip. apply Hframe.
           intros Hin. apply Hf. rewrite fmap_app. apply elem_of_app. by left.
        -- intros k Hk. apply Hframe. intros Hin. apply Hk. by right.
    + destruct (clean_input f self) as [val|e] eqn:Hin.
      2:{ exists [], f, fs. split; [done|]. split; [intros g Hg; inversion Hg|].
          split; [|done]. split; [done|]. by left. }
      destruct (field_clean f val version) as [v|e] eqn:Hv.
      2:{ exists [], f, fs. split; [done|]. split; [intros g Hg; inversion Hg|].
          split; [|done]. split; [done|]. right. by exists val. }
      unfold assign.
      rewrite setattr_field by (left; rewrite Hcls; apply Hdecl; by left).
      set (self1 := mkEntity (e_cls self) (attr_store (name f) v (e_attrs self))).
      assert (forall k, k <> name f -> getattr self1 k = getattr self k) as Hkeep.
      { intros k Hk. unfold self1. destruct self as [c attrs].
        by apply getattr_store_ne. }
      assert (getattr self1 (name f) = OK v) as Hnew by apply getattr_store_eq.
      specialize (IH self1 Hcls Hnd (fun g Hg => Hdecl g (list_elem_of_further _ _ _ Hg))).
      destruct (clean_fields' version fs self1) as [[[]|e] self'].
      * destruct IH as [Hall Hframe]. split.
        -- intros g [->|Hg]%elem_of_cons.
           ++ unfold cleaned.
              rewrite Hskip. exists val, v. split; [done|]. split; [done|].
              by rewrite Hframe.
           ++ apply (cleaned_ext version g self1); [|by apply Hall].
              apply Hkeep. intros Heq. by apply (Hne g).
        -- intros k Hk. apply not_elem_of_cons in Hk as [Hk1 Hk2].
           rewrite Hframe by done. by apply Hkeep.
      * destruct IH as (before & f0 & after & -> & Hall & Hfail & Hframe).
        exists (f :: before), f0, after. split; [done|]. split; [|split].
        -- intros g [->|Hg]%elem_of_cons.
           ++ unfold cleaned.
              rewrite Hskip. exists val, v. split; [done|]. split; [done|].
              rewrite Hframe; [done|].
              intros Hin'. apply Hf. rewrite fmap_app. apply elem_of_app. by left.
           ++ apply (cleaned_ext version g self1); [|by apply Hall].
              apply Hkeep. intros Heq. apply (Hne g); [|done].
              apply elem_of_app. by left.
        -- apply (clean_fails_ext version f0 self1); [|done].
           apply Hkeep. intros Heq. apply (Hne f0); [|done].
           apply elem_of_app. right. by left.
        -- intros k Hk. apply not_elem_of_cons in Hk as [Hk1 Hk2].
           rewrite Hframe by done. by apply Hkeep.
Qed.

(** X12. [EWSElement.clean] on an instance of a class that has a slot for
    each of its fields works through the fields in declaration order.  When
    it returns, every field the version supports holds what its validator
    made of the value it had, and nothing else has changed.  When a round
    raises, the fields before it keep their validated values: the instance is
    left partly cleaned, and everything from the failing field on is as it
    was. *)
Theorem clean_spec (version : option Version) (self : entity) :
  slotted (e_cls self) ->
  NoDup (field_names (e_cls self)) ->
  match EWSElement_clean Version supports_version field_clean version self with
  | (OK _, self') =>
      e_cls self' = e_cls self /\
      (forall f, f ∈ items (FIELDS (e_cls self)) -> cleaned' version f self self') /\
      (forall k, k ∉ field_names (e_cls self) -> getattr self' k = getattr self k)
  | (Error e, self') =>
      e_cls self' = e_cls self /\
      exists before f after,
        items (FIELDS (e_cls self)) = before ++ f :: after /\
        (forall g, g ∈ before -> cleaned' version g self self') /\
        clean_fails' version f self e /\
        (forall k, k ∉ name <$> before -> getattr self' k = getattr self k)
  end.
Proof.
  intros Hslots Hnd. unfold EWSElement_clean.
  pose proof (clean_fields_spec version (e_cls self) (items (FIELDS (e_cls self)))
                self eq_refl Hnd
                (fun f Hf => slotted_field _ _ Hslots (list_elem_of_fmap_2 name _ f Hf)))
    as H.
  pose proof (clean_fields_cls Version supports_version field_clean version
                (items (FIELDS (e_cls self))) self) as Hcls.
  destruct (clean_fields' version (items (FIELDS (e_cls self))) self) as [[[]|e] self'].
  - split; [by eapply Hcls|]. exact H.
  - split; [by eapply Hcls|]. exact H.
Qed.

End CleanFacts.

Lemma clean_spec_witness :
  slotted (e_cls sample_unclean_time) /\
  NoDup (field_names (e_cls sample_unclean_time)) /\
  exists self',
    EWSElement_clean unit sample_supports sample_int_clean (Some tt) sample_unclean_time
    = (Error TypeError, self') /\
    e_cls self' = StandardTime /\
    getattr self' "bias" = OK (PyInt 60) /\
    getattr self' "time" = OK (PyStr "noon") /\
    getattr self' "iso_month" = OK (PyInt 10).
Proof.
  assert (NoDup (field_names (e_cls sample_unclean_time))) as Hnd
    by (apply NoDup_by_computation; vm_compute; reflexivity).
  assert (slotted (e_cls sample_unclean_time)) as Hslots
    by (apply slotted_by_computation; vm_compute; reflexivity).
  split; [exact Hslots|]. split; [exact Hnd|].
  pose proof (clean_spec unit sample_supports sample_int_clean (Some tt)
                sample_unclean_time Hslots Hnd) as H.
  destruct (EWSElement_clean _ _ _ _ _) as [[[]|e] self'] eqn:Hclean.
  - exfalso. vm_compute in Hclean. discriminate Hclean.
  - exists self'. destruct H as [Hcls _].
    vm_compute in Hclean. injection Hclean as <- <-.
    split; [reflexivity|]. split; [exact Hcls|].
    repeat split; vm_compute; reflexivity.
Defined.

(** ** EWSElement.from_xml *)

Lemma mapM_Error {A B} (f : A -> result B) (l : list A) (e : exn) :
  mapM f l = Error e <->
  exists before x after,
    l = before ++ x :: after /\ Forall (fun y => is_ok (f y) = true) before /\
    f x = Error e.
Proof.
  revert e. induction l as [|x l IH]; intros e.
  - split; [done|]. intros (before & y & after & Heq & _). by destruct before.
  - cbn [mapM]. fold (mapM f l). destruct (f x) as [y|e'] eqn:Hx; cbn [bind].
    + destruct (mapM f l) as [ys|e''] eqn:Hl; cbn [bind].
      * split; [done|]. intros (before & z & after & Heq & Hb & Hz).
        destruct before as [|b before]; simplify_eq/=; [congruence|].
        assert (OK ys = Error e :> result (list B)) as Habs; [|done].
        apply IH. exists before, z, after. split; [done|]. split; [|done].
        by apply Forall_cons in Hb as [_ ?].
      * split.
        -- intros [= ->]. destruct (proj1 (IH e) eq_refl) as (before & z & after & -> & Hb & Hz).
           exists (x :: before), z, after. split; [done|]. split; [|done].
           constructor; [by rewrite Hx|done].
        -- intros (before & z & after & Heq & Hb & Hz).
           destruct before as [|b before]; simplify_eq/=; [congruence|].
           apply IH. exists before, z, after. split; [done|]. split; [|done].
           by apply Forall_cons in Hb as [_ ?].
    + split.
      * intros [= ->]. by exists [], x, l.
      * intros (before & z & after & Heq & Hb & Hz).
        destruct before as [|b before]; simplify_eq/=; [congruence|].
        apply Forall_cons in Hb as [Hb _]. by rewrite Hx in Hb.
Qed.

Section FromXmlFacts.

Variable Elem Account : Type.
Variable field_from_xml : Field -> Elem -> Account -> result pyval.

Lemma store_fresh (key : string) (v : pyval) (l : list (string * pyval)) :
  key ∉ l.*1 -> attr_store key v l = l ++ [(key, v)].
Proof.
  induction l as [|[k w] l IH]; intros Hk; [done|].
  rewrite fmap_cons in Hk. apply not_elem_of_cons in Hk as [Hne Hk].
  cbn [attr_store fst] in *. rewrite string_eqb_decide.
  rewrite bool_decide_eq_false_2 by congruence. by rewrite IH.
Qed.

Lemma kw_get_zip : forall (names : list string) (vs : list pyval) (i : nat) n v,
  NoDup names -> names !! i = Some n -> vs !! i = Some v ->
  EWSElement.kw_get n (zip names vs) = Some v.
Proof.
  induction names as [|n0 names IH]; intros vs i n v Hnd Hn Hv; [done|].
  apply NoDup_cons in Hnd as [Hn0 Hnd].
  destruct vs as [|v0 vs]; [by destruct i|].
  unfold EWSElement.kw_get, attr_lookup. cbn [zip zip_with attr_with].
  destruct i as [|i]; simplify_eq/=.
  - by rewrite String.eqb_refl.
  - rewrite string_eqb_decide, bool_decide_eq_false_2.
    + by apply (IH vs i).
    + intros ->. apply Hn0. by eapply list_elem_of_lookup_2.
Qed.

Lemma construct_plain (cls : pyclass) (kw : EWSElement.kwargs_t) :
  cls_base cls <> IdChangeKeyMixInBase ->
  construct cls kw = EWSElement.__init__ cls kw.
Proof.
  intros Hb. unfold construct. destruct (cls_base cls); try done.
  unfold ItemId.__init__. destruct kw; [|done].
  cbv zeta. by rewrite zip_with_nil_r.
Qed.

Lemma collect_spec (elem : Elem) (account : Account) :
  forall (fs : list Field) (kw : EWSElement.kwargs_t),
  NoDup (name <$> fs) -> (forall f, f ∈ fs -> name f ∉ kw.*1) ->
  (fix go (fs : list Field) (kw : EWSElement.kwargs_t) :=
     match fs with
     | [] => OK kw
     | f :: fs' =>
         v <- field_from_xml f elem account ;;
         go fs' (EWSElement.kw_set (name f) v kw)
     end) fs kw
  = (vs <- mapM (fun f => field_from_xml f elem account) fs ;;
     OK (kw ++ zip (name <$> fs) vs)).
Proof.
  induction fs as [|f fs IH]; intros kw Hnd Hfresh.
  - simpl. by rewrite app_nil_r.
  - rewrite fmap_cons in Hnd. apply NoDup_cons in Hnd as [Hf Hnd].
    cbn [mapM]. fold (mapM (fun f => field_from_xml f elem account) fs).
    destruct (field_from_xml f elem account) as [v|e]; cbn [bind]; [|done].
    unfold EWSElement.kw_set. rewrite store_fresh by (apply Hfresh; by left).
    rewrite IH; [| done |].
    + destruct (mapM _ fs) as [vs|e]; cbn [bind]; [|done].
      by rewrite <- app_assoc.
    + intros g Hg. rewrite fmap_app. intros [Hin|Hin]%elem_of_app.
      * by apply (Hfresh g (list_elem_of_further _ _ _ Hg)).
      * cbn in Hin. apply list_elem_of_singleton in Hin. apply Hf. rewrite <- Hin.
        by apply list_elem_of_fmap_2.
Qed.

(** X13. [from_xml] of a class that keeps the constructor of [EWSElement]
    and has a slot for each of its fields: the extractors run in declaration
    order; when all return, the instance holds the extracted value under each
    field name; otherwise the error is that of the first extractor that fails
    and no instance is built. *)
Theorem from_xml_spec (cls : pyclass) (elem : Elem) (account : Account) :
  cls_base cls <> IdChangeKeyMixInBase -> slotted cls ->
  NoDup (field_names cls) ->
  (forall vs,
     Forall2 (fun f v => field_from_xml f elem account = OK v) (items (FIELDS cls)) vs ->
     exists e,
       EWSElement_from_xml Elem Account field_from_xml cls elem account = OK e /\
       e_cls e = cls /\
       Forall2 (fun f v => getattr e (name f) = OK v) (items (FIELDS cls)) vs) /\
  (forall before f after err,
     items (FIELDS cls) = before ++ f :: after ->
     Forall (fun g => is_ok (field_from_xml g elem account) = true) before ->
     field_from_xml f elem account = Error err ->
     EWSElement_from_xml Elem Account field_from_xml cls elem account = Error err).
Proof.
  intros Hb Hslots Hnd. unfold EWSElement_from_xml.
  rewrite collect_spec; [|done|intros f _; apply not_elem_of_nil].
  split.
  - intros vs Hvs. pose proof (Forall2_length _ _ _ Hvs) as Hlen.
    apply mapM_Forall2 in Hvs. rewrite Hvs. cbn [bind app].
    rewrite construct_plain by done.
    set (kw := zip (name <$> items (FIELDS cls)) vs).
    assert (kw.*1 = field_names cls) as Hkeys.
    { unfold kw, field_names. apply fst_zip. rewrite length_fmap. lia. }
    destruct (init_spec cls kw Hslots) as [Hok _].
    destruct Hok as (e & He & Hcls & _ & Hval).
    { rewrite Hkeys. apply filter_none. intros k Hk. tauto. }
    exists e. split; [done|]. split; [done|].
    apply Forall2_same_length_lookup. split; [done|].
    intros i f v Hf Hv. rewrite (Hval Hnd f) by by eapply list_elem_of_lookup_2.
    unfold kw. erewrite kw_get_zip; [done|done| |done].
    by rewrite list_lookup_fmap, Hf.
  - intros before f after err Heq Hbefore Hf.
    assert (mapM (fun f => field_from_xml f elem account) (items (FIELDS cls))
            = Error err) as ->; [|done].
    apply mapM_Error. by exists before, f, after.
Qed.

End FromXmlFacts.

Lemma from_xml_spec_witness :
  slotted StandardTime /\ NoDup (field_names StandardTime) /\
  (exists e,
     EWSElement_from_xml (list (string * pyval)) unit sample_field_from_xml
       StandardTime (transition_attrs 0 5 10 7) tt = OK e /\
     getattr e "iso_month" = OK (PyInt 10)) /\
  EWSElement_from_xml (list (string * pyval)) unit sample_field_from_xml
    StandardTime [("bias", PyInt 0); ("time", PyTime 2 0 0 0)] tt
  = Error (no_attribute "occurrence").
Proof.
  assert (NoDup (field_names StandardTime)) as Hnd
    by (apply NoDup_by_computation; vm_compute; reflexivity).
  assert (cls_base StandardTime <> IdChangeKeyMixInBase) as Hb by discriminate.
  assert (slotted StandardTime) as Hslots
    by (apply slotted_by_computation; vm_compute; reflexivity).
  split; [exact Hslots|]. split; [exact Hnd|]. split.
  - destruct (proj1 (from_xml_spec (list (string * pyval)) unit sample_field_from_xml
                       StandardTime (transition_attrs 0 5 10 7) tt Hb Hslots Hnd)
                [PyInt 0; PyTime 2 0 0 0; PyInt 5; PyInt 10; PyInt 7])
      as (e & He & _ & Hvals).
    { repeat constructor. }
    exists e. split; [exact He|].
    apply Forall2_cons in Hvals as [_ Hvals].
    apply Forall2_cons in Hvals as [_ Hvals].
    apply Forall2_cons in Hvals as [_ Hvals].
    by apply Forall2_cons in Hvals as [Hmonth _].
  - apply (proj2 (from_xml_spec (list (string * pyval)) unit sample_field_from_xml
                    StandardTime [("bias", PyInt 0); ("time", PyTime 2 0 0 0)] tt Hb
                    Hslots Hnd)
             [mkField "bias" false IntegerField; mkField "time" false TimeField]
             (mkField "occurrence" false IntegerField)
             [mkField "iso_month" false IntegerField; mkField "weekday" false EnumField]).
    + reflexivity.
    + repeat constructor.
    + reflexivity.
Defined.

(** ** Identity elements *)

Section IdentityOperations.

Lemma unexpected_none (cls : pyclass) (kw : EWSElement.kwargs_t) :
  (forall k, k ∈ kw.*1 -> k ∈ field_names cls) ->
  filter (fun k => k ∉ field_names cls) (kw.*1) = [].
Proof. intros H. apply filter_none. intros k Hk Hn. by apply Hn, H. Qed.

(** X14. [ItemId(...)] with positional arguments only: the first is the id, the
    second the changekey, a missing one is [None], and any further argument
    is ignored without an error. *)
Theorem ItemId_positional (cls : pyclass) (args : list pyval) :
  id_like cls ->
  exists e,
    ItemId.__init__ cls args [] = OK e /\ e_cls e = cls /\
    getattr e "id" = OK (default PyNone (args !! 0%nat)) /\
    getattr e "changekey" = OK (default PyNone (args !! 1%nat)) /\
    ItemId.__init__ cls (take 2 args) [] = OK e.
Proof.
  intros [Hfields Hslots]. unfold ItemId.__init__. rewrite Hslots.
  assert (zip ["id"; "changekey"] (take 2 args) = zip ["id"; "changekey"] args) as ->.
  { by destruct args as [|a [|b rest]]. }
  set (kw := zip ["id"; "changekey"] args).
  assert (NoDup (field_names cls)) as Hnd
    by (rewrite Hfields; apply NoDup_by_computation; vm_compute; reflexivity).
  destruct (init_spec cls kw (id_like_slotted cls (conj Hfields Hslots))) as [Hok _].
  destruct Hok as (e & He & Hcls & _ & Hval).
  { apply unexpected_none. intros k Hk. rewrite Hfields.
    unfold kw in Hk. destruct args as [|a [|b rest]]; simpl in Hk.
    - inversion Hk.
    - apply list_elem_of_singleton in Hk as ->. by left.
    - done. }
  assert (forall n, n ∈ field_names cls ->
                    getattr e n = OK (default PyNone (EWSElement.kw_get n kw))) as Hget.
  { intros n Hn. destruct (field_named cls n Hn) as (f & Hf & <-). by apply Hval. }
  assert (kw = match args with [] => [] | _ => kw end) as Hkw
    by (by destruct args as [|a rest]).
  exists e. split; [rewrite Hkw; by destruct args|]. split; [done|].
  split; [|split].
  - rewrite Hget by (rewrite Hfields; by left).
    f_equal. unfold kw. by destruct args as [|a [|b rest]].
  - rewrite Hget by (rewrite Hfields; right; by left).
    f_equal. unfold kw. by destruct args as [|a [|b rest]].
  - rewrite Hkw. by destruct args.
Qed.

Lemma filter_key_in (P : string * pyval -> Prop) `{!forall p, Decision (P p)}
  (kw : EWSElement.kwargs_t) (k : string) :
  k ∈ (filter P kw).*1 -> exists v, (k, v) ∈ kw /\ P (k, v).
Proof.
  intros Hk. apply list_elem_of_fmap in Hk as ([k' v] & -> & Hin).
  apply list_elem_of_filter in Hin as [HP Hin]. by exists v.
Qed.

(** X15. Construction of an element with a nested identity, of a class
    that has a slot for each of its fields, from keywords that are fields,
    [id] or [changekey].  When one of [id] and [changekey] is true, both
    read back as given.  When neither is true no identity is stored: with
    no [_id] keyword both read back as [None], so an empty string or a zero
    passed as [id] is lost. *)
Theorem mixin_init_identity (cls id_cls : pyclass) (kw : EWSElement.kwargs_t) :
  ID_ELEMENT_CLS cls = Some id_cls -> id_like id_cls -> slotted cls ->
  "_id" ∈ field_names cls -> NoDup (field_names cls) ->
  (forall k, k ∈ kw.*1 -> k ∈ field_names cls \/ k = "id" \/ k = "changekey") ->
  let i := default PyNone (EWSElement.kw_get "id" kw) in
  let c := default PyNone (EWSElement.kw_get "changekey" kw) in
  exists e,
    IdChangeKeyMixIn.__init__ cls kw = OK e /\ e_cls e = cls /\
    (truthy i || truthy c = true ->
     IdChangeKeyMixIn.id e = OK i /\ IdChangeKeyMixIn.changekey e = OK c) /\
    (truthy i || truthy c = false ->
     getattr e "_id" = OK (default PyNone (EWSElement.kw_get "_id" kw)) /\
     (EWSElement.kw_get "_id" kw = None ->
      IdChangeKeyMixIn.id e = OK PyNone /\ IdChangeKeyMixIn.changekey e = OK PyNone)).
Proof.
  intros Hid Hlike Hslots Hfield Hnd Hkeys i c.
  destruct (mixin_init_unfold cls id_cls kw Hid Hlike)
    as (_id & Hcls & Hi & Hc & Heq).
  fold i c in Hi, Hc, Heq. rewrite Heq. clear Heq.
  set (kw2 := filter (fun p : string * pyval => p.1 <> "changekey")
                (filter (fun p : string * pyval => p.1 <> "id") kw)).
  assert (forall k, k ∈ kw2.*1 -> k ∈ field_names cls) as Hkeys2.
  { intros k Hk. apply filter_key_in in Hk as (v & Hin & Hck). cbn [fst] in Hck.
    apply list_elem_of_filter in Hin as [Hnid Hin]. cbn [fst] in Hnid.
    destruct (Hkeys k) as [?|[?|?]]; try done.
    apply list_elem_of_fmap. by exists (k, v). }
  assert (EWSElement.kw_get "_id" kw2 = EWSElement.kw_get "_id" kw) as Hget.
  { unfold kw2. by rewrite !kw_get_filter_ne. }
  destruct (field_named cls "_id" Hfield) as (f & Hf & Hname).
  destruct (truthy i || truthy c) eqn:Hhas.
  - destruct (init_spec cls (EWSElement.kw_set "_id" (obj _id) kw2) Hslots) as [Hok _].
    destruct Hok as (e & He & Hecls & _ & Hval).
    { apply unexpected_none. intros k Hk. unfold EWSElement.kw_set in Hk.
      rewrite store_keys in Hk. case_bool_decide; [by apply Hkeys2|].
      apply elem_of_app in Hk as [Hk|Hk]; [by apply Hkeys2|].
      by apply list_elem_of_singleton in Hk as ->. }
    exists e. split; [done|]. split; [done|]. split; [|done].
    intros _. specialize (Hval Hnd f Hf). rewrite Hname in Hval.
    unfold EWSElement.kw_set, EWSElement.kw_get in Hval.
    rewrite lookup_store_eq in Hval. cbn [default] in Hval.
    unfold IdChangeKeyMixIn.id, IdChangeKeyMixIn.changekey, nested_id_attr.
    fold (getattr e "_id"). rewrite Hval. cbn [bind obj getattr_val].
    by split.
  - destruct (init_spec cls kw2 Hslots) as [Hok _].
    destruct Hok as (e & He & Hecls & _ & Hval); [by apply unexpected_none|].
    exists e. split; [done|]. split; [done|]. split; [done|].
    intros _. specialize (Hval Hnd f Hf). rewrite Hname, Hget in Hval.
    split; [done|]. intros Hnone. rewrite Hnone in Hval.
    unfold IdChangeKeyMixIn.id, IdChangeKeyMixIn.changekey.
    split; by apply nested_read_none.
Qed.

(** X16. A write through the [id] or [changekey] property changes that one
    value: the other of the two reads as before, every other attribute of
    the element is untouched, and a second write replaces the first. *)
Theorem identity_setter_frame (self : entity) (id_cls : pyclass)
  (key : string) (value value' : pyval) :
  ID_ELEMENT_CLS (e_cls self) = Some id_cls -> id_like id_cls ->
  "_id" ∈ field_names (e_cls self) ->
  key ∈ ["id"; "changekey"] ->
  (getattr self "_id" = OK PyNone \/
   exists attrs, getattr self "_id" = OK (PyObj id_cls attrs)) ->
  exists self',
    IdChangeKeyMixIn.set_nested key self value = OK self' /\
    e_cls self' = e_cls self /\
    nested_id_attr key (e_attrs self') = OK value /\
    (forall key', key' <> key -> key' ∈ ["id"; "changekey"] ->
       nested_id_attr key' (e_attrs self') = nested_id_attr key' (e_attrs self)) /\
    (forall k, k <> "_id" -> getattr self' k = getattr self k) /\
    exists self'',
      IdChangeKeyMixIn.set_nested key self' value' = OK self'' /\
      nested_id_attr key (e_attrs self'') = OK value' /\
      forall k, k <> "_id" -> getattr self'' k = getattr self k.
Proof.
  intros Hid Hlike Hfield Hkey Hstate.
  assert (key ∈ slots_keys id_cls) as Hkf by (destruct Hlike as [_ ->]; done).
  assert (forall (s : entity) attrs v,
            getattr s "_id" = OK (PyObj id_cls attrs) ->
            IdChangeKeyMixIn.set_nested key s v
            = OK (mkEntity (e_cls s)
                    (attr_store "_id" (PyObj id_cls (attr_store key v attrs))
                       (e_attrs s)))) as Hexisting.
  { intros s attrs v Hs. by apply set_nested_existing. }
  assert (forall c attrs0 attrs k, k <> "_id" ->
            getattr (mkEntity c (attr_store "_id" attrs0 attrs)) k
            = getattr (mkEntity c attrs) k) as Hframe.
  { intros c attrs0 attrs k Hk. by apply getattr_store_ne. }
  destruct Hstate as [Hnone|[attrs Hobj]].
  - destruct (set_nested_fresh key self id_cls value Hid Hlike Hfield Hkey Hnone)
      as (fresh & Hfi & Hfc & Heq).
    eexists. split; [exact Heq|]. cbn [e_cls e_attrs].
    split; [done|]. split; [|split; [|split]].
    + rewrite nested_read. apply getattr_in_store_eq.
    + intros key' Hne Hin.
      rewrite nested_read, getattr_in_store_ne by done.
      rewrite (nested_read_none key' (e_attrs self)) by done.
      apply elem_of_cons in Hin as [->|Hin]; [done|].
      by apply list_elem_of_singleton in Hin as ->.
    + intros k Hk. destruct self as [c attrs]. cbn [e_cls e_attrs].
      by rewrite !Hframe.
    + eexists. split.
      * apply Hexisting. apply getattr_store_eq.
      * cbn [e_cls e_attrs]. split.
        -- rewrite nested_read. apply getattr_in_store_eq.
        -- intros k Hk. destruct self as [c attrs]. cbn [e_cls e_attrs].
           by rewrite !Hframe.
  - eexists. split; [by apply Hexisting|]. cbn [e_cls e_attrs].
    split; [done|]. split; [|split; [|split]].
    + rewrite nested_read. apply getattr_in_store_eq.
    + intros key' Hne _. rewrite nested_read, getattr_in_store_ne by done.
      unfold nested_id_attr. unfold getattr in Hobj. by rewrite Hobj.
    + intros k Hk. destruct self as [c attrs0]. cbn [e_cls e_attrs].
      by rewrite Hframe.
    + eexists. split.
      * apply Hexisting. apply getattr_store_eq.
      * cbn [e_cls e_attrs]. split.
        -- rewrite nested_read. apply getattr_in_store_eq.
        -- intros k Hk. destruct self as [c attrs0]. cbn [e_cls e_attrs].
           by rewrite !Hframe.
Qed.

End IdentityOperations.

Lemma ItemId_positional_witness :
  id_like ItemId_cls /\
  exists e,
    ItemId.__init__ ItemId_cls [PyStr "a"; PyStr "b"; PyStr "c"] [] = OK e /\
    getattr e "id" = OK (PyStr "a") /\ getattr e "changekey" = OK (PyStr "b") /\
    ItemId.__init__ ItemId_cls [PyStr "a"; PyStr "b"] [] = OK e.
Proof.
  split; [exact ItemId_id_like|].
  destruct (ItemId_positional ItemId_cls [PyStr "a"; PyStr "b"; PyStr "c"]
              ItemId_id_like) as (e & He & _ & Hi & Hc & Htake).
  exists e. split; [exact He|]. split; [exact Hi|]. split; [exact Hc|exact Htake].
Defined.

Lemma mixin_init_identity_witness :
  exists e,
    IdChangeKeyMixIn.__init__ UserConfiguration
      [("id", PyStr ""); ("xml_data", PyStr "x")] = OK e /\
    IdChangeKeyMixIn.id e = OK PyNone /\
    getattr e "_id" = OK PyNone.
Proof.
  assert (NoDup (field_names UserConfiguration)) as Hnd
    by (apply NoDup_by_computation; vm_compute; reflexivity).
  destruct (mixin_init_identity UserConfiguration ItemId_cls
              [("id", PyStr ""); ("xml_data", PyStr "x")]
              eq_refl ItemId_id_like UserConfiguration_slotted
              UserConfiguration_has_id Hnd)
    as (e & He & _ & _ & Hfalse).
  { intros k Hk. apply elem_of_cons in Hk as [->|Hk]; [right; by left|].
    apply list_elem_of_singleton in Hk as ->. left.
    apply elem_by_computation. vm_compute. reflexivity. }
  destruct (Hfalse eq_refl) as [Hid Hnone].
  exists e. split; [exact He|]. split; [exact (proj1 (Hnone eq_refl))|exact Hid].
Defined.

Lemma identity_setter_frame_witness :
  let self := sample_user_configuration (PyStr "one") in
  exists self',
    IdChangeKeyMixIn.set_changekey self (PyStr "k2") = OK self' /\
    IdChangeKeyMixIn.changekey self' = OK (PyStr "k2") /\
    IdChangeKeyMixIn.id self' = IdChangeKeyMixIn.id self /\
    getattr self' "xml_data" = OK (PyStr "one").
Proof.
  intros self. unfold self. clear self.
  destruct (identity_setter_frame (sample_user_configuration (PyStr "one"))
              ItemId_cls "changekey" (PyStr "k2") PyNone
              eq_refl ItemId_id_like UserConfiguration_has_id)
    as (self' & Hset & _ & Hnew & Hother & Hframe & _).
  { apply elem_by_computation. vm_compute. reflexivity. }
  { right. eexists. vm_compute. reflexivity. }
  exists self'. split; [exact Hset|]. split; [exact Hnew|]. split.
  - apply Hother; [discriminate|]. apply elem_by_computation. vm_compute. reflexivity.
  - rewrite Hframe by discriminate. vm_compute. reflexivity.
Defined.

Section IdentityEquality.

Variable hash_atom : pyval -> Z.
Variable hash_tuple : list Z -> Z.

Local Abbreviation hash := (py_hash hash_atom hash_tuple).

(** X17. Comparing an element that has a nested identity with a tuple compares
    the pair of its id and changekey with the tuple, by hash: the element
    equals the pair of its own id and changekey, also when it has no id; for
    an element with an id this is the comparison of its own hash with the
    hash of the tuple. *)
Theorem identity_equals_tuple (e : entity) (i c : pyval) (t : list pyval) :
  cls_base (e_cls e) = IdChangeKeyMixInBase ->
  IdChangeKeyMixIn.id e = OK i -> IdChangeKeyMixIn.changekey e = OK c ->
  obj_eq hash_atom hash_tuple e (PyTuple t)
  = (h1 <- hash (PyTuple [i; c]) ;; h2 <- hash (PyTuple t) ;; OK (h1 =? h2)) /\
  (forall h, hash (PyTuple [i; c]) = OK h ->
             obj_eq hash_atom hash_tuple e (PyTuple [i; c]) = OK true) /\
  (truthy i = true ->
   obj_eq hash_atom hash_tuple e (PyTuple t)
   = __eq__ hash_atom hash_tuple e (PyTuple t)).
Proof.
  intros Hb Hi Hc.
  assert (obj_eq hash_atom hash_tuple e (PyTuple t)
          = (h1 <- hash (PyTuple [i; c]) ;; h2 <- hash (PyTuple t) ;; OK (h1 =? h2)))
    as Heq.
  { unfold obj_eq. rewrite Hb. unfold mixin__eq__.
    unfold IdChangeKeyMixIn.id, IdChangeKeyMixIn.changekey in Hi, Hc.
    by rewrite Hi, Hc. }
  split; [exact Heq|]. split.
  - intros h Hh. unfold obj_eq. rewrite Hb. unfold mixin__eq__.
    unfold IdChangeKeyMixIn.id, IdChangeKeyMixIn.changekey in Hi, Hc.
    rewrite Hi, Hc. cbn [bind]. rewrite Hh. cbn [bind]. by rewrite Z.eqb_refl.
  - intros Ht. rewrite Heq. unfold __eq__.
    assert (hash (obj e) = hash (PyTuple [i; c])) as ->; [|done].
    unfold obj. rewrite (py_hash_mixin hash_atom hash_tuple _ _ Hb).
    unfold IdChangeKeyMixIn.id, IdChangeKeyMixIn.changekey in Hi, Hc.
    rewrite Hi. cbn [bind]. by rewrite Ht, Hc.
Qed.

End IdentityEquality.

Lemma identity_equals_tuple_witness :
  let e := sample_user_configuration (PyStr "one") in
  cls_base (e_cls e) = IdChangeKeyMixInBase /\
  obj_eq sample_hash_atom sample_hash_tuple e (PyTuple [PyStr "a"; PyStr "b"]) = OK true.
Proof.
  intros e. unfold e. clear e. split; [reflexivity|].
  refine (proj1 (proj2 (identity_equals_tuple sample_hash_atom sample_hash_tuple
                   (sample_user_configuration (PyStr "one")) (PyStr "a") (PyStr "b") []
                   eq_refl eq_refl eq_refl)) _ _).
  vm_compute. reflexivity.
Defined.

(** ** The server time zone tables *)

Lemma round_half_even_bounds a b :
  0 < b -> a / b <= TimeZone.round_half_even a b <= a / b + 1.
Proof.
  intros Hb. unfold TimeZone.round_half_even.
  destruct (2 * (a mod b) <? b); [lia|].
  destruct (b <? 2 * (a mod b)); [lia|].
  destruct (Z.even (a / b)); lia.
Qed.

(** Under 2^33 seconds the float quotient keeps more than six decimals, and
    [int(d.total_seconds())] is the truncated quotient. *)
Lemma int_total_seconds_exact d :
  exact_seconds d -> TimeZone.int_total_seconds d = Z.quot d 1000000.
Proof.
  unfold exact_seconds, TimeZone.int_total_seconds. intros Hd.
  rewrite (Z.quot_div d 1000000) by lia.
  change (Z.sgn 1000000) with 1. change (Z.abs 1000000) with 1000000.
  rewrite Z.mul_1_r.
  set (a := Z.abs d) in *.
  assert (0 <= a) as Ha by apply Z.abs_nonneg.
  set (s := a / 1000000).
  assert (0 <= s < 2 ^ 33) as Hs.
  { unfold s. split; [apply Z.div_pos; lia|].
    apply Z.div_lt_upper_bound; lia. }
  destruct (Z.eqb_spec s 0) as [->|Hs0]; [lia|].
  f_equal.
  assert (Z.log2 s < 33) as Hlog by (apply Z.log2_lt_pow2; lia).
  pose proof (Z.log2_nonneg s) as Hlog0.
  set (k := 52 - Z.log2 s).
  assert (20 <= k) as Hk by (unfold k; lia).
  destruct (Z.leb_spec 0 k); [|lia].
  set (P := 2 ^ k).
  assert (2 ^ 20 <= P) as HP by (apply Z.pow_le_mono_r; lia).
  change (2 ^ 20) with 1048576 in HP.
  pose proof (round_half_even_bounds (a * P) 1000000 ltac:(lia)) as [Hlo Hhi].
  set (m := TimeZone.round_half_even (a * P) 1000000) in *.
  pose proof (Z.div_mod a 1000000 ltac:(lia)) as Hdm. fold s in Hdm.
  pose proof (Z.mod_pos_bound a 1000000 ltac:(lia)) as Hr.
  set (r := a mod 1000000) in *.
  assert (a * P = (s * P) * 1000000 + r * P) as HaP by (rewrite Hdm at 1; ring).
  assert (r * P <= 999999 * P) as HrP by (apply Z.mul_le_mono_nonneg_r; lia).
  assert (0 <= r * P) as HrP0 by (apply Z.mul_nonneg_nonneg; lia).
  assert (a * P / 1000000 = s * P + r * P / 1000000) as Hq.
  { rewrite HaP, Z.add_comm, Z.div_add by lia. lia. }
  assert (0 <= r * P / 1000000 <= P - 2) as Ht.
  { split; [apply Z.div_pos; lia|].
    apply Z.lt_succ_r. apply Z.div_lt_upper_bound; lia. }
  symmetry. apply Z.div_unique with (r := m - s * P); lia.
Qed.

Lemma minutes_exact d :
  exact_seconds d -> TimeZone.minutes d = Z.quot d 1000000 / 60.
Proof. intros H. unfold TimeZone.minutes. by rewrite int_total_seconds_exact. Qed.

(** A bias of 17179869239.999999 seconds: the float is 17179869240.0, one
    second and one minute above the truncated quotient. *)
Lemma minutes_rounds_up :
  TimeZone.minutes 17179869239999999 = 286331154 /\
  Z.quot 17179869239999999 1000000 / 60 = 286331153.
Proof. split; vm_compute; reflexivity. Qed.

Lemma Sorted_weaken {A} (R R' : relation A) (l : list A) :
  (forall a b, R a b -> R' a b) -> Sorted R l -> Sorted R' l.
Proof.
  intros HR Hs. induction Hs as [|a l Hs IH Hhd]; constructor; [done|].
  destruct Hhd; constructor. by apply HR.
Qed.

Section ServerTables.

Import TimeZone.

Local Instance period_item_le_total : Total period_item_le.
Proof.
  intros [[y1 t1] p1] [[y2 t2] p2]. unfold period_item_le. cbn [fst snd].
  destruct (Z.lt_trichotomy y1 y2) as [Hlt|[Heq|Hgt]].
  - left. apply Is_true_true. apply orb_true_iff. left. by apply Z.ltb_lt.
  - subst y2. destruct (String.leb_total t1 t2) as [Hle|Hle].
    + left. apply Is_true_true. apply orb_true_iff. right.
      by rewrite Z.eqb_refl.
    + right. apply Is_true_true. apply orb_true_iff. right.
      by rewrite Z.eqb_refl.
  - right. apply Is_true_true. apply orb_true_iff. left. by apply Z.ltb_lt.
Qed.

Local Instance transition_item_le_total : Total transition_item_le.
Proof.
  intros [i1 d1] [i2 d2]. unfold transition_item_le. cbn [fst].
  destruct (Z.le_ge_cases i1 i2) as [H|H].
  - left. apply Is_true_true. by apply Z.leb_le.
  - right. apply Is_true_true. by apply Z.leb_le.
Qed.

Lemma sorted_periods (periods : periods_t) :
  let l := merge_sort period_item_le (map_to_list periods) in
  StronglySorted (fun a b => a.1.1 <= b.1.1) l /\ NoDup (l.*1) /\
  forall k p, (k, p) ∈ l <-> periods !! k = Some p.
Proof.
  intros l. split; [|split].
  - apply Sorted_StronglySorted; [intros a b c; lia|].
    apply (Sorted_weaken period_item_le); [|apply (Sorted_merge_sort _)].
    intros [[y1 t1] p1] [[y2 t2] p2]. unfold period_item_le. cbn [fst snd].
    intros H. apply Is_true_true in H. apply orb_true_iff in H as [H|H].
    + apply Z.ltb_lt in H. lia.
    + apply andb_true_iff in H as [H _]. apply Z.eqb_eq in H. lia.
  - unfold l. rewrite merge_sort_Permutation. apply NoDup_fst_map_to_list.
  - intros k p. unfold l. rewrite merge_sort_Permutation.
    apply elem_of_map_to_list.
Qed.

Lemma sorted_transitions (transitions : transitions_t) :
  let l := merge_sort transition_item_le (map_to_list transitions) in
  StronglySorted (fun a b => a.1 <= b.1) l /\ NoDup (l.*1) /\
  forall k d, (k, d) ∈ l <-> transitions !! k = Some d.
Proof.
  intros l. split; [|split].
  - apply Sorted_StronglySorted; [intros a b c; lia|].
    apply (Sorted_weaken transition_item_le); [|apply (Sorted_merge_sort _)].
    intros [i1 d1] [i2 d2]. unfold transition_item_le. cbn [fst].
    intros H. apply Is_true_true in H. by apply Z.leb_le in H.
  - unfold l. rewrite merge_sort_Permutation. apply NoDup_fst_map_to_list.
  - intros k d. unfold l. rewrite merge_sort_Permutation.
    apply elem_of_map_to_list.
Qed.

Local Abbreviation bias_loop for_year :=
  (fix go (l : list ((Z * string) * period)) (valid : option period) :=
     match l with
     | [] => valid
     | ((y, period_type), p) :: l' =>
         if negb (String.eqb period_type "Standard") then go l' valid
         else if for_year <? y then valid
         else go l' (Some p)
     end).

Lemma bias_loop_none (for_year : Z) : forall l valid,
  (forall y p, ((y, "Standard"), p) ∈ l -> for_year < y) ->
  bias_loop for_year l valid = valid.
Proof.
  induction l as [|[[y t] p] l IH]; intros valid Hall; [done|].
  destruct (String.eqb_spec t "Standard") as [->|Hne]; cbn [negb].
  - assert (for_year < y) as Hy by (apply (Hall y p); by left).
    apply Z.ltb_lt in Hy. by rewrite Hy.
  - apply IH. intros y' p' Hin. apply (Hall y' p'). by right.
Qed.

Lemma bias_loop_found (for_year y : Z) (p : period) : forall l valid,
  StronglySorted (fun a b => a.1.1 <= b.1.1) l -> NoDup (l.*1) ->
  ((y, "Standard"), p) ∈ l -> y <= for_year ->
  (forall y' p', ((y', "Standard"), p') ∈ l -> y' <= for_year -> y' <= y) ->
  bias_loop for_year l valid = Some p.
Proof.
  induction l as [|[[y0 t0] p0] l IH]; intros valid Hs Hnd Hin Hy Hmax.
  - inversion Hin.
  - apply StronglySorted_inv in Hs as [Hs Hhd].
    rewrite fmap_cons in Hnd. apply NoDup_cons in Hnd as [Hkey Hnd].
    rewrite Forall_forall in Hhd.
    apply elem_of_cons in Hin as [Heq|Hin].
    + injection Heq as <- <- <-.
      change (bias_loop for_year (((y, "Standard"), p) :: l) valid)
        with (if for_year <? y then valid else bias_loop for_year l (Some p)).
      destruct (Z.ltb_spec for_year y); [lia|].
      apply bias_loop_none. intros y' p' Hin'.
      destruct (Z.lt_ge_cases for_year y') as [|Hle]; [done|].
      exfalso. apply Hkey.
      assert (y' <= y) by (apply (Hmax y' p'); [by right|lia]).
      pose proof (Hhd _ Hin') as Hge. cbn [fst] in Hge.
      assert (y' = y) as -> by lia.
      apply list_elem_of_fmap. by exists ((y, "Standard"), p').
    + assert (forall y' p', ((y', "Standard"), p') ∈ l -> y' <= for_year -> y' <= y)
        as Hmax' by (intros y' p' Hin'; apply (Hmax y' p'); by right).
      destruct (String.eqb_spec t0 "Standard") as [->|Hne]; cbn [negb].
      * pose proof (Hhd _ Hin) as Hge. cbn [fst] in Hge.
        destruct (Z.ltb_spec for_year y0); [lia|]. by apply IH.
      * by apply IH.
Qed.

(** X18. [_get_bias] returns, in minutes, the bias of the standard period with
    the latest year not after [for_year], whatever other periods the table
    holds, when that bias is under 2^33 seconds: its whole seconds, floor
    divided by 60.  It raises when the table has no standard period that
    early. *)
Theorem get_bias_spec (periods : periods_t) (for_year : Z) :
  (forall y p,
     periods !! (y, "Standard") = Some p -> exact_seconds (p_bias p) ->
     y <= for_year ->
     (forall y' p', periods !! (y', "Standard") = Some p' -> y' <= for_year -> y' <= y) ->
     _get_bias periods for_year = OK (minutes (p_bias p)) /\
     minutes (p_bias p) = Z.quot (p_bias p) 1000000 / 60) /\
  ((forall y p, periods !! (y, "Standard") = Some p -> for_year < y) ->
   _get_bias periods for_year = Error (ValueError NoStandardBias)).
Proof.
  destruct (sorted_periods periods) as (Hs & Hnd & Hin).
  unfold _get_bias. cbv zeta. split.
  - intros y p Hp Hexact Hy Hmax. split; [|by apply minutes_exact].
    rewrite (bias_loop_found for_year y p); try done.
    + by apply Hin.
    + intros y' p' Hin'. apply (Hmax y' p'). by apply Hin.
  - intros Hall. rewrite bias_loop_none; [done|].
    intros y p Hin'. apply (Hall y p). by apply Hin.
Qed.

Local Abbreviation transition_loop for_year :=
  (fix go (l : list (Z * option date)) (valid : option Z) :=
     match l with
     | [] => valid
     | (tg_id, from_date) :: l' =>
         if match from_date with
            | Some d => for_year <? year d
            | None => false
            end
         then valid
         else go l' (Some tg_id)
     end).

Lemma transition_loop_found (for_year i : Z) : forall l valid,
  StronglySorted (fun a b => a.1 <= b.1) l -> NoDup (l.*1) ->
  i ∈ l.*1 ->
  (forall j d, (j, d) ∈ l -> j <= i -> future for_year d = false) ->
  (forall j d, (j, d) ∈ l -> i < j ->
     exists k d', (k, d') ∈ l /\ i < k <= j /\ future for_year d' = true) ->
  transition_loop for_year l valid = Some i.
Proof.
  induction l as [|[j0 d0] l IH]; intros valid Hs Hnd Hin Hpast Hnext.
  - inversion Hin.
  - apply StronglySorted_inv in Hs as [Hs Hhd].
    rewrite fmap_cons in Hnd, Hin. apply NoDup_cons in Hnd as [Hkey Hnd].
    rewrite Forall_forall in Hhd. cbn [fst] in *.
    assert (j0 <= i) as Hle.
    { apply elem_of_cons in Hin as [->|Hin]; [lia|].
      apply list_elem_of_fmap in Hin as ([k d] & -> & Hin).
      apply (Hhd _ Hin). }
    assert (future for_year d0 = false) as Hd0 by (apply (Hpast j0); [by left|done]).
    unfold future in Hd0. rewrite Hd0.
    apply elem_of_cons in Hin as [->|Hin].
    + destruct l as [|[j1 d1] l']; [done|].
      assert (j0 < j1) as Hlt.
      { pose proof (Hhd (j1, d1) ltac:(left)) as Hge. cbn [fst] in Hge.
        assert (j0 <> j1); [|lia]. intros ->. apply Hkey. by left. }
      destruct (Hnext j1 d1) as (k & d' & Hk & Hrange & Hfut);
        [right; by left|done|].
      apply elem_of_cons in Hk as [[= -> ->]|Hk]; [lia|].
      apply elem_of_cons in Hk as [[= -> ->]|Hk].
      * unfold future in Hfut. by rewrite Hfut.
      * exfalso. apply StronglySorted_inv in Hs as [_ Hhd1].
        rewrite Forall_forall in Hhd1. pose proof (Hhd1 _ Hk) as Hge.
        cbn [fst] in Hge. assert (k = j1) as -> by lia.
        rewrite fmap_cons in Hnd. apply NoDup_cons in Hnd as [Hkey1 _].
        apply Hkey1. apply list_elem_of_fmap. by exists (j1, d').
    + assert (j0 <> i) as Hne by (intros ->; done).
      apply IH; try done.
      * intros j d Hj. apply Hpast. by right.
      * intros j d Hj Hlt. destruct (Hnext j d) as (k & d' & Hk & Hrange & Hfut);
          [by right|done|].
        exists k, d'. split; [|done].
        apply elem_of_cons in Hk as [[= -> ->]|Hk]; [lia|done].
Qed.

Lemma unsettled_witness (transitions : transitions_t) (for_year j : Z) :
  is_Some (transitions !! j) -> ~ settled transitions for_year j ->
  exists k d, k <= j /\ transitions !! k = Some d /\ future for_year d = true.
Proof.
  intros Hj Hns.
  destruct (decide (Forall (fun kd : Z * option date =>
                              kd.1 <= j -> future for_year kd.2 = false)
                           (map_to_list transitions))) as [Hall|Hex].
  - exfalso. apply Hns. split; [done|]. intros k d Hk Hd.
    rewrite Forall_forall in Hall.
    apply (Hall (k, d)); [|done]. by apply elem_of_map_to_list.
  - apply not_Forall_Exists in Hex; [|apply _].
    apply Exists_exists in Hex as ([k d] & Hin & Hnot).
    unfold compose in Hnot. cbn [fst snd] in Hnot.
    exists k, d. apply elem_of_map_to_list in Hin.
    destruct (decide (k <= j)) as [Hk|Hk]; [|exfalso; apply Hnot; intros Hk'; by destruct Hk].
    split; [done|]. split; [done|].
    destruct (future for_year d) eqn:Hd; [done|]. exfalso. by apply Hnot.
Qed.

(** X19. [_get_valid_transition_id] returns the greatest group id such that no
    group up to it starts after [for_year]: the scan stops at the first
    group that starts later, also when groups with a higher id would be in
    time.  It raises when there is no such id, in particular when the first
    group starts after [for_year]. *)
Theorem get_valid_transition_id_spec (transitions : transitions_t) (for_year : Z) :
  (forall i,
     settled transitions for_year i ->
     (forall j, settled transitions for_year j -> j <= i) ->
     _get_valid_transition_id transitions for_year = OK i) /\
  ((forall i, ~ settled transitions for_year i) ->
   _get_valid_transition_id transitions for_year
   = Error (ValueError (NoValidTransition for_year))).
Proof.
  destruct (sorted_transitions transitions) as (Hs & Hnd & Hin).
  unfold _get_valid_transition_id. cbv zeta. split.
  - intros i [[di Hi] Hpast] Hmax.
    rewrite (transition_loop_found for_year i); try done.
    + apply list_elem_of_fmap. exists (i, di). split; [done|]. by apply Hin.
    + intros j d Hj Hle. apply (Hpast j d Hle). by apply Hin.
    + intros j d Hj Hlt. apply Hin in Hj.
      destruct (unsettled_witness transitions for_year j) as (k & d' & Hk & Hd' & Hfut).
      { by exists d. }
      { intros Hset. specialize (Hmax j Hset). lia. }
      exists k, d'. split; [by apply Hin|]. split; [|done].
      split; [|done]. destruct (Z.lt_ge_cases i k) as [|Hle]; [done|].
      rewrite (Hpast k d' Hle Hd') in Hfut. discriminate.
  - intros Hnone.
    destruct (merge_sort transition_item_le (map_to_list transitions))
      as [|[j0 d0] l] eqn:Hl; [done|].
    assert (transitions !! j0 = Some d0) as Hj0 by (apply Hin; by left).
    destruct (unsettled_witness transitions for_year j0) as (k & d' & Hk & Hd' & Hfut).
    { by exists d0. }
    { apply Hnone. }
    apply Hin in Hd'. apply elem_of_cons in Hd' as [[= -> ->]|Hd'].
    + unfold future in Hfut. by rewrite Hfut.
    + exfalso. apply StronglySorted_inv in Hs as [_ Hhd].
      rewrite Forall_forall in Hhd. pose proof (Hhd _ Hd') as Hge.
      cbn [fst] in Hge. assert (k = j0) as -> by lia.
      rewrite fmap_cons in Hnd. apply NoDup_cons in Hnd as [Hkey _].
      apply Hkey. apply list_elem_of_fmap. by exists (j0, d').
Qed.

End ServerTables.

Lemma get_bias_spec_witness :
  TimeZone._get_bias sample_period_history 2020 = OK 120 /\
  TimeZone._get_bias sample_period_history 2000
  = Error (ValueError NoStandardBias).
Proof.
  split.
  - apply (proj1 (get_bias_spec sample_period_history 2020) 2018
             (TimeZone.mkPeriod "Standard" 7200000000));
      [reflexivity|by vm_compute|lia|].
    intros y' p' Hp Hy. unfold sample_period_history in Hp.
    repeat (apply lookup_insert_Some in Hp as [[Hk _]|[_ Hp]];
            [(injection Hk as <-; lia) || discriminate Hk|]).
    by rewrite lookup_empty in Hp.
  - apply (proj2 (get_bias_spec sample_period_history 2000)).
    intros y p Hp. unfold sample_period_history in Hp.
    repeat (apply lookup_insert_Some in Hp as [[Hk _]|[_ Hp]];
            [(injection Hk as <-; lia) || discriminate Hk|]).
    by rewrite lookup_empty in Hp.
Defined.

Lemma get_valid_transition_id_spec_witness :
  settled sample_transition_history 2020 0 /\
  TimeZone._get_valid_transition_id sample_transition_history 2020 = OK 0 /\
  TimeZone._get_valid_transition_id sample_transition_history 2018 = OK 0.
Proof.
  assert (forall y, settled sample_transition_history y 0) as Hset.
  { intros y. split; [by eexists|]. intros j d Hj Hd.
    unfold sample_transition_history in Hd.
    apply lookup_insert_Some in Hd as [[_ <-]|[_ Hd]]; [done|].
    apply lookup_insert_Some in Hd as [[<- _]|[_ Hd]]; [lia|].
    apply lookup_insert_Some in Hd as [[<- _]|[_ Hd]]; [lia|].
    by rewrite lookup_empty in Hd. }
  assert (forall y j, y <= 2020 -> settled sample_transition_history y j -> j <= 0)
    as Hmax.
  { intros y j Hy [[d Hd] Hpast].
    destruct (Z.le_gt_cases j 0) as [|Hgt]; [done|]. exfalso.
    assert (1 <= j) as H1 by lia.
    specialize (Hpast 1 (Some (TimeZone.mkDate 2025 1 1)) H1 eq_refl).
    unfold future in Hpast. cbn [TimeZone.year] in Hpast.
    apply Z.ltb_ge in Hpast. lia. }
  split; [apply Hset|]. split.
  - apply (proj1 (get_valid_transition_id_spec sample_transition_history 2020) 0
             (Hset 2020)).
    intros j. apply Hmax. lia.
  - apply (proj1 (get_valid_transition_id_spec sample_transition_history 2018) 0
             (Hset 2018)).
    intros j. apply Hmax. lia.
Defined.

(** ** The descriptors of a transition group *)

Section Descriptors.

Import TimeZone.

Lemma transition_built (cls : pyclass) (b t o m w : pyval) :
  cls = StandardTime \/ cls = DaylightTime ->
  construct cls
    (EWSElement.kw_set "bias" b
       [("time", t); ("occurrence", o); ("iso_month", m); ("weekday", w)])
  = OK (mkEntity cls
          [("bias", b); ("time", t); ("occurrence", o); ("iso_month", m);
           ("weekday", w)]).
Proof. intros [->| ->]; vm_compute; reflexivity. Qed.

Lemma time_of_offset_valid (o : Z) :
  0 <= o < 86400000000 -> valid_time (time_of_offset o).
Proof.
  intros Ho. unfold time_of_offset, valid_time.
  repeat split; try (apply Z.mod_pos_bound; lia).
  - apply Z.div_pos; lia.
  - apply Z.div_lt_upper_bound; lia.
Qed.

Lemma in_range (o : Z) :
  negb ((0 <=? o) && (o <? 86400000000)) = false -> 0 <= o < 86400000000.
Proof.
  intros H. apply negb_false_iff, andb_true_iff in H as [H1 H2].
  apply Z.leb_le in H1. apply Z.ltb_lt in H2. lia.
Qed.

Lemma std_and_dst_loop_ok (periods : periods_t) (bias : Z) (G : list transition) :
  forall rest std dst,
  (forall tr, tr ∈ rest -> tr ∈ G) ->
  standard_descriptor std -> daylight_descriptor periods G bias dst ->
  Forall (fun tr => transition_error periods tr = None) rest ->
  exists std' dst',
    std_and_dst_loop rest periods bias std dst = OK (std', dst') /\
    standard_descriptor std' /\ daylight_descriptor periods G bias dst'.
Proof.
  induction rest as [|tr rest IH]; intros std dst Hsub Hstd Hdst Hall.
  - by exists std, dst.
  - apply Forall_cons in Hall as [Htr Hall].
    assert (forall t, t ∈ rest -> t ∈ G) as Hsub'
      by (intros t Ht; apply Hsub; by right).
    unfold transition_error in Htr. cbn [std_and_dst_loop].
    destruct (periods !! to tr) as [p|] eqn:Hp; [|discriminate].
    destruct (recurring tr) as [r|] eqn:Hr.
    + destruct (negb ((0 <=? offset r) && (offset r <? 86400000000))) eqn:Hrange;
        [discriminate|].
      apply in_range in Hrange. cbv zeta.
      destruct (String.eqb (p_name p) "Standard") eqn:Hs.
      * rewrite transition_built by by left. cbn [bind].
        apply IH; try done.
        right. eexists. split; [reflexivity|]. split; [reflexivity|].
        split; [reflexivity|]. eexists. split; [reflexivity|].
        by apply time_of_offset_valid.
      * destruct (String.eqb (p_name p) "Daylight") eqn:Hd; [|discriminate].
        rewrite transition_built by by right. cbn [bind].
        apply IH; try done.
        right. eexists. eexists. split; [reflexivity|]. split; [reflexivity|].
        split; [reflexivity|]. split.
        -- eexists. split; [reflexivity|]. by apply time_of_offset_valid.
        -- right. exists tr, p. split; [apply Hsub; by left|].
           split; [done|]. split; [by apply String.eqb_eq|done].
    + rewrite dummy_standard_time_built, dummy_daylight_time_built. cbn [bind].
      apply IH; try done.
      * right. eexists. split; [reflexivity|]. split; [reflexivity|].
        split; [reflexivity|]. eexists. split; [reflexivity|].
        unfold valid_time. lia.
      * right. eexists. eexists. split; [reflexivity|]. split; [reflexivity|].
        split; [reflexivity|]. split; [|by left].
        eexists. split; [reflexivity|]. unfold valid_time. lia.
Qed.

Lemma std_and_dst_loop_error (periods : periods_t) (bias : Z)
  (tr : transition) (after : list transition) (e : exn) :
  transition_error periods tr = Some e ->
  forall before std dst,
  Forall (fun t => transition_error periods t = None) before ->
  std_and_dst_loop (before ++ tr :: after) periods bias std dst = Error e.
Proof.
  intros Htr. induction before as [|t before IH]; intros std dst Hall.
  - unfold transition_error in Htr. cbn [app std_and_dst_loop].
    destruct (periods !! to tr) as [p|]; [|congruence].
    destruct (recurring tr) as [r|]; [|discriminate].
    destruct (negb ((0 <=? offset r) && (offset r <? 86400000000))); [congruence|].
    cbv zeta.
    destruct (String.eqb (p_name p) "Standard"); [discriminate|].
    destruct (String.eqb (p_name p) "Daylight"); [discriminate|congruence].
  - apply Forall_cons in Hall as [Ht Hall].
    unfold transition_error in Ht. cbn [app std_and_dst_loop].
    destruct (periods !! to t) as [p|]; [|discriminate].
    destruct (recurring t) as [r|].
    + destruct (negb ((0 <=? offset r) && (offset r <? 86400000000)));
        [discriminate|].
      cbv zeta.
      destruct (String.eqb (p_name p) "Standard").
      * rewrite transition_built by by left. cbn [bind]. by apply IH.
      * destruct (String.eqb (p_name p) "Daylight"); [|discriminate].
        rewrite transition_built by by right. cbn [bind]. by apply IH.
    + rewrite dummy_standard_time_built, dummy_daylight_time_built. cbn [bind].
      by apply IH.
Qed.

(** X20. [_get_std_and_dst] succeeds exactly when every transition of the group
    passes its checks: its period is in the table and, for a recurring
    transition, the offset is within one day and the period is a standard
    or a daylight one.  With the biases of the periods of the group under
    2^33 seconds, the standard descriptor it returns is [None] or has bias
    [0], the daylight descriptor is [None] or has the bias of a daylight
    period of the group less the base bias (or [0], the dummy), and both
    carry a valid time of day.  Otherwise the error is that of the first
    transition that fails a check. *)
Theorem get_std_and_dst_spec (group : list transition) (periods : periods_t)
  (bias : Z) :
  (Forall (fun tr => transition_error periods tr = None) group ->
   (forall tr p, tr ∈ group -> periods !! to tr = Some p ->
                 exact_seconds (p_bias p)) ->
   exists std dst,
     _get_std_and_dst group periods bias = OK (std, dst) /\
     standard_descriptor std /\ daylight_descriptor periods group bias dst) /\
  (forall before tr after e,
     group = before ++ tr :: after ->
     Forall (fun t => transition_error periods t = None) before ->
     transition_error periods tr = Some e ->
     _get_std_and_dst group periods bias = Error e).
Proof.
  unfold _get_std_and_dst. split.
  - intros Hall _. apply std_and_dst_loop_ok; try done; by left.
  - intros before tr after e -> Hall Htr. by apply std_and_dst_loop_error.
Qed.

End Descriptors.

Lemma get_std_and_dst_spec_witness :
  (exists std dst,
     TimeZone._get_std_and_dst sample_dst_group sample_dst_periods 60 = OK (std, dst) /\
     standard_descriptor std /\
     daylight_descriptor sample_dst_periods sample_dst_group 60 dst) /\
  TimeZone._get_std_and_dst
    (sample_dst_group ++ [TimeZone.mkTransition (2021, "Standard") None])
    sample_dst_periods 60 = Error KeyError.
Proof.
  split.
  - apply (proj1 (get_std_and_dst_spec sample_dst_group sample_dst_periods 60)).
    + repeat constructor.
    + intros tr p Htr Hp.
      apply elem_of_cons in Htr as [->|Htr];
        [|apply list_elem_of_singleton in Htr as ->];
        vm_compute in Hp; injection Hp as <-; by vm_compute.
  - apply (proj2 (get_std_and_dst_spec
                    (sample_dst_group ++ [TimeZone.mkTransition (2021, "Standard") None])
                    sample_dst_periods 60)
             sample_dst_group (TimeZone.mkTransition (2021, "Standard") None) []).
    + reflexivity.
    + repeat constructor.
    + reflexivity.
Defined.

(** ** class UID *)

Section UIDFacts.

Import UID.

Lemma hex_byte (b : Byte.byte) :
  hex_value (hex_digit (Byte.to_N b / 16)) = Some (Byte.to_N b / 16)%N /\
  hex_value (hex_digit (Byte.to_N b mod 16)) = Some (Byte.to_N b mod 16)%N.
Proof. destruct b; vm_compute; split; reflexivity. Qed.

Lemma unhexlify_hexlify (bs rest : list Byte.byte) :
  unhexlify (hexlify bs ++ rest) = (bs ++.) <$> unhexlify rest.
Proof.
  induction bs as [|b bs IH].
  - simpl. by destruct (unhexlify rest).
  - cbn [hexlify app unhexlify]. destruct (hex_byte b) as [-> ->]. rewrite IH.
    destruct (unhexlify rest) as [r|]; [|done]. simpl. f_equal. f_equal.
    unfold byte_of. rewrite <- N.div_mod' by lia. by rewrite Byte.of_to_N.
Qed.

Lemma length_hexlify (bs : list Byte.byte) :
  length (hexlify bs) = (2 * length bs)%nat.
Proof. induction bs as [|b bs IH]; simpl; lia. Qed.

Lemma encode_ascii_ok : forall (s : list N) (pos : nat),
  Forall (fun c => (c < 128)%N) s ->
  encode_ascii s pos = Returns (byte_of <$> s).
Proof.
  induction s as [|c s IH]; intros pos Hs; [done|].
  apply Forall_cons in Hs as [Hc Hs]. cbn [encode_ascii].
  apply N.ltb_lt in Hc. by rewrite Hc, IH.
Qed.

Lemma encode_ascii_inv : forall (s : list N) (pos : nat) bs,
  encode_ascii s pos = Returns bs -> Forall (fun c => (c < 128)%N) s.
Proof.
  induction s as [|c s IH]; intros pos bs Hs; [constructor|].
  cbn [encode_ascii] in Hs.
  destruct (N.ltb_spec c 128); [|discriminate].
  destruct (encode_ascii s (S pos)) as [bs'|e] eqn:Hs'; [|discriminate].
  constructor; [done|]. by eapply IH.
Qed.

Lemma encode_ascii_error (before after : list N) (c : N) : forall (pos : nat),
  Forall (fun c => (c < 128)%N) before -> (128 <= c)%N ->
  encode_ascii (before ++ c :: after) pos
  = Raises (UnicodeEncodeError (pos + length before)).
Proof.
  induction before as [|b before IH]; intros pos Hb Hc.
  - cbn [app encode_ascii length]. destruct (N.ltb_spec c 128); [lia|].
    by rewrite Nat.add_0_r.
  - apply Forall_cons in Hb as [Hb0 Hb]. cbn [app encode_ascii length].
    apply N.ltb_lt in Hb0. rewrite Hb0, IH by done.
    f_equal. f_equal. lia.
Qed.

Lemma byte_of_inj (a b : N) :
  (a < 128)%N -> (b < 128)%N -> byte_of a = byte_of b -> a = b.
Proof.
  intros Ha Hb. unfold byte_of.
  destruct (Byte.of_N a) as [x|] eqn:Hx;
    [|apply Byte.of_N_None_iff in Hx; lia].
  destruct (Byte.of_N b) as [y|] eqn:Hy;
    [|apply Byte.of_N_None_iff in Hy; lia].
  simpl. intros ->. apply Byte.to_of_N in Hx, Hy. congruence.
Qed.

Lemma fmap_byte_of_inj : forall (u v : list N),
  Forall (fun c => (c < 128)%N) u -> Forall (fun c => (c < 128)%N) v ->
  byte_of <$> u = byte_of <$> v -> u = v.
Proof.
  induction u as [|a u IH]; intros [|b v] Hu Hv Heq; try done.
  apply Forall_cons in Hu as [Ha Hu]. apply Forall_cons in Hv as [Hb Hv].
  rewrite !fmap_cons in Heq. injection Heq as Hab Huv.
  f_equal; [by apply byte_of_inj|by apply IH].
Qed.

Lemma uid_payload_length (n : nat) :
  (N.of_nat (2 * (12 + (n + 1))) / 2 = N.of_nat n + 13)%N.
Proof.
  replace (N.of_nat (2 * (12 + (n + 1)))) with ((N.of_nat n + 13) * 2)%N by lia.
  by rewrite N.div_mul.
Qed.

Lemma uid_text_ascii (uid : list N) :
  Forall (fun c => (c < 128)%N) uid ->
  Forall (fun c => (c < 128)%N) (vcal_prefix ++ uid ++ [0%N]).
Proof.
  intros H. apply Forall_app. split; [by repeat constructor|].
  apply Forall_app. split; [done|]. by repeat constructor.
Qed.

Lemma UID_value (uid : list N) :
  Forall (fun c => (c < 128)%N) uid ->
  (N.of_nat (length uid) + 13 < 2 ^ 32)%N ->
  __new__ uid
  = Returns (header_bytes ++ replicate 20 Byte.x00 ++
             uint32_le (N.of_nat (length uid) + 13) ++
             (byte_of <$> vcal_prefix) ++ (byte_of <$> uid) ++ [Byte.x00]).
Proof.
  intros Hascii Hlen.
  unfold __new__. rewrite encode_ascii_ok by by apply uid_text_ascii.
  cbv zeta. rewrite length_hexlify, length_fmap, !length_app.
  cbn [length vcal_prefix]. rewrite uid_payload_length.
  unfold pack_uint32_le. apply N.ltb_lt in Hlen. rewrite Hlen.
  unfold _HEADER, _EXCEPTION_REPLACEMENT_TIME, _CREATION_TIME, _RESERVED.
  rewrite !unhexlify_hexlify.
  rewrite <- (app_nil_r (hexlify (byte_of <$> _))), unhexlify_hexlify.
  cbn [unhexlify fmap option_fmap option_map]. rewrite !app_nil_r.
  rewrite !fmap_app. done.
Qed.

Lemma UID_value_length (uid : list N) :
  length (header_bytes ++ replicate 20 Byte.x00 ++
          uint32_le (N.of_nat (length uid) + 13) ++
          (byte_of <$> vcal_prefix) ++ (byte_of <$> uid) ++ [Byte.x00])
  = (53 + length uid)%nat.
Proof.
  rewrite !length_app, !length_fmap, length_replicate.
  cbn [length header_bytes uint32_le vcal_prefix]. lia.
Qed.

Lemma UID_returns (w : list N) (c : list Byte.byte) :
  __new__ w = Returns c ->
  Forall (fun x => (x < 128)%N) w /\ (N.of_nat (length w) + 13 < 2 ^ 32)%N.
Proof.
  intros Hw. unfold __new__ in Hw.
  destruct (encode_ascii _ 0) as [raw|e] eqn:Hraw; [|discriminate].
  pose proof (encode_ascii_inv _ _ _ Hraw) as Hall.
  apply Forall_app in Hall as [_ Hall]. apply Forall_app in Hall as [Hall _].
  split; [done|].
  rewrite encode_ascii_ok in Hraw by by apply uid_text_ascii.
  assert (raw = byte_of <$> vcal_prefix ++ w ++ [0%N]) as -> by congruence.
  cbv zeta in Hw.
  rewrite length_hexlify, length_fmap, !length_app in Hw.
  cbn [length vcal_prefix] in Hw. rewrite uid_payload_length in Hw.
  unfold pack_uint32_le in Hw.
  destruct (N.ltb_spec (N.of_nat (length w) + 13) (2 ^ 32)); [done|discriminate].
Qed.

(** X21. The value of [UID(uid)] for an ASCII [uid] shorter than 2^32 - 13: the
    detour through hexadecimal digits cancels out, and the result is the
    16 header bytes, 20 zero bytes, the length of the payload as four bytes
    with the least significant first, and the payload, which is [vCal-Uid],
    the bytes 1, 0, 0, 0, the uid and a zero byte; 53 bytes and the uid. *)
Theorem UID_encoding (uid : list N) :
  Forall (fun c => (c < 128)%N) uid ->
  (N.of_nat (length uid) + 13 < 2 ^ 32)%N ->
  exists b,
    __new__ uid = Returns b /\
    b = header_bytes ++ replicate 20 Byte.x00 ++
        uint32_le (N.of_nat (length uid) + 13) ++
        (byte_of <$> vcal_prefix) ++ (byte_of <$> uid) ++ [Byte.x00] /\
    length b = (53 + length uid)%nat.
Proof.
  intros Hascii Hlen. eexists. split; [by apply UID_value|].
  split; [done|]. apply UID_value_length.
Qed.

(** X22. [UID] returns for ASCII uids shorter than 2^32 - 13 only, and distinct
    uids have distinct encodings. *)
Theorem UID_injective (u v : list N) (b : list Byte.byte) :
  __new__ u = Returns b ->
  Forall (fun x => (x < 128)%N) u /\ (N.of_nat (length u) + 13 < 2 ^ 32)%N /\
  (__new__ v = Returns b -> u = v).
Proof.
  intros Hu. destruct (UID_returns u b Hu) as [Hau Hlu].
  split; [done|]. split; [done|]. intros Hv.
  destruct (UID_returns v b Hv) as [Hav Hlv].
  rewrite (UID_value u Hau Hlu) in Hu. rewrite (UID_value v Hav Hlv) in Hv.
  assert (length u = length v) as Hlen.
  { pose proof (UID_value_length u) as H1. pose proof (UID_value_length v) as H2.
    assert (forall x y : list Byte.byte, Returns x = Returns y :> outcome _ -> x = y)
      as Hinj by (intros x y [= ->]; done).
    apply Hinj in Hu, Hv. rewrite Hu in H1. rewrite Hv in H2. lia. }
  assert (forall x y : list Byte.byte, Returns x = Returns y :> outcome _ -> x = y)
    as Hinj by (intros x y [= ->]; done).
  apply Hinj in Hu, Hv. rewrite <- Hv, Hlen in Hu.
  do 4 apply app_inv_head in Hu.
  apply app_inv_tail in Hu. by apply fmap_byte_of_inj.
Qed.

(** X23. A uid with a code point that is not ASCII raises [UnicodeEncodeError]
    at the position of the first such code point in the formatted text, the
    uid starting at position 12. *)
Theorem UID_non_ascii (before after : list N) (c : N) :
  Forall (fun x => (x < 128)%N) before -> (128 <= c)%N ->
  __new__ (before ++ c :: after)
  = Raises (UnicodeEncodeError (12 + length before)).
Proof.
  intros Hb Hc. unfold __new__.
  assert (vcal_prefix ++ (before ++ c :: after) ++ [0%N]
          = (vcal_prefix ++ before) ++ c :: (after ++ [0%N])) as ->
    by (by rewrite <- !app_assoc).
  rewrite encode_ascii_error; [|apply Forall_app; split; [by repeat constructor|done]|done].
  by rewrite length_app.
Qed.

End UIDFacts.

Lemma UID_encoding_witness :
  Forall (fun c => (c < 128)%N) [97; 98]%N /\
  exists b, UID.__new__ [97; 98]%N = Returns b /\ length b = 55%nat.
Proof.
  assert (Forall (fun c => (c < 128)%N) [97; 98]%N) as Hascii
    by (repeat constructor).
  split; [exact Hascii|].
  destruct (UID_encoding [97; 98]%N Hascii) as (b & Hb & _ & Hlen).
  { vm_compute. reflexivity. }
  exists b. split; [exact Hb|exact Hlen].
Defined.

Lemma UID_injective_witness :
  exists b, UID.__new__ [97; 98]%N = Returns b /\
            Forall (fun c => (c < 128)%N) [97; 98]%N.
Proof.
  eexists. split; [vm_compute; reflexivity|].
  refine (proj1 (UID_injective [97; 98]%N [97; 98]%N _ _)).
  vm_compute. reflexivity.
Defined.

Lemma UID_non_ascii_witness :
  UID.__new__ [97; 233; 98]%N = Raises (UnicodeEncodeError 13).
Proof.
  apply (UID_non_ascii [97%N] [98%N] 233%N).
  - repeat constructor.
  - vm_compute. discriminate.
Defined.
